(** * semu statistic scripts: log parsing and metric derivation

    A shallow embedding of the four scripts under [statistic/]:
    [draw_scaled.py], [draw_scaled_merge.py], [draw_increase.py] and
    [draw_increase_merge.py].  The parsing and aggregation code is
    embedded.  The calls into [os.makedirs] and matplotlib that stand
    inside the loops of [main] of [draw_scaled.py] are parameters of
    the model, functions that may raise; the plotting that follows the
    data collection in the other three scripts consumes the lists
    built here and is left out.

    Conventions.
    - A Python [str] is a [list ascii]: one element per character, code
      points 0..255.  Characters above U+00FF are outside the model.
    - A Python [float] is a binary64 value, [spec_float] with
      [prec = 53] and [emax = 1024], and the arithmetic is the
      correctly rounded one of [SpecFloat].
    - A Python [int] is a [Z]; loop indices from [range] are [nat].
    - A [dict] is a [gmap]; a list is a [list].
    - Code that can raise returns a [result]; a [try ... except] is a
      match on the result that lets the other exceptions through.
    - A file is the text its decoding yields; a directory in the
      place of a file and a file that cannot be decoded are outside
      the model. *)

From Stdlib Require Import ZArith List Ascii String Bool Lia.
From Stdlib Require Import Floats.SpecFloat Numbers.DecimalString.
From stdpp Require Import base option list gmap.

Open Scope Z_scope.

Abbreviation text := (list ascii) (only parsing).

(** A string literal as a [text]. *)
Definition txt (s : string) : text := list_ascii_of_string s.

(** ** Exceptions *)

Inductive exn :=
| FileNotFoundError
| ValueError
| IndexError
| ZeroDivisionError.

Inductive result (A : Type) :=
| Ok (a : A)
| Raise (e : exn).
Arguments Ok {A} a.
Arguments Raise {A} e.

#[global] Instance result_ret : MRet result := fun _ a => Ok a.

#[global] Instance result_bind : MBind result := fun _ _ k r =>
  match r with
  | Ok a => k a
  | Raise e => Raise e
  end.

(** ** Python built-ins on [str] *)
Module Py.

Definition code (c : ascii) : N := N_of_ascii c.

(** [str.isspace] on one character, for code points below 256: the
    ASCII white space, the separators U+001C..U+001F, NEL and NBSP. *)
Definition isspace (c : ascii) : bool :=
  existsb (N.eqb (code c)) [9; 10; 11; 12; 13; 28; 29; 30; 31; 32; 133; 160]%N.

Definition isdigit (c : ascii) : bool :=
  (48 <=? code c)%N && (code c <=? 57)%N.

Definition digit_val (c : ascii) : Z := Z.of_N (code c) - 48.

(** ASCII lower case, as used for the case-insensitive comparisons. *)
Definition lower (c : ascii) : ascii :=
  if (65 <=? code c)%N && (code c <=? 90)%N
  then ascii_of_N (code c + 32) else c.

Fixpoint lstrip (s : text) : text :=
  match s with
  | c :: s' => if isspace c then lstrip s' else s
  | [] => []
  end.

Definition rstrip (s : text) : text := rev (lstrip (rev s)).

(** [s.strip()] *)
Definition strip (s : text) : text := rstrip (lstrip s).

(** [s.startswith(p)] *)
Fixpoint startswith (s p : text) : bool :=
  match p, s with
  | [], _ => true
  | a :: p', b :: s' => Ascii.eqb a b && startswith s' p'
  | _ :: _, [] => false
  end.

(** [s.split(sep)] for a one-character separator: never empty. *)
Fixpoint split (sep : ascii) (s : text) : list text :=
  match s with
  | [] => [[]]
  | c :: s' =>
      if Ascii.eqb c sep then [] :: split sep s'
      else match split sep s' with
           | p :: ps => (c :: p) :: ps
           | [] => [[c]]
           end
  end.

(** [s.split()]: the maximal runs of non-space characters.  [w] is
    the word being read, most recent character first. *)
Fixpoint split_ws_from (w : text) (s : text) : list text :=
  match s with
  | [] => match w with [] => [] | _ => [rev w] end
  | c :: s' =>
      if isspace c
      then match w with
           | [] => split_ws_from [] s'
           | _ => rev w :: split_ws_from [] s'
           end
      else split_ws_from (c :: w) s'
  end.

Definition split_ws (s : text) : list text := split_ws_from [] s.

(** [l[i]] *)
Definition index {A} (l : list A) (i : nat) : result A :=
  match l !! i with
  | Some a => Ok a
  | None => Raise IndexError
  end.

(** Text-mode reading: universal newlines turn CR LF and a lone CR
    into LF. *)
Definition LF : ascii := ascii_of_N 10.
Definition CR : ascii := ascii_of_N 13.

Fixpoint universal_newlines (s : text) : text :=
  match s with
  | [] => []
  | c :: s' =>
      if Ascii.eqb c CR then
        LF :: match s' with
              | d :: s'' =>
                  if Ascii.eqb d LF then universal_newlines s''
                  else universal_newlines s'
              | [] => []
              end
      else c :: universal_newlines s'
  end.

(** [for line in f]: the lines with their terminator, a last
    unterminated line only when it is not empty. *)
Fixpoint lines_from (cur : text) (s : text) : list text :=
  match s with
  | [] => match cur with [] => [] | _ => [rev cur] end
  | c :: s' =>
      if Ascii.eqb c LF then rev (c :: cur) :: lines_from [] s'
      else lines_from (c :: cur) s'
  end.

Definition file_lines (content : text) : list text :=
  lines_from [] (universal_newlines content).

(** [f.read()] *)
Definition file_read (content : text) : text := universal_newlines content.

(** [str(n)] for a non-negative [int], as the f-strings need it. *)
Definition str_of_nat (n : nat) : text :=
  txt (NilZero.string_of_uint (Nat.to_uint n)).

(** [os.path.join(a, b)] for a relative [b] and an [a] without a
    trailing separator, the only way the scripts call it. *)
Definition path_join (a b : text) : text := a ++ txt "/" ++ b.

End Py.

(** ** binary64 *)
Module Float.

Definition prec : Z := 53.
Definition emax : Z := 1024.

Abbreviation float := spec_float (only parsing).

Definition of_Z (n : Z) : float := binary_normalize prec emax n 0 false.

Definition add (x y : float) : float := SFadd prec emax x y.
Definition sub (x y : float) : float := SFsub prec emax x y.
Definition div (x y : float) : float := SFdiv prec emax x y.
Definition ltb (x y : float) : bool := SFltb x y.
Definition leb (x y : float) : bool := SFleb x y.

(** [x > y] *)
Definition gtb (x y : float) : bool := SFltb y x.
Definition eqb (x y : float) : bool := SFeqb x y.

Definition is_zero (x : float) : bool :=
  match x with S754_zero _ => true | _ => false end.

(** [x / y] on floats: Python raises on a zero divisor, of either
    sign, and otherwise returns the IEEE quotient. *)
Definition truediv (x y : float) : result float :=
  if is_zero y then Raise ZeroDivisionError else Ok (div x y).

(** The binary64 nearest to [(-1)^neg * m * 10^e], ties to even, for
    [m >= 0]: what a decimal literal or [float(str)] denotes. *)
Definition of_decimal (neg : bool) (m e : Z) : float :=
  match m with
  | Z0 => S754_zero neg
  | Zpos p =>
      if 0 <=? e
      then binary_normalize prec emax (if neg then - (m * 10 ^ e) else m * 10 ^ e) 0 false
      else
        let '(q, e', l) := SFdiv_core_binary prec emax m 0 (10 ^ (- e)) 0 in
        binary_round_aux prec emax neg q e' l
  | Zneg _ => S754_nan
  end.

End Float.


(** ** [float(str)] and [int(str)] *)
Module PyNum.
Import Py.

(** The numeric value of a run of decimal digits. *)
Definition digits_val (ds : text) : Z :=
  fold_left (fun a c => 10 * a + digit_val c) ds 0.

(** The longest prefix of digits, and what follows it. *)
Fixpoint span_digits (s : text) : text * text :=
  match s with
  | c :: s' =>
      if isdigit c
      then let '(ds, r) := span_digits s' in (c :: ds, r)
      else ([], s)
  | [] => ([], [])
  end.

Definition is_char (a : ascii) (c : ascii) : bool := Ascii.eqb c a.

(** Underscores in numeric strings: each one must stand between two
    digits; they are dropped.  [prev] is the character before [s]. *)
Fixpoint drop_underscores (prev : option ascii) (s : text) : option text :=
  match s with
  | [] => match prev with
          | Some p => if is_char "_" p then None else Some []
          | None => Some []
          end
  | c :: s' =>
      if is_char "_" c then
        match prev with
        | Some p => if isdigit p then drop_underscores (Some c) s' else None
        | None => None
        end
      else
        match prev with
        | Some p =>
            if is_char "_" p && negb (isdigit c) then None
            else option_map (cons c) (drop_underscores (Some c) s')
        | None => option_map (cons c) (drop_underscores (Some c) s')
        end
  end.

(** An optional sign: [true] for a minus. *)
Definition take_sign (s : text) : bool * text :=
  match s with
  | c :: s' =>
      if is_char "-" c then (true, s')
      else if is_char "+" c then (false, s')
      else (false, s)
  | [] => (false, [])
  end.

(** The exponent part: [e] or [E], an optional sign and at least one
    digit.  Without a digit nothing is consumed. *)
Definition take_exponent (s : text) : Z * text :=
  match s with
  | c :: s' =>
      if is_char "e" (lower c) then
        let '(neg, s1) := take_sign s' in
        let '(ds, r) := span_digits s1 in
        match ds with
        | [] => (0, s)
        | _ => ((if neg then - digits_val ds else digits_val ds), r)
        end
      else (0, s)
  | [] => (0, [])
  end.

(** A decimal number after its sign: digits, an optional point and
    digits, at least one digit in all, an optional exponent. *)
Definition parse_decimal (neg : bool) (s : text) : option spec_float :=
  let '(ip, r1) := span_digits s in
  let '(fp, r2) :=
    match r1 with
    | c :: r1' => if is_char "." c then span_digits r1' else ([], r1)
    | [] => ([], [])
    end in
  match ip ++ fp with
  | [] => None
  | ds =>
      let '(ex, r3) := take_exponent r2 in
      match r3 with
      | [] => Some (Float.of_decimal neg (digits_val ds) (ex - Z.of_nat (length fp)))
      | _ => None
      end
  end.

(** [inf], [infinity] and [nan] after the sign, in any letter case. *)
Definition parse_inf_nan (neg : bool) (s : text) : option spec_float :=
  let l := map lower s in
  if decide (l = txt "inf") then Some (S754_infinity neg)
  else if decide (l = txt "infinity") then Some (S754_infinity neg)
  else if decide (l = txt "nan") then Some S754_nan
  else None.

(** [float(s)] for a [str] argument. *)
Definition float (s : text) : result spec_float :=
  match drop_underscores None (strip s) with
  | None => Raise ValueError
  | Some s1 =>
      let '(neg, s2) := take_sign s1 in
      match parse_decimal neg s2 with
      | Some x => Ok x
      | None =>
          match parse_inf_nan neg s2 with
          | Some x => Ok x
          | None => Raise ValueError
          end
      end
  end.

(** [sys.get_int_max_str_digits()]: the scripts leave the default of
    CPython 3.11 and later in place. *)
Definition int_max_str_digits : nat := 4300.

(** [int(s)] for a [str] argument, base ten.  A literal with more
    than [int_max_str_digits] digits, leading zeros counted,
    underscores and the sign not, raises [ValueError] as a malformed
    one does. *)
Definition int (s : text) : result Z :=
  match drop_underscores None (strip s) with
  | None => Raise ValueError
  | Some s1 =>
      let '(neg, s2) := take_sign s1 in
      let '(ds, r) := span_digits s2 in
      match ds, r with
      | _ :: _, [] =>
          if (int_max_str_digits <? length ds)%nat then Raise ValueError
          else Ok (if neg then - digits_val ds else digits_val ds)
      | _, _ => Raise ValueError
      end
  end.

End PyNum.

(** ** The fragment of [re] the scripts use

    Literal characters, character sets, greedy repetition of a
    one-character set, and capturing groups that are not nested.
    Matching is the backtracking search of Python's engine: a
    repetition first takes as many characters as it can and gives them
    back one at a time when the rest of the pattern fails. *)
Module Re.
Import Py.

Inductive re :=
| Eps
| Lit (a : ascii)
| Set_ (p : ascii -> bool)
| Star (p : ascii -> bool)
| Opt (p : ascii -> bool)
| Cat (r1 r2 : re)
| Group (r : re).

Definition Plus (p : ascii -> bool) : re := Cat (Set_ p) (Star p).

Definition seq_re (rs : list re) : re := fold_right Cat Eps rs.

(** A literal string. *)
Definition lit (s : string) : re := seq_re (map Lit (txt s)).

(** One literal against one character; [ic] is [re.IGNORECASE]. *)
Definition lit_matches (ic : bool) (a c : ascii) : bool :=
  if ic then Ascii.eqb (lower a) (lower c) else Ascii.eqb a c.

Section Matcher.
Context {R : Type}.
Variable ic : bool.

Fixpoint star_k (p : ascii -> bool) (k : text -> option R) (s : text)
  : option R :=
  match s with
  | c :: s' =>
      if p c then
        match star_k p k s' with
        | Some r => Some r
        | None => k s
        end
      else k s
  | [] => k []
  end.

(** [m r s gs k]: match [r] at the head of [s], with the groups [gs]
    closed so far, then continue with [k] on what is left. *)
Fixpoint m (r : re) (s : text) (gs : list text)
           (k : text -> list text -> option R) : option R :=
  match r with
  | Eps => k s gs
  | Lit a =>
      match s with
      | c :: s' => if lit_matches ic a c then k s' gs else None
      | [] => None
      end
  | Set_ p =>
      match s with
      | c :: s' => if p c then k s' gs else None
      | [] => None
      end
  | Star p => star_k p (fun s' => k s' gs) s
  | Opt p =>
      match s with
      | c :: s' =>
          if p c then
            match k s' gs with
            | Some x => Some x
            | None => k s gs
            end
          else k s gs
      | [] => k s gs
      end
  | Cat r1 r2 => m r1 s gs (fun s1 gs1 => m r2 s1 gs1 k)
  | Group r1 =>
      m r1 s gs
        (fun s1 gs1 => k s1 (gs1 ++ [take (length s - length s1) s]))
  end.
End Matcher.

(** A compiled pattern: the expression and its flag. *)
Record pattern := { expr : re; ignorecase : bool }.

(** A match at the head of [s]: what follows it, and the groups. *)
Definition match_at (pt : pattern) (s : text) : option (text * list text) :=
  m (ignorecase pt) (expr pt) s [] (fun s' gs => Some (s', gs)).

(** [pattern.search(s)]: the leftmost match; the result is the list
    of its groups. *)
Fixpoint search (pt : pattern) (s : text) : option (list text) :=
  match match_at pt s with
  | Some (_, gs) => Some gs
  | None =>
      match s with
      | _ :: s' => search pt s'
      | [] => None
      end
  end.

(** [match.group(i)] for [i >= 1]. *)
Definition group (gs : list text) (i : nat) : text := nth (i - 1) gs [].

(** [pattern.sub(repl, s)]: every non-overlapping match, leftmost
    first, is replaced by [repl].  Each round consumes a character, so
    the length of the text bounds the number of rounds. *)
Fixpoint sub_from (fuel : nat) (pt : pattern) (repl s : text) : text :=
  match fuel with
  | O => s
  | S fuel' =>
      let step :=
        match s with
        | c :: s' => c :: sub_from fuel' pt repl s'
        | [] => []
        end in
      match match_at pt s with
      | Some (rest, _) =>
          if (length rest <? length s)%nat
          then repl ++ sub_from fuel' pt repl rest
          else repl ++ step
      | None => step
      end
  end.

Definition sub (pt : pattern) (repl s : text) : text :=
  sub_from (S (length s)) pt repl s.

End Re.

(** ** The file system the scripts read

    A path either names a regular file whose bytes decode to text,
    with that text, or nothing.  A directory in the place of a file,
    or a file whose bytes do not decode, is not represented: on those
    [open], [read] and the iteration over the lines raise, outside
    every [try] of the scripts.  Whatever is stated for every file
    system is stated for the file systems in which each path that
    exists is such a text file. *)
Definition filesystem := text -> option text.

(** [os.path.exists(path)] *)
Definition exists_ (fs : filesystem) (path : text) : bool :=
  bool_decide (is_Some (fs path)).

(** [open(path, "r")] *)
Definition open_ (fs : filesystem) (path : text) : result text :=
  match fs path with
  | Some content => Ok content
  | None => Raise FileNotFoundError
  end.

(** ** [draw_increase.py] *)
Module DrawIncrease.
Import Py Re.

Definition BASE_DIR : text := txt "./profile-3".

Definition ESC : ascii := ascii_of_N 27.

Definition digit_or_dot (c : ascii) : bool :=
  isdigit c || Ascii.eqb c ".".

Definition digit_or_semi (c : ascii) : bool :=
  isdigit c || Ascii.eqb c ";".

Definition is_minus (c : ascii) : bool := Ascii.eqb c "-".

(** [Boot time:\s*([0-9.]+)\s+seconds,\s+called\s+([0-9]+)\s+times],
    [re.IGNORECASE] *)
Definition boot_re : pattern :=
  {| expr := seq_re
       [ lit "Boot time:"; Star isspace; Group (Plus digit_or_dot);
         Plus isspace; lit "seconds,"; Plus isspace; lit "called";
         Plus isspace; Group (Plus isdigit); Plus isspace; lit "times" ];
     ignorecase := true |}.

(** [offset:\s*(-?[0-9]+)], [re.IGNORECASE] *)
Definition offset_re : pattern :=
  {| expr := seq_re
       [ lit "offset:"; Star isspace;
         Group (Cat (Opt is_minus) (Plus isdigit)) ];
     ignorecase := true |}.

(** [\x1b\[[0-9;]*m] *)
Definition ansi_escape : pattern :=
  {| expr := seq_re [ Lit ESC; Lit "["; Star digit_or_semi; Lit "m" ];
     ignorecase := false |}.

Definition remove_ansi_codes (s : text) : text := sub ansi_escape [] s.

(** One entry of [data[smp][env]]. *)
Record entry := { boot : spec_float; called : Z; offset : Z }.

Definition default_entry : entry :=
  {| boot := Float.of_Z 0; called := 0; offset := 0 |}.

(** The three extractions, on the text already stripped of escape
    codes. *)
Definition extract_boot (content : text) : result (spec_float * Z) :=
  match search boot_re content with
  | Some boot_match =>
      boot_time ← PyNum.float (group boot_match 1);
      times_called ← PyNum.int (group boot_match 2);
      Ok (boot_time, times_called)
  | None => Ok (Float.of_Z 0, 0)
  end.

Definition extract_offset (content : text) : result Z :=
  match search offset_re content with
  | Some offset_match => PyNum.int (group offset_match 1)
  | None => Ok 0
  end.

Definition logfile (env smp : nat) : text :=
  path_join (path_join BASE_DIR (txt "logs-" ++ str_of_nat env))
            (txt "emulator_SMP_" ++ str_of_nat smp ++ txt ".log").

(** What the loop body computes from [content = f.read()]: the escape
    codes are removed, then both patterns are searched. *)
Definition parse_content (content : text) : result entry :=
  let content := remove_ansi_codes content in
  '(boot_time, times_called) ← extract_boot content;
  offset_val ← extract_offset content;
  Ok {| boot := boot_time; called := times_called; offset := offset_val |}.

(** The same from the bytes of the file. *)
Definition parse_log (raw : text) : result entry :=
  parse_content (file_read raw).

(** The body of the inner loop: [data[smp][env]] is first set to the
    defaults and, when the log exists, overwritten with what was
    parsed. *)
Definition env_step (fs : filesystem) (smp env : nat)
    (row : gmap nat entry) : result (gmap nat entry) :=
  let row := <[env := default_entry]> row in
  if exists_ fs (logfile env smp) then
    raw ← open_ fs (logfile env smp);
    e ← parse_log raw;
    Ok (<[env := e]> row)
  else Ok row.

Fixpoint env_loop (fs : filesystem) (smp : nat) (envs : list nat)
    (row : gmap nat entry) : result (gmap nat entry) :=
  match envs with
  | [] => Ok row
  | env :: rest => row' ← env_step fs smp env row; env_loop fs smp rest row'
  end.

Fixpoint smp_loop (fs : filesystem) (NUM_ENV : nat) (smps : list nat)
    (data : gmap nat (gmap nat entry)) : result (gmap nat (gmap nat entry)) :=
  match smps with
  | [] => Ok data
  | smp :: rest =>
      row ← env_loop fs smp (seq 1 NUM_ENV) ∅;
      smp_loop fs NUM_ENV rest (<[smp := row]> data)
  end.

(** The data collection of the script, for [NUM_ENV] environments and
    [NUM_SMP] SMP values. *)
Definition collect (fs : filesystem) (NUM_ENV NUM_SMP : nat)
    : result (gmap nat (gmap nat entry)) :=
  smp_loop fs NUM_ENV (seq 1 NUM_SMP) ∅.

End DrawIncrease.

(** ** [draw_increase_merge.py]

    The patterns and the removal of the escape codes are written out
    again in this script, character for character as in
    [draw_increase.py]; the results go into three dictionaries from an
    environment to a list with one element per SMP. *)
Module DrawIncreaseMerge.
Import Py Re.

Definition BASE_DIR : text := txt "./profile-3".

Definition boot_re : pattern :=
  {| expr := seq_re
       [ lit "Boot time:"; Star isspace;
         Group (Plus DrawIncrease.digit_or_dot);
         Plus isspace; lit "seconds,"; Plus isspace; lit "called";
         Plus isspace; Group (Plus isdigit); Plus isspace; lit "times" ];
     ignorecase := true |}.

Definition offset_re : pattern :=
  {| expr := seq_re
       [ lit "offset:"; Star isspace;
         Group (Cat (Opt DrawIncrease.is_minus) (Plus isdigit)) ];
     ignorecase := true |}.

Definition remove_ansi_codes (s : text) : text :=
  let ansi_escape :=
    {| expr := seq_re [ Lit DrawIncrease.ESC; Lit "[";
                        Star DrawIncrease.digit_or_semi; Lit "m" ];
       ignorecase := false |} in
  sub ansi_escape [] s.

Record tables := {
  boot_data : gmap nat (list spec_float);
  called_data : gmap nat (list Z);
  offset_data : gmap nat (list Z)
}.

(** [{env: [x]*NUM_SMP for env in range(1, NUM_ENV+1)}] *)
Definition filled {A} (x : A) (NUM_ENV NUM_SMP : nat) : gmap nat (list A) :=
  fold_left (fun table env => <[env := replicate NUM_SMP x]> table)
            (seq 1 NUM_ENV) ∅.

(** [table[env][smp-1] = x], for the [smp >= 1] of the loop. *)
Definition set_cell {A} (env smp : nat) (x : A) (table : gmap nat (list A))
    : gmap nat (list A) :=
  alter (fun row => <[(smp - 1)%nat := x]> row) env table.

Definition logfile (env smp : nat) : text :=
  path_join (path_join BASE_DIR (txt "logs-" ++ str_of_nat env))
            (txt "emulator_SMP_" ++ str_of_nat smp ++ txt ".log").

(** The body of [for smp in range(1, NUM_SMP+1)]. *)
Definition smp_step (fs : filesystem) (env smp : nat) (t : tables)
    : result tables :=
  if negb (exists_ fs (logfile env smp)) then Ok t
  else
    raw ← open_ fs (logfile env smp);
    let content := remove_ansi_codes (file_read raw) in
    '(boot_time, times_called) ←
      match search boot_re content with
      | Some boot_match =>
          boot_time ← PyNum.float (group boot_match 1);
          times_called ← PyNum.int (group boot_match 2);
          Ok (boot_time, times_called)
      | None => Ok (Float.of_Z 0, 0)
      end;
    offset_val ←
      match search offset_re content with
      | Some offset_match => PyNum.int (group offset_match 1)
      | None => Ok 0
      end;
    Ok {| boot_data := set_cell env smp boot_time (boot_data t);
          called_data := set_cell env smp times_called (called_data t);
          offset_data := set_cell env smp offset_val (offset_data t) |}.

Fixpoint smp_loop (fs : filesystem) (env : nat) (smps : list nat) (t : tables)
    : result tables :=
  match smps with
  | [] => Ok t
  | smp :: rest => t' ← smp_step fs env smp t; smp_loop fs env rest t'
  end.

Fixpoint env_loop (fs : filesystem) (NUM_SMP : nat) (envs : list nat)
    (t : tables) : result tables :=
  match envs with
  | [] => Ok t
  | env :: rest =>
      t' ← smp_loop fs env (seq 1 NUM_SMP) t;
      env_loop fs NUM_SMP rest t'
  end.

(** The data collection of the script. *)
Definition collect (fs : filesystem) (NUM_ENV NUM_SMP : nat) : result tables :=
  env_loop fs NUM_SMP (seq 1 NUM_ENV)
    {| boot_data := filled (Float.of_Z 0) NUM_ENV NUM_SMP;
       called_data := filled 0 NUM_ENV NUM_SMP;
       offset_data := filled 0 NUM_ENV NUM_SMP |}.

End DrawIncreaseMerge.

(** ** [draw_scaled.py] *)
Module DrawScaled.
Import Py.

(** [1e8] *)
Definition THRESHOLD : spec_float := Float.of_decimal false 1 8.

(** [sum(values)]: the additions from left to right, starting at 0.
    (CPython from 3.12 on compensates the rounding errors of the
    additions; on a list of one value the two agree.) *)
Definition sum (values : list spec_float) : spec_float :=
  fold_left Float.add values (Float.of_Z 0).

(** [sum(values) / len(values)] *)
Definition average (values : list spec_float) : result spec_float :=
  Float.truediv (sum values) (Float.of_Z (Z.of_nat (length values))).

(** The [try] block of [parse_ns_per_call_time_log] on one stripped
    line.  [Ok None] is the [continue] on a total above the
    threshold, [Ok (Some v)] the value appended. *)
Definition ns_try (line : text) : result (option spec_float) :=
  let parts := split "," line in
  part1 ← index parts 1;
  field ← index (split ":" part1) 1;
  let total_str := strip field in
  total_val ← PyNum.float total_str;
  if Float.gtb total_val THRESHOLD then Ok None
  else
    half ← Float.truediv total_val (Float.of_Z 2);
    ns_val ← Float.truediv half (Float.of_Z 1000000);
    Ok (Some ns_val).

(** The [for line in f] loop; [except (IndexError, ValueError)] lets
    any other exception through. *)
Fixpoint ns_loop (lines : list text) (ns_values : list spec_float)
    : result (list spec_float) :=
  match lines with
  | [] => Ok ns_values
  | l :: rest =>
      let line := strip l in
      if startswith line (txt "diff:") then
        match ns_try line with
        | Ok (Some ns_val) => ns_loop rest (ns_values ++ [ns_val])
        | Ok None => ns_loop rest ns_values
        | Raise IndexError | Raise ValueError => ns_loop rest ns_values
        | Raise e => Raise e
        end
      else ns_loop rest ns_values
  end.

Definition parse_ns_per_call_time_log (fs : filesystem) (time_log_path : text)
    : result (list spec_float) :=
  content ← open_ fs time_log_path;
  ns_loop (file_lines content) [].

(** The [try] block of [parse_percentage_time_log] on one stripped
    line. *)
Definition perc_try (line : text) : result (option spec_float) :=
  let parts := split "," line in
  part0 ← index parts 0;
  dfield ← index (split ":" part0) 1;
  let diff_str := strip dfield in
  part1 ← index parts 1;
  tfield ← index (split ":" part1) 1;
  let total_str := strip tfield in
  diff_val ← PyNum.float diff_str;
  total_val ← PyNum.float total_str;
  if Float.gtb total_val THRESHOLD then Ok None
  else if negb (Float.eqb diff_val (Float.of_Z 0)) then
    perc_val ← Float.truediv total_val diff_val;
    Ok (Some perc_val)
  else Ok None.

Fixpoint perc_loop (lines : list text) (perc_values : list spec_float)
    : result (list spec_float) :=
  match lines with
  | [] => Ok perc_values
  | l :: rest =>
      let line := strip l in
      if startswith line (txt "diff:") then
        match perc_try line with
        | Ok (Some perc_val) => perc_loop rest (perc_values ++ [perc_val])
        | Ok None => perc_loop rest perc_values
        | Raise IndexError | Raise ValueError => perc_loop rest perc_values
        | Raise e => Raise e
        end
      else perc_loop rest perc_values
  end.

Definition parse_percentage_time_log (fs : filesystem) (time_log_path : text)
    : result (list spec_float) :=
  content ← open_ fs time_log_path;
  perc_loop (file_lines content) [].

(** The [try] block of [parse_results_summary]: the key and the
    predicted ns_per_call of one row. *)
Definition summary_try (parts : list text) : result (Z * spec_float) :=
  p0 ← index parts 0;
  smp_val ← PyNum.int p0;
  p3 ← index parts 3;
  predicted_ns ← PyNum.float p3;
  Ok (smp_val, predicted_ns).

(** The loop of [parse_results_summary]; only [ValueError] is
    caught. *)
Fixpoint summary_loop (lines : list text) (smp_info : gmap Z spec_float)
    : result (gmap Z spec_float) :=
  match lines with
  | [] => Ok smp_info
  | l :: rest =>
      let line := strip l in
      if bool_decide (line = []) || startswith line (txt "#")
      then summary_loop rest smp_info
      else
        let parts := split_ws line in
        p0 ← index parts 0;
        if bool_decide (p0 = txt "SMP") then summary_loop rest smp_info
        else if (10 <=? length parts)%nat then
          match summary_try parts with
          | Ok (smp_val, predicted_ns) =>
              summary_loop rest (<[smp_val := predicted_ns]> smp_info)
          | Raise ValueError => summary_loop rest smp_info
          | Raise e => Raise e
          end
        else summary_loop rest smp_info
  end.

Definition parse_results_summary (fs : filesystem) (summary_path : text)
    : result (gmap Z spec_float) :=
  content ← open_ fs summary_path;
  summary_loop (file_lines content) ∅.

Definition base_statistic_dir : text := txt "./profile-2".

Definition summary_file (i : nat) : text :=
  path_join base_statistic_dir
            (txt "results_summary-" ++ str_of_nat i ++ txt ".txt").

Definition time_log_path (i smp : nat) : text :=
  path_join (path_join base_statistic_dir (txt "time_log-" ++ str_of_nat i))
            (txt "time_log_" ++ str_of_nat smp ++ txt ".txt").

Definition output_dir (i : nat) : text :=
  path_join base_statistic_dir (txt "plots-" ++ str_of_nat i).

Definition plot_ns_path (i smp : nat) : text :=
  path_join (output_dir i)
            (txt "time_log_" ++ str_of_nat smp ++ txt "_ns_per_call.png").

Definition plot_perc_path (i smp : nat) : text :=
  path_join (output_dir i)
            (txt "time_log_" ++ str_of_nat smp ++ txt "_percentage.png").



(** The calls of [main] that leave the script: [os.makedirs] and the
    figures drawn and saved with matplotlib.  Neither library belongs
    to the repository, so what these calls do, and whether they
    raise, is left open: each run of such calls is a function of what
    [main] hands to it, and [main] is defined for every choice of
    these functions.  What [print] writes is left out. *)
Record outside := {
  (* os.makedirs(output_dir, exist_ok=True) *)
  makedirs : text -> result unit;
  (* plt.figure ... plt.close of the ns_per_call figure of one SMP:
     the SMP, ns_values, predicted_ns, avg_ns and plot_ns_path *)
  ns_figure :
    nat -> list spec_float -> spec_float -> spec_float -> text -> result unit;
  (* plt.figure and plt.plot(perc_values) of the percentage figure *)
  perc_plot : list spec_float -> result unit;
  (* plt.axhline ... plt.close of the percentage figure: the SMP,
     avg_perc and plot_perc_path *)
  perc_figure : nat -> spec_float -> text -> result unit;
  (* the trend figure of the ns_per_call averages of a set: the set,
     smp_indices, avg_ns_list and trend_ns_path *)
  trend_ns_figure :
    nat -> list nat -> list spec_float -> text -> result unit;
  (* the trend figure of the percentage averages of a set *)
  trend_perc_figure :
    nat -> list nat -> list spec_float -> text -> result unit
}.

(** The body of [for smp in range(1, num_smp + 1)] in [main], on the
    pair [(avg_ns_list, avg_perc_list)]. *)
Definition smp_step (out : outside) (fs : filesystem)
    (smp_data : gmap Z spec_float)
    (i smp : nat) (acc : list spec_float * list spec_float)
    : result (list spec_float * list spec_float) :=
  let '(avg_ns_list, avg_perc_list) := acc in
  match smp_data !! Z.of_nat smp with
  | None =>
      Ok (avg_ns_list ++ [Float.of_Z 0], avg_perc_list ++ [Float.of_Z 0])
  | Some predicted_ns =>
      if negb (exists_ fs (time_log_path i smp)) then
        Ok (avg_ns_list ++ [Float.of_Z 0], avg_perc_list ++ [Float.of_Z 0])
      else
        ns_values ← parse_ns_per_call_time_log fs (time_log_path i smp);
        avg_ns ← match ns_values with
                 | [] => Ok (Float.of_Z 0)
                 | _ =>
                     avg_ns ← average ns_values;
                     ns_figure out smp ns_values predicted_ns avg_ns
                       (plot_ns_path i smp);;
                     Ok avg_ns
                 end;
        let avg_ns_list := avg_ns_list ++ [avg_ns] in
        perc_values ← parse_percentage_time_log fs (time_log_path i smp);
        avg_perc ← match perc_values with
                   | [] => Ok (Float.of_Z 0)
                   | _ =>
                       perc_plot out perc_values;;
                       avg_perc ← average perc_values;
                       perc_figure out smp avg_perc (plot_perc_path i smp);;
                       Ok avg_perc
                   end;
        Ok (avg_ns_list, avg_perc_list ++ [avg_perc])
  end.

Fixpoint smp_loop (out : outside) (fs : filesystem)
    (smp_data : gmap Z spec_float)
    (i : nat) (smps : list nat) (acc : list spec_float * list spec_float)
    : result (list spec_float * list spec_float) :=
  match smps with
  | [] => Ok acc
  | smp :: rest =>
      acc' ← smp_step out fs smp_data i smp acc;
      smp_loop out fs smp_data i rest acc'
  end.

(** Lines 127 to 187 of one round of
    [for i in range(1, num_summaries + 1)] in [main]: the table is
    parsed and the loop over the SMP values leaves the two trend lists
    of summary set [i]. *)
Definition main_set (out : outside) (fs : filesystem) (num_smp i : nat)
    : result (list spec_float * list spec_float) :=
  smp_data ← parse_results_summary fs (summary_file i);
  smp_loop out fs smp_data i (seq 1 num_smp) ([], []).

End DrawScaled.

(** ** [draw_scaled_merge.py] *)
Module DrawScaledMerge.
Import Py.

Definition BASE_DIR : text := txt "./profile-2".

(** [1e8] *)
Definition THRESHOLD : spec_float := Float.of_decimal false 1 8.

(** A value of the dictionary [parse_summary_file] returns. *)
Record summary_row := {
  row_real_boot_time : spec_float;
  row_times_called : spec_float;
  row_predicted_ns_per_call : spec_float;
  row_predict_sec : spec_float;
  row_scale_factor : spec_float;
  row_total_clocksource_ns : spec_float;
  row_percentage : spec_float
}.

Definition summary_path (env : nat) : text :=
  path_join BASE_DIR (txt "results_summary-" ++ str_of_nat env ++ txt ".txt").

(** The [try] block of [parse_summary_file]. *)
Definition summary_try (parts : list text) : result (Z * summary_row) :=
  p0 ← index parts 0; smp ← PyNum.int p0;
  p1 ← index parts 1; real_boot_time ← PyNum.float p1;
  p2 ← index parts 2; times_called ← PyNum.float p2;
  p3 ← index parts 3; predicted_ns_per_call ← PyNum.float p3;
  p4 ← index parts 4; predict_sec ← PyNum.float p4;
  p5 ← index parts 5; scale_factor ← PyNum.float p5;
  p6 ← index parts 6; total_clocksource_ns ← PyNum.float p6;
  p7 ← index parts 7; percentage_val ← PyNum.float p7;
  Ok (smp, {| row_real_boot_time := real_boot_time;
              row_times_called := times_called;
              row_predicted_ns_per_call := predicted_ns_per_call;
              row_predict_sec := predict_sec;
              row_scale_factor := scale_factor;
              row_total_clocksource_ns := total_clocksource_ns;
              row_percentage := percentage_val |}).

(** The loop of [parse_summary_file]; [except Exception] catches
    whatever the [try] block raises. *)
Fixpoint summary_loop (lines : list text) (data : gmap Z summary_row)
    : result (gmap Z summary_row) :=
  match lines with
  | [] => Ok data
  | l :: rest =>
      let line := strip l in
      if bool_decide (line = []) || startswith line (txt "#")
      then summary_loop rest data
      else
        let parts := split_ws line in
        p0 ← index parts 0;
        if bool_decide (p0 = txt "SMP") then summary_loop rest data
        else if (10 <=? length parts)%nat then
          match summary_try parts with
          | Ok (smp, row) => summary_loop rest (<[smp := row]> data)
          | Raise _ => summary_loop rest data
          end
        else summary_loop rest data
  end.

Definition parse_summary_file (fs : filesystem) (env : nat)
    : result (gmap Z summary_row) :=
  content ← open_ fs (summary_path env);
  summary_loop (file_lines content) ∅.

(** The two time-log parsers: the code of [draw_scaled.py] with the
    threshold read from the module constant. *)
Definition ns_try (line : text) : result (option spec_float) :=
  let parts := split "," line in
  part1 ← index parts 1;
  field ← index (split ":" part1) 1;
  let total_str := strip field in
  total_val ← PyNum.float total_str;
  if Float.gtb total_val THRESHOLD then Ok None
  else
    half ← Float.truediv total_val (Float.of_Z 2);
    ns_val ← Float.truediv half (Float.of_Z 1000000);
    Ok (Some ns_val).

Fixpoint ns_loop (lines : list text) (ns_values : list spec_float)
    : result (list spec_float) :=
  match lines with
  | [] => Ok ns_values
  | l :: rest =>
      let line := strip l in
      if startswith line (txt "diff:") then
        match ns_try line with
        | Ok (Some ns_val) => ns_loop rest (ns_values ++ [ns_val])
        | Ok None => ns_loop rest ns_values
        | Raise IndexError | Raise ValueError => ns_loop rest ns_values
        | Raise e => Raise e
        end
      else ns_loop rest ns_values
  end.

Definition parse_ns_per_call_time_log (fs : filesystem) (time_log_path : text)
    : result (list spec_float) :=
  content ← open_ fs time_log_path;
  ns_loop (file_lines content) [].

Definition perc_try (line : text) : result (option spec_float) :=
  let parts := split "," line in
  part0 ← index parts 0;
  dfield ← index (split ":" part0) 1;
  let diff_str := strip dfield in
  part1 ← index parts 1;
  tfield ← index (split ":" part1) 1;
  let total_str := strip tfield in
  diff_val ← PyNum.float diff_str;
  total_val ← PyNum.float total_str;
  if Float.gtb total_val THRESHOLD then Ok None
  else if negb (Float.eqb diff_val (Float.of_Z 0)) then
    perc_val ← Float.truediv total_val diff_val;
    Ok (Some perc_val)
  else Ok None.

Fixpoint perc_loop (lines : list text) (perc_values : list spec_float)
    : result (list spec_float) :=
  match lines with
  | [] => Ok perc_values
  | l :: rest =>
      let line := strip l in
      if startswith line (txt "diff:") then
        match perc_try line with
        | Ok (Some perc_val) => perc_loop rest (perc_values ++ [perc_val])
        | Ok None => perc_loop rest perc_values
        | Raise IndexError | Raise ValueError => perc_loop rest perc_values
        | Raise e => Raise e
        end
      else perc_loop rest perc_values
  end.

Definition parse_percentage_time_log (fs : filesystem) (time_log_path : text)
    : result (list spec_float) :=
  content ← open_ fs time_log_path;
  perc_loop (file_lines content) [].

Definition time_log_path (env smp : nat) : text :=
  path_join (path_join BASE_DIR (txt "time_log-" ++ str_of_nat env))
            (txt "time_log_" ++ str_of_nat smp ++ txt ".txt").

(** The ten module-level dictionaries of the data collection, each
    from an environment to a list with one element per SMP. *)
Inductive metric :=
| diff_boot_time
| predict_boot_time
| predict_ns_call
| real_boot_time
| scale_factor
| times_called_cs
| total_clock_ns
| avg_percentage
| avg_real_ns_call
| diff_ns_call.

#[global] Instance metric_eq_dec : EqDecision metric.
Proof. solve_decision. Defined.

Definition matrices := metric -> gmap nat (list spec_float).

Definition no_matrices : matrices := fun _ => ∅.

(** [name[env] = []] *)
Definition init (name : metric) (env : nat) (ms : matrices) : matrices :=
  fun n => if decide (n = name) then <[env := []]> (ms n) else ms n.

(** [name[env].append(x)] *)
Definition append (name : metric) (env : nat) (x : spec_float)
    (ms : matrices) : matrices :=
  fun n => if decide (n = name) then alter (fun l => l ++ [x]) env (ms n)
           else ms n.

Definition zero : spec_float := Float.of_Z 0.

(** The body of [for smp in range(1, NUM_SMP + 1)]. *)
Definition smp_step (fs : filesystem) (summary : gmap Z summary_row)
    (env smp : nat) (ms : matrices) : result matrices :=
  let ms :=
    match summary !! Z.of_nat smp with
    | Some row =>
        let rbt := row_real_boot_time row in
        let tc := row_times_called row in
        let pred_ns := row_predicted_ns_per_call row in
        let pred_sec := row_predict_sec row in
        let sf := row_scale_factor row in
        let total_cs := row_total_clocksource_ns row in
        let diff_bt := Float.sub pred_sec rbt in
        append total_clock_ns env total_cs
          (append times_called_cs env tc
            (append scale_factor env sf
              (append real_boot_time env rbt
                (append predict_ns_call env pred_ns
                  (append predict_boot_time env pred_sec
                    (append diff_boot_time env diff_bt ms))))))
    | None =>
        append total_clock_ns env zero
          (append times_called_cs env zero
            (append scale_factor env zero
              (append real_boot_time env zero
                (append predict_ns_call env zero
                  (append predict_boot_time env zero
                    (append diff_boot_time env zero ms))))))
    end in
  '(perc_vals, ns_vals) ←
    (if exists_ fs (time_log_path env smp) then
       perc_vals ← parse_percentage_time_log fs (time_log_path env smp);
       ns_vals ← parse_ns_per_call_time_log fs (time_log_path env smp);
       Ok (perc_vals, ns_vals)
     else Ok ([], []));
  avg_perc ← match perc_vals with
             | [] => Ok zero
             | _ => DrawScaled.average perc_vals
             end;
  let ms := append avg_percentage env avg_perc ms in
  avg_ns ← match ns_vals with
           | [] => Ok zero
           | _ => DrawScaled.average ns_vals
           end;
  let ms := append avg_real_ns_call env avg_ns ms in
  let pred_val :=
    match default [] (ms predict_ns_call !! env) with
    | [] => zero
    | l => List.last l zero
    end in
  Ok (append diff_ns_call env (Float.sub avg_ns pred_val) ms).

Fixpoint smp_loop (fs : filesystem) (summary : gmap Z summary_row)
    (env : nat) (smps : list nat) (ms : matrices) : result matrices :=
  match smps with
  | [] => Ok ms
  | smp :: rest =>
      ms' ← smp_step fs summary env smp ms;
      smp_loop fs summary env rest ms'
  end.

(** The body of [for env in range(1, NUM_ENV + 1)]. *)
Definition env_step (fs : filesystem) (NUM_SMP env : nat) (ms : matrices)
    : result matrices :=
  summary ← parse_summary_file fs env;
  let ms :=
    init diff_ns_call env
      (init avg_real_ns_call env
        (init avg_percentage env
          (init total_clock_ns env
            (init times_called_cs env
              (init scale_factor env
                (init real_boot_time env
                  (init predict_ns_call env
                    (init predict_boot_time env
                      (init diff_boot_time env ms))))))))) in
  smp_loop fs summary env (seq 1 NUM_SMP) ms.

Fixpoint env_loop (fs : filesystem) (NUM_SMP : nat) (envs : list nat)
    (ms : matrices) : result matrices :=
  match envs with
  | [] => Ok ms
  | env :: rest =>
      ms' ← env_step fs NUM_SMP env ms;
      env_loop fs NUM_SMP rest ms'
  end.

(** The data collection of the script, for [NUM_ENV] environments and
    [NUM_SMP] SMP values. *)
Definition collect (fs : filesystem) (NUM_ENV NUM_SMP : nat) : result matrices :=
  env_loop fs NUM_SMP (seq 1 NUM_ENV) no_matrices.

End DrawScaledMerge.

(** * Notions used to state the properties *)

(** ** Lines of a time log *)
Module TimeLog.
Import Py.

(** The [i]-th comma-separated part of a stripped line, cut at its
    first colon: [parts[i].split(':')[1].strip()]. *)
Definition field (i : nat) (line : text) : option text :=
  part ← split "," line !! i;
  f ← split ":" part !! 1%nat;
  Some (strip f).

Definition diff_field (line : text) : option text := field 0 line.
Definition total_field (line : text) : option text := field 1 line.

(** The constants [2] and [1_000_000] as floats. *)
Definition two : spec_float := Float.of_Z 2.
Definition million : spec_float := Float.of_Z 1000000.

(** A line of the file that the parsers look at. *)
Definition is_diff_line (l : text) : bool :=
  startswith (strip l) (txt "diff:").

(** What a line of the file adds to [ns_values], if anything. *)
Definition ns_value (l : text) : option spec_float :=
  if is_diff_line l then
    match DrawScaled.ns_try (strip l) with
    | Ok (Some v) => Some v
    | _ => None
    end
  else None.

(** What a line of the file adds to [perc_values], if anything. *)
Definition perc_value (l : text) : option spec_float :=
  if is_diff_line l then
    match DrawScaled.perc_try (strip l) with
    | Ok (Some v) => Some v
    | _ => None
    end
  else None.

(** The average the scripts report for a list of values: [0.0] for
    the empty list. *)
Definition mean (values : list spec_float) : spec_float :=
  match values with
  | [] => Float.of_Z 0
  | _ => Float.div (DrawScaled.sum values)
                   (Float.of_Z (Z.of_nat (length values)))
  end.

End TimeLog.

(** ** Rows of a summary table *)
Module Summary.
Import Py.

(** The conditions under which a table line is taken, in the words
    of the specification; [value_fields] are the columns converted
    with [float]. *)
Definition included (value_fields : list nat) (l : text) : Prop :=
  let line := strip l in
  let parts := split_ws line in
  line ≠ [] ∧
  startswith line (txt "#") = false ∧
  parts !! 0%nat ≠ Some (txt "SMP") ∧
  (10 ≤ length parts)%nat ∧
  (∃ smp, PyNum.int <$> parts !! 0%nat = Some (Ok smp)) ∧
  (∀ i, i ∈ value_fields → ∃ v, PyNum.float <$> parts !! i = Some (Ok v)).

(** The entry a line of the file puts into the dictionary of
    [draw_scaled_merge.parse_summary_file], if any. *)
Definition row_of_line (l : text) : option (Z * DrawScaledMerge.summary_row) :=
  let line := strip l in
  if bool_decide (line = []) || startswith line (txt "#") then None
  else
    let parts := split_ws line in
    if bool_decide (parts !! 0%nat = Some (txt "SMP")) then None
    else if (10 <=? length parts)%nat then
      match DrawScaledMerge.summary_try parts with
      | Ok kv => Some kv
      | Raise _ => None
      end
    else None.

(** The same for [draw_scaled.parse_results_summary]. *)
Definition pair_of_line (l : text) : option (Z * spec_float) :=
  let line := strip l in
  if bool_decide (line = []) || startswith line (txt "#") then None
  else
    let parts := split_ws line in
    if bool_decide (parts !! 0%nat = Some (txt "SMP")) then None
    else if (10 <=? length parts)%nat then
      match DrawScaled.summary_try parts with
      | Ok kv => Some kv
      | Raise _ => None
      end
    else None.

(** The dictionary after the entries [kvs] were stored in order. *)
Definition store {V} (kvs : list (Z * V)) (d : gmap Z V) : gmap Z V :=
  fold_left (fun d kv => <[kv.1 := kv.2]> d) kvs d.

End Summary.

(** ** Cells of the matrices of [draw_scaled_merge.py] *)
Module Cell.
Import Py DrawScaledMerge.

(** The summary dictionary of an environment whose table exists. *)
Definition summary_of (content : text) : gmap Z summary_row :=
  Summary.store (omap Summary.row_of_line (file_lines content)) ∅.

(** The dictionary of an environment; empty without a table. *)
Definition table (fs : filesystem) (env : nat) : gmap Z summary_row :=
  match fs (summary_path env) with
  | Some content => summary_of content
  | None => ∅
  end.

(** The two value lists of a cell: empty when the log is missing. *)
Definition ns_vals (fs : filesystem) (env smp : nat) : list spec_float :=
  match fs (time_log_path env smp) with
  | Some content => omap TimeLog.ns_value (file_lines content)
  | None => []
  end.

Definition perc_vals (fs : filesystem) (env smp : nat) : list spec_float :=
  match fs (time_log_path env smp) with
  | Some content => omap TimeLog.perc_value (file_lines content)
  | None => []
  end.

(** A column of the summary, [0.0] where the row is missing. *)
Definition column (f : summary_row -> spec_float)
    (summary : gmap Z summary_row) (smp : nat) : spec_float :=
  match summary !! Z.of_nat smp with
  | Some row => f row
  | None => zero
  end.

(** The value of metric [name] in the cell [(env, smp)]. *)
Definition value (fs : filesystem) (summary : gmap Z summary_row)
    (env : nat) (name : metric) (smp : nat) : spec_float :=
  match name with
  | diff_boot_time =>
      column (fun r => Float.sub (row_predict_sec r) (row_real_boot_time r))
             summary smp
  | predict_boot_time => column row_predict_sec summary smp
  | predict_ns_call => column row_predicted_ns_per_call summary smp
  | real_boot_time => column row_real_boot_time summary smp
  | scale_factor => column row_scale_factor summary smp
  | times_called_cs => column row_times_called summary smp
  | total_clock_ns => column row_total_clocksource_ns summary smp
  | avg_percentage => TimeLog.mean (perc_vals fs env smp)
  | avg_real_ns_call => TimeLog.mean (ns_vals fs env smp)
  | diff_ns_call =>
      Float.sub (TimeLog.mean (ns_vals fs env smp))
                (column row_predicted_ns_per_call summary smp)
  end.

(** The row of metric [name] for environment [env]: one value per
    SMP from 1 to [NUM_SMP]. *)
Definition row (fs : filesystem) (NUM_SMP env : nat) (name : metric)
    : list spec_float :=
  value fs (table fs env) env name <$> seq 1 NUM_SMP.

(** The metrics read from the summary table. *)
Definition from_summary (name : metric) : bool :=
  match name with
  | avg_percentage | avg_real_ns_call | diff_ns_call => false
  | _ => true
  end.

End Cell.

(** ** Escape sequences *)
Module Ansi.
Import Py Re DrawIncrease.

(** [s] without its longest prefix of characters in [p]. *)
Fixpoint skip (p : ascii -> bool) (s : text) : text :=
  match s with
  | c :: s' => if p c then skip p s' else s
  | [] => []
  end.

(** What follows a colour sequence at the head of [s], if there is
    one: ESC, an opening bracket, digits and semicolons, [m]. *)
Definition after_escape (s : text) : option text :=
  match s with
  | c0 :: c1 :: s2 =>
      if Ascii.eqb c0 ESC && Ascii.eqb c1 "[" then
        match skip digit_or_semi s2 with
        | c :: rest => if Ascii.eqb c "m" then Some rest else None
        | [] => None
        end
      else None
  | _ => None
  end.

(** Every ESC of the text begins a complete colour sequence. *)
Fixpoint escapes_complete (s : text) : bool :=
  match s with
  | [] => true
  | c :: s' =>
      (negb (Ascii.eqb c ESC) || bool_decide (is_Some (match_at ansi_escape s)))
      && escapes_complete s'
  end.

End Ansi.

(** ** Cells of [draw_increase.py] *)
Module Increase.
Import Py DrawIncrease.

(** The entry of a cell: the defaults when the log is missing. *)
Definition entry_of (fs : filesystem) (smp env : nat) : entry :=
  match fs (logfile env smp) with
  | Some raw =>
      match parse_log raw with
      | Ok e => e
      | Raise _ => default_entry
      end
  | None => default_entry
  end.

(** The row [data[smp]] after the environments [envs]. *)
Definition row_after (fs : filesystem) (smp : nat) (envs : list nat)
    (row : gmap nat entry) : gmap nat entry :=
  fold_left (fun r env => <[env := entry_of fs smp env]> r) envs row.

(** The three tables of [draw_increase_merge.py], with the field of
    the entry each one holds. *)
Inductive col : Type -> Type :=
| Boot : col spec_float
| Called : col Z
| Offset : col Z.

Definition get {A} (c : col A) (t : DrawIncreaseMerge.tables)
    : gmap nat (list A) :=
  match c with
  | Boot => DrawIncreaseMerge.boot_data t
  | Called => DrawIncreaseMerge.called_data t
  | Offset => DrawIncreaseMerge.offset_data t
  end.

Definition val {A} (c : col A) (e : entry) : A :=
  match c with
  | Boot => boot e
  | Called => called e
  | Offset => offset e
  end.

(** A row of a table once the SMP [smp] was handled. *)
Definition upd {A} (c : col A) (fs : filesystem) (env smp : nat)
    (row : list A) : list A :=
  if exists_ fs (logfile env smp)
  then <[(smp - 1)%nat := val c (entry_of fs smp env)]> row
  else row.

(** A row once the SMP values [smps] were handled, in order. *)
Definition fill {A} (c : col A) (fs : filesystem) (env : nat)
    (smps : list nat) (row : list A) : list A :=
  fold_left (fun r smp => upd c fs env smp r) smps row.

(** The row of environment [env] in a table: one value per SMP. *)
Definition merge_row {A} (c : col A) (fs : filesystem) (NUM_SMP env : nat)
    : list A :=
  (fun smp => val c (entry_of fs smp env)) <$> seq 1 NUM_SMP.

(** The texts that the patterns capture in the text read, once the
    escape codes are removed: the boot time and the call count of the
    first boot line, and the offset of the first offset. *)
Definition boot_field (content : text) : option text :=
  (fun boot_match => Re.group boot_match 1)
    <$> Re.search boot_re (remove_ansi_codes content).

Definition called_field (content : text) : option text :=
  (fun boot_match => Re.group boot_match 2)
    <$> Re.search boot_re (remove_ansi_codes content).

Definition offset_field (content : text) : option text :=
  (fun offset_match => Re.group offset_match 1)
    <$> Re.search offset_re (remove_ansi_codes content).

(** The number of decimal digits in a text. *)
Definition digit_count (s : text) : nat := length (List.filter isdigit s).

(** The numbers of a log convert: the boot time captured is a float,
    and the call count and the offset captured have no more digits
    than [int] takes. *)
Definition fields_convert (content : text) : Prop :=
  (forall field, boot_field content = Some field ->
                 exists b, PyNum.float field = Ok b) /\
  (forall field, called_field content = Some field ->
                 (digit_count field <= PyNum.int_max_str_digits)%nat) /\
  (forall field, offset_field content = Some field ->
                 (digit_count field <= PyNum.int_max_str_digits)%nat).

(** The numbers of every log of the grid that exists convert. *)
Definition numbers_convert (fs : filesystem) (NUM_ENV NUM_SMP : nat)
    : Prop :=
  forall env smp raw,
    (1 <= env <= NUM_ENV)%nat -> (1 <= smp <= NUM_SMP)%nat ->
    fs (logfile env smp) = Some raw ->
    fields_convert (file_read raw).

(** No log that exists makes the parsing raise. *)
Definition parsable (fs : filesystem) (NUM_ENV NUM_SMP : nat) : Prop :=
  forall env smp raw,
    (1 <= env <= NUM_ENV)%nat -> (1 <= smp <= NUM_SMP)%nat ->
    fs (logfile env smp) = Some raw -> exists e, parse_log raw = Ok e.

End Increase.

(** ** Reading the result of a collection *)
Module Grid.
Import DrawScaledMerge.

(** The entry of matrix [name] for environment [env] and SMP [smp],
    at index [smp - 1] of the row, when the collection returned. *)
Definition cell (r : result matrices) (name : metric) (env smp : nat)
    : option spec_float :=
  match r with
  | Ok ms => ms name !! env ≫= (fun row => row !! (smp - 1)%nat)
  | Raise _ => None
  end.

End Grid.

(** ** Concrete inputs *)
Module Examples.
Import Py.

(** Floating-point literals. *)
Definition f_0_00003 : spec_float := Float.of_decimal false 3 (-5).
Definition f_50_0 : spec_float := Float.of_decimal false 500 (-1).
Definition f_0_6 : spec_float := Float.of_decimal false 6 (-1).

(** The end-to-end scenario: the summary row of SMP 4 and an event log
    of two lines, the second above the threshold. *)
Definition summary_text : text :=
  txt "4  0.100  1000  50.0  0.150  1.5  50000  0.2  0.00003  -49.99997"
  ++ [LF].

Definition line_60 : text := txt "diff: 100, total: 60" ++ [LF].
Definition line_1e9 : text := txt "diff: 100, total: 1e9" ++ [LF].
Definition event_log : text := line_60 ++ line_1e9.

Definition scenario_fs : filesystem := fun path =>
  if decide (path = DrawScaledMerge.summary_path 1) then Some summary_text
  else if decide (path = DrawScaledMerge.time_log_path 1 4) then Some event_log
  else None.

(** The same with an event log for SMP 3, which has no row. *)
Definition rowless_fs : filesystem := fun path =>
  if decide (path = DrawScaledMerge.time_log_path 1 3) then Some event_log
  else scenario_fs path.

(** A summary table without a row for SMP 1, next to a log for SMP 1
    with one record. *)
Definition no_row_fs : filesystem := fun path =>
  if decide (path = DrawScaled.summary_file 1) then Some summary_text
  else if decide (path = DrawScaled.time_log_path 1 1) then Some line_60
  else None.

(** An event line with a colour sequence in front. *)
Definition coloured_line : text :=
  [DrawIncrease.ESC] ++ txt "[0mdiff: 100, total: 60" ++ [LF].

(** A colour sequence inside the opening of another. *)
Definition nested_escape : text :=
  [DrawIncrease.ESC] ++ txt "[" ++ [DrawIncrease.ESC] ++ txt "[0m0m".

(** A boot line whose time matches [[0-9.]+] and is not a float. *)
Definition bad_boot_log : text :=
  txt "Boot time: 3..5 seconds, called 100 times" ++ [LF].

Definition bad_boot_fs : filesystem := fun path =>
  if decide (path = DrawIncrease.logfile 1 1) then Some bad_boot_log
  else None.

(** A log as the emulator prints it, with colour codes. *)
Definition good_log : text :=
  [DrawIncrease.ESC] ++ txt "[1;32m[SEMU LOG]: Boot time: 3.5 seconds, called 100 times"
  ++ [DrawIncrease.ESC] ++ txt "[0m" ++ [LF]
  ++ txt "[SEMU LOG]: offset: -42" ++ [LF].

Definition good_log_fs : filesystem := fun path =>
  if decide (path = DrawIncrease.logfile 1 1) then Some good_log
  else if decide (path = DrawScaledMerge.summary_path 1) then Some summary_text
  else None.


(** A table with two rows for SMP 4. *)
Definition first_row : text :=
  txt "4  0.100  1000  50.0  0.150  1.5  50000  0.2  0.00003  -49.99997"
  ++ [LF].
Definition second_row : text :=
  txt "4  0.200  2000  0.6  0.250  2.5  60000  0.3  0.00004  -0.59996"
  ++ [LF].
Definition duplicate_summary : text := first_row ++ second_row.

Definition duplicate_fs : filesystem := fun path =>
  if decide (path = DrawScaledMerge.summary_path 1) then Some duplicate_summary
  else None.

(** Two event lines, the first with a zero diff. *)
Definition zero_diff_line : text := txt "diff: 0, total: 60" ++ [LF].
Definition line_80 : text := txt "diff: 100, total: 80" ++ [LF].
Definition mixed_log : text := zero_diff_line ++ line_80.

End Examples.

(** * The rest of the scripts *)

(** ** [main] of [draw_scaled.py], over all summary sets *)
Module DrawScaledMain.
Import DrawScaled.



(** None of the calls that leave the script raises. *)
Definition quiet (out : outside) : Prop :=
  (forall path, makedirs out path = Ok tt) /\
  (forall smp ns_values predicted_ns avg_ns path,
      ns_figure out smp ns_values predicted_ns avg_ns path = Ok tt) /\
  (forall perc_values, perc_plot out perc_values = Ok tt) /\
  (forall smp avg_perc path, perc_figure out smp avg_perc path = Ok tt) /\
  (forall i smp_indices avg_ns_list path,
      trend_ns_figure out i smp_indices avg_ns_list path = Ok tt) /\
  (forall i smp_indices avg_perc_list path,
      trend_perc_figure out i smp_indices avg_perc_list path = Ok tt).

(** Calls that never raise, and calls of which only saving the
    ns_per_call figure raises. *)
Definition silent : outside :=
  {| makedirs := fun _ => Ok tt;
     ns_figure := fun _ _ _ _ _ => Ok tt;
     perc_plot := fun _ => Ok tt;
     perc_figure := fun _ _ _ => Ok tt;
     trend_ns_figure := fun _ _ _ _ => Ok tt;
     trend_perc_figure := fun _ _ _ _ => Ok tt |}.

Definition failing_savefig : outside :=
  {| makedirs := fun _ => Ok tt;
     ns_figure := fun _ _ _ _ _ => Raise ValueError;
     perc_plot := fun _ => Ok tt;
     perc_figure := fun _ _ _ => Ok tt;
     trend_ns_figure := fun _ _ _ _ => Ok tt;
     trend_perc_figure := fun _ _ _ _ => Ok tt |}.

End DrawScaledMain.

(** ** Cells of the trend lists of [draw_scaled.py] *)
Module ScaledCell.
Import Py DrawScaled.

(** The dictionary of a summary set; empty without a table. *)
Definition table (fs : filesystem) (i : nat) : gmap Z spec_float :=
  match fs (summary_file i) with
  | Some content => Summary.store (omap Summary.pair_of_line (file_lines content)) ∅
  | None => ∅
  end.

Definition ns_vals (fs : filesystem) (i smp : nat) : list spec_float :=
  match fs (time_log_path i smp) with
  | Some content => omap TimeLog.ns_value (file_lines content)
  | None => []
  end.

Definition perc_vals (fs : filesystem) (i smp : nat) : list spec_float :=
  match fs (time_log_path i smp) with
  | Some content => omap TimeLog.perc_value (file_lines content)
  | None => []
  end.

(** The two averages of a cell: [0.0] without a row for the SMP. *)
Definition avg_ns (fs : filesystem) (i smp : nat) : spec_float :=
  match table fs i !! Z.of_nat smp with
  | Some _ => TimeLog.mean (ns_vals fs i smp)
  | None => Float.of_Z 0
  end.

Definition avg_perc (fs : filesystem) (i smp : nat) : spec_float :=
  match table fs i !! Z.of_nat smp with
  | Some _ => TimeLog.mean (perc_vals fs i smp)
  | None => Float.of_Z 0
  end.

End ScaledCell.

(** ** Changing the file system *)
Module Files.

(** The file system without the file at [path]. *)
Definition without (path : text) (fs : filesystem) : filesystem :=
  fun p => if decide (p = path) then None else fs p.

End Files.

(** ** Well-formed lines of the boot logs *)
Module Lines.
Import Py.

(** A run of one character or more, all in [p]. *)
Definition run (p : ascii -> bool) (s : text) : Prop :=
  s <> [] /\ Forall (fun c => p c = true) s.

(** A boot line: the boot time [b] and the call count [n], with the
    white space [w0] to [w4] between the words, followed by [post]. *)
Definition boot_line (w0 b w1 w2 w3 n w4 post : text) : text :=
  txt "Boot time:" ++ w0 ++ b ++ w1 ++ txt "seconds," ++ w2 ++ txt "called"
    ++ w3 ++ n ++ w4 ++ txt "times" ++ post.

(** The end of an offset line: the offset, its sign and its digits,
    after the white space [w0], followed by [post]. *)
Definition offset_line (w0 sign n post : text) : text :=
  txt "offset:" ++ w0 ++ sign ++ n ++ post.

(** No match of [pt] in [pre ++ s] starts inside [pre]. *)
Fixpoint starts_nowhere (pt : Re.pattern) (pre s : text) : bool :=
  match pre with
  | [] => true
  | _ :: pre' =>
      match Re.match_at pt (pre ++ s) with
      | Some _ => false
      | None => starts_nowhere pt pre' s
      end
  end.

End Lines.

(** * Facts

    ** binary64 *)
Module FloatFacts.
Import Float.

Lemma iter_pos_nat {A} (f : A -> A) (n : positive) (x : A) :
  SpecFloat.iter_pos f n x = Nat.iter (Pos.to_nat n) f x.
Proof.
  revert x. induction n as [n IH | n IH |]; intros x; cbn [SpecFloat.iter_pos].
  - rewrite !IH, Pos2Nat.inj_xI, <- Nat.iter_succ_r, <- Nat.iter_add.
    f_equal. lia.
  - rewrite !IH, Pos2Nat.inj_xO, <- Nat.iter_add. f_equal. lia.
  - reflexivity.
Qed.

Lemma shr_1_m (r : shr_record) : shr_m (shr_1 r) = Z.quot2 (shr_m r).
Proof. destruct r as [[|[p|p|]|[p|p|]] ? ?]; reflexivity. Qed.

Lemma quot2_pow (k m : Z) : 0 <= k -> 2 ^ (k + 1) <= m -> 2 ^ k <= Z.quot2 m.
Proof.
  intros Hk Hm. rewrite Z.pow_add_r in Hm by lia.
  change (2 ^ 1) with 2 in Hm.
  assert (0 < 2 ^ k) by (apply Z.pow_pos_nonneg; lia).
  rewrite Zquot2_quot, Z.quot_div_nonneg by lia.
  apply Z.div_le_lower_bound; lia.
Qed.

Lemma shr_iter_pos (k : nat) (r : shr_record) :
  2 ^ Z.of_nat k <= shr_m r -> 1 <= shr_m (Nat.iter k shr_1 r).
Proof.
  revert r. induction k as [|k IH]; intros r Hr.
  - simpl in *. lia.
  - rewrite Nat.iter_succ_r. apply IH. rewrite shr_1_m.
    apply quot2_pow; [lia|]. rewrite Nat2Z.inj_succ in Hr.
    replace (Z.of_nat k + 1) with (Z.succ (Z.of_nat k)) by lia. exact Hr.
Qed.

Lemma digits2_size (p : positive) : digits2_pos p = Pos.size p.
Proof. induction p; simpl; congruence. Qed.

Lemma digits2_lower (p : positive) : 2 ^ (Z.pos (digits2_pos p) - 1) <= Z.pos p.
Proof.
  rewrite digits2_size.
  pose proof (Pos.size_le p) as H.
  apply Pos2Z.pos_le_pos in H. rewrite Pos2Z.inj_pow in H.
  replace (Z.pos (Pos.size p)) with ((Z.pos (Pos.size p) - 1) + 1) in H by lia.
  rewrite Z.pow_add_r in H by lia. change (2 ^ 1) with 2 in H.
  lia.
Qed.

Lemma shr_fexp_pos (m e : Z) (l : location) :
  0 < m -> -1074 <= e ->
  0 < shr_m (fst (shr_fexp prec emax m e l)) /\
  -1074 <= snd (shr_fexp prec emax m e l).
Proof.
  intros Hm He. unfold shr_fexp, shr.
  destruct m as [|p|p]; try lia.
  assert (Hrec : shr_m (shr_record_of_loc (Z.pos p) l) = Z.pos p)
    by (destruct l as [|[]]; reflexivity).
  destruct (fexp prec emax (Zdigits2 (Z.pos p) + e) - e) as [|n|n] eqn:Hn;
    simpl fst; simpl snd; try (rewrite Hrec; lia).
  split; [|lia].
  rewrite iter_pos_nat.
  enough (1 <= shr_m (Nat.iter (Pos.to_nat n) shr_1 (shr_record_of_loc (Z.pos p) l))) by lia.
  apply shr_iter_pos. rewrite Hrec, positive_nat_Z.
  etransitivity; [|apply digits2_lower].
  apply Z.pow_le_mono_r; [lia|].
  unfold fexp, SpecFloat.emin, prec, emax in Hn. simpl Zdigits2 in Hn. lia.
Qed.

Lemma binary_round_aux_nonzero (s : bool) (m e : Z) (l : location) :
  0 < m -> -1074 <= e -> is_zero (binary_round_aux prec emax s m e l) = false.
Proof.
  intros Hm He. unfold binary_round_aux.
  pose proof (shr_fexp_pos m e l Hm He) as [H1 H2].
  destruct (shr_fexp prec emax m e l) as [mrs' e']. simpl in H1, H2.
  set (m1 := round_nearest_even _ _).
  assert (Hm1 : 0 < m1).
  { unfold m1, round_nearest_even.
    destruct (loc_of_shr_record mrs') as [|[]]; try lia.
    destruct (Z.even (shr_m mrs')); lia. }
  pose proof (shr_fexp_pos m1 e' loc_Exact Hm1 H2) as [H3 _].
  destruct (shr_fexp prec emax m1 e' loc_Exact) as [mrs'' e'']. simpl in H3.
  destruct (shr_m mrs''); try lia.
  destruct (e'' <=? emax - prec); reflexivity.
Qed.

Lemma of_Z_pos_nonzero (p : positive) : is_zero (of_Z (Z.pos p)) = false.
Proof.
  unfold of_Z, binary_normalize, binary_round.
  destruct (shl_align p 0 _) as [mz ez] eqn:Hal.
  apply binary_round_aux_nonzero; [lia|].
  unfold shl_align in Hal.
  destruct (fexp prec emax (Z.pos (digits2_pos p) + 0) - 0) eqn:Hf;
    inversion Hal; subst; try lia.
  unfold fexp, SpecFloat.emin, prec, emax. lia.
Qed.

Lemma eqb_zero (d : spec_float) : eqb d (of_Z 0) = is_zero d.
Proof. destruct d as [| [] | | [] ? ?]; reflexivity. Qed.

Lemma SFcompare_antisym (x y : spec_float) :
  SFcompare y x = option_map CompOpp (SFcompare x y).
Proof.
  destruct x as [sx|sx| |sx mx ex], y as [sy|sy| |sy my ey];
    try destruct sx; try destruct sy; try reflexivity.
  all: simpl; rewrite (Z.compare_antisym ex ey);
    destruct (ex ?= ey); simpl; try reflexivity.
  all: rewrite ?CompOpp_involutive, Pos.compare_cont_antisym; reflexivity.
Qed.

Lemma leb_not_gtb (x y : spec_float) : leb x y = true -> gtb x y = false.
Proof.
  unfold leb, gtb, SFleb, SFltb. rewrite (SFcompare_antisym x y).
  destruct (SFcompare x y) as [[]|]; simpl; congruence.
Qed.

End FloatFacts.

(** ** Python built-ins *)
Module PyFacts.
Import Py.

#[global] Arguments Float.truediv : simpl never.
#[global] Arguments Float.div : simpl never.
#[global] Arguments Float.sub : simpl never.
#[global] Arguments Float.add : simpl never.
#[global] Arguments Float.gtb : simpl never.
#[global] Arguments Float.eqb : simpl never.
#[global] Arguments Float.of_Z : simpl never.
#[global] Arguments PyNum.float : simpl never.
#[global] Arguments PyNum.int : simpl never.
#[global] Arguments Py.strip : simpl never.
#[global] Arguments Py.split : simpl never.
#[global] Arguments Py.split_ws : simpl never.
#[global] Arguments Py.file_lines : simpl never.
#[global] Arguments txt : simpl never.
#[global] Arguments Nat.leb : simpl never.
#[global] Arguments Nat.ltb : simpl never.

Lemma index_lookup {A} (l : list A) (i : nat) (a : A) :
  l !! i = Some a -> index l i = Ok a.
Proof. unfold index. intros ->. reflexivity. Qed.

Lemma index_none {A} (l : list A) (i : nat) :
  l !! i = None -> index l i = Raise IndexError.
Proof. unfold index. intros ->. reflexivity. Qed.

Lemma float_raises (s : text) (e : exn) :
  PyNum.float s = Raise e -> e = ValueError.
Proof.
  unfold PyNum.float.
  destruct (PyNum.drop_underscores None (strip s)); [|congruence].
  destruct (PyNum.take_sign l) as [neg s2].
  destruct (PyNum.parse_decimal neg s2); [congruence|].
  destruct (PyNum.parse_inf_nan neg s2); congruence.
Qed.

Lemma int_raises (s : text) (e : exn) :
  PyNum.int s = Raise e -> e = ValueError.
Proof.
  unfold PyNum.int.
  destruct (PyNum.drop_underscores None (strip s)); [|congruence].
  destruct (PyNum.take_sign l) as [neg s2].
  destruct (PyNum.span_digits s2) as [[|d ds] [|c r]]; try congruence.
  destruct (_ <? _)%nat; congruence.
Qed.

Lemma omap_cons {A B} (f : A -> option B) (x : A) (l : list A) :
  omap f (x :: l) = option_list (f x) ++ omap f l.
Proof. simpl. destruct (f x); reflexivity. Qed.

Lemma truediv_nonzero (x y : spec_float) :
  Float.is_zero y = false -> Float.truediv x y = Ok (Float.div x y).
Proof. unfold Float.truediv. intros ->. reflexivity. Qed.

End PyFacts.

(** ** The time-log parsers *)
Module TimeLogFacts.
Import Py TimeLog PyFacts.

(** [ns_try] in terms of the total field. *)
Lemma ns_try_field (line : text) :
  DrawScaled.ns_try line =
  match total_field line with
  | None => Raise IndexError
  | Some total_str =>
      match PyNum.float total_str with
      | Raise e => Raise e
      | Ok t =>
          if Float.gtb t DrawScaled.THRESHOLD then Ok None
          else Ok (Some (Float.div (Float.div t two) million))
      end
  end.
Proof.
  unfold DrawScaled.ns_try, total_field, field, index.
  destruct (split "," line !! 1%nat) as [part1|]; [|reflexivity]. simpl.
  destruct (split ":" part1 !! 1%nat) as [f|]; [|reflexivity]. simpl.
  destruct (PyNum.float (strip f)) as [t|e]; [|reflexivity]. simpl.
  destruct (Float.gtb t DrawScaled.THRESHOLD); [reflexivity|].
  reflexivity.
Qed.

Lemma perc_try_field (line : text) :
  DrawScaled.perc_try line =
  match diff_field line, total_field line with
  | Some diff_str, Some total_str =>
      match PyNum.float diff_str with
      | Raise e => Raise e
      | Ok d =>
          match PyNum.float total_str with
          | Raise e => Raise e
          | Ok t =>
              if Float.gtb t DrawScaled.THRESHOLD then Ok None
              else if Float.is_zero d then Ok None
              else Ok (Some (Float.div t d))
          end
      end
  | _, _ => Raise IndexError
  end.
Proof.
  unfold DrawScaled.perc_try, diff_field, total_field, field, index.
  destruct (split "," line !! 0%nat) as [part0|]; simpl.
  2: reflexivity.
  destruct (split ":" part0 !! 1%nat) as [df|]; simpl.
  2: reflexivity.
  destruct (split "," line !! 1%nat) as [part1|]; [|reflexivity]. simpl.
  destruct (split ":" part1 !! 1%nat) as [tf|]; [|reflexivity]. simpl.
  destruct (PyNum.float (strip df)) as [d|e]; [|reflexivity]. simpl.
  destruct (PyNum.float (strip tf)) as [t|e]; [|reflexivity]. simpl.
  destruct (Float.gtb t DrawScaled.THRESHOLD); [reflexivity|].
  rewrite FloatFacts.eqb_zero.
  destruct (Float.is_zero d) eqn:Hd; simpl; [reflexivity|].
  rewrite truediv_nonzero by exact Hd. reflexivity.
Qed.

Lemma ns_try_raises (line : text) (e : exn) :
  DrawScaled.ns_try line = Raise e -> e = IndexError \/ e = ValueError.
Proof.
  rewrite ns_try_field.
  destruct (total_field line) as [ts|]; [|intros [= <-]; by left].
  destruct (PyNum.float ts) as [t|e'] eqn:Hf.
  - destruct (Float.gtb t DrawScaled.THRESHOLD); discriminate.
  - intros [= <-]. right. eapply float_raises, Hf.
Qed.

Lemma perc_try_raises (line : text) (e : exn) :
  DrawScaled.perc_try line = Raise e -> e = IndexError \/ e = ValueError.
Proof.
  rewrite perc_try_field.
  destruct (diff_field line) as [ds|]; [|intros [= <-]; by left].
  destruct (total_field line) as [ts|]; [|intros [= <-]; by left].
  destruct (PyNum.float ds) as [d|e'] eqn:Hd.
  2: { intros [= <-]. right. eapply float_raises, Hd. }
  destruct (PyNum.float ts) as [t|e'] eqn:Ht.
  2: { intros [= <-]. right. eapply float_raises, Ht. }
  destruct (Float.gtb t DrawScaled.THRESHOLD); [discriminate|].
  destruct (Float.is_zero d); discriminate.
Qed.

(** The loops never raise, and their result is the list of the
    values of the lines, in order. *)
Lemma ns_loop_cons (l : text) (lines : list text) (acc : list spec_float) :
  DrawScaled.ns_loop (l :: lines) acc =
  DrawScaled.ns_loop lines (acc ++ option_list (ns_value l)).
Proof.
  simpl. unfold ns_value, is_diff_line.
  destruct (startswith (strip l) (txt "diff:")); simpl;
    [|by rewrite app_nil_r].
  destruct (DrawScaled.ns_try (strip l)) as [[v|]|e] eqn:Htry; simpl;
    rewrite ?app_nil_r; try reflexivity.
  destruct (ns_try_raises _ _ Htry) as [-> | ->]; reflexivity.
Qed.

Lemma ns_loop_values (lines : list text) (acc : list spec_float) :
  DrawScaled.ns_loop lines acc = Ok (acc ++ omap ns_value lines).
Proof.
  revert acc. induction lines as [|l lines IH]; intros acc.
  - simpl. by rewrite app_nil_r.
  - rewrite ns_loop_cons, IH, <- app_assoc. simpl.
    destruct (ns_value l); reflexivity.
Qed.

Lemma perc_loop_cons (l : text) (lines : list text) (acc : list spec_float) :
  DrawScaled.perc_loop (l :: lines) acc =
  DrawScaled.perc_loop lines (acc ++ option_list (perc_value l)).
Proof.
  simpl. unfold perc_value, is_diff_line.
  destruct (startswith (strip l) (txt "diff:")); simpl;
    [|by rewrite app_nil_r].
  destruct (DrawScaled.perc_try (strip l)) as [[v|]|e] eqn:Htry; simpl;
    rewrite ?app_nil_r; try reflexivity.
  destruct (perc_try_raises _ _ Htry) as [-> | ->]; reflexivity.
Qed.

Lemma perc_loop_values (lines : list text) (acc : list spec_float) :
  DrawScaled.perc_loop lines acc = Ok (acc ++ omap perc_value lines).
Proof.
  revert acc. induction lines as [|l lines IH]; intros acc.
  - simpl. by rewrite app_nil_r.
  - rewrite perc_loop_cons, IH, <- app_assoc. simpl.
    destruct (perc_value l); reflexivity.
Qed.

(** The value of a line, from its fields. *)
Lemma ns_value_field (l : text) :
  ns_value l =
  if is_diff_line l then
    match total_field (strip l) with
    | Some total_str =>
        match PyNum.float total_str with
        | Ok t =>
            if Float.gtb t DrawScaled.THRESHOLD then None
            else Some (Float.div (Float.div t two) million)
        | Raise _ => None
        end
    | None => None
    end
  else None.
Proof.
  unfold ns_value. destruct (is_diff_line l); [|reflexivity].
  rewrite ns_try_field.
  destruct (total_field (strip l)) as [ts|]; [|reflexivity].
  destruct (PyNum.float ts) as [t|]; [|reflexivity].
  destruct (Float.gtb t DrawScaled.THRESHOLD); reflexivity.
Qed.

Lemma perc_value_field (l : text) :
  perc_value l =
  if is_diff_line l then
    match diff_field (strip l), total_field (strip l) with
    | Some diff_str, Some total_str =>
        match PyNum.float diff_str, PyNum.float total_str with
        | Ok d, Ok t =>
            if Float.gtb t DrawScaled.THRESHOLD then None
            else if Float.is_zero d then None
            else Some (Float.div t d)
        | _, _ => None
        end
    | _, _ => None
    end
  else None.
Proof.
  unfold perc_value. destruct (is_diff_line l); [|reflexivity].
  rewrite perc_try_field.
  destruct (diff_field (strip l)) as [ds|]; [|reflexivity].
  destruct (total_field (strip l)) as [ts|]; [|reflexivity].
  destruct (PyNum.float ds) as [d|]; [|reflexivity].
  destruct (PyNum.float ts) as [t|]; [|reflexivity].
  destruct (Float.gtb t DrawScaled.THRESHOLD); [reflexivity|].
  destruct (Float.is_zero d); reflexivity.
Qed.

(** The parsers of [draw_scaled_merge.py] are those of
    [draw_scaled.py]. *)
Lemma merge_ns_loop : DrawScaledMerge.ns_loop = DrawScaled.ns_loop.
Proof. reflexivity. Qed.

Lemma merge_perc_loop : DrawScaledMerge.perc_loop = DrawScaled.perc_loop.
Proof. reflexivity. Qed.

Lemma parse_ns_values (fs : filesystem) (path content : text) :
  fs path = Some content ->
  DrawScaled.parse_ns_per_call_time_log fs path
  = Ok (omap ns_value (file_lines content)).
Proof.
  intros H. unfold DrawScaled.parse_ns_per_call_time_log, open_.
  rewrite H. simpl. apply ns_loop_values.
Qed.

Lemma parse_perc_values (fs : filesystem) (path content : text) :
  fs path = Some content ->
  DrawScaled.parse_percentage_time_log fs path
  = Ok (omap perc_value (file_lines content)).
Proof.
  intros H. unfold DrawScaled.parse_percentage_time_log, open_.
  rewrite H. simpl. apply perc_loop_values.
Qed.

(** The average of a non-empty list never raises. *)
Lemma average_mean (values : list spec_float) :
  values <> [] -> DrawScaled.average values = Ok (mean values).
Proof.
  intros H. unfold DrawScaled.average, mean.
  destruct values as [|v values]; [congruence|].
  apply truediv_nonzero. simpl length.
  rewrite Nat2Z.inj_succ.
  destruct (Z.succ (Z.of_nat (length values))) eqn:E; try lia.
  apply FloatFacts.of_Z_pos_nonzero.
Qed.

End TimeLogFacts.

(** ** The summary tables *)
Module SummaryFacts.
Import Py Summary PyFacts.

Lemma lstrip_head (s : text) :
  lstrip s = [] \/ exists c r, lstrip s = c :: r /\ isspace c = false.
Proof.
  induction s as [|c s IH]; simpl; [by left|].
  destruct (isspace c) eqn:Hc; [exact IH|]. right. eauto.
Qed.

Lemma split_ws_from_nil (w s : text) :
  split_ws_from w s = [] -> w = [] /\ forall c, In c s -> isspace c = true.
Proof.
  revert w. induction s as [|c s IH]; intros w; simpl.
  - destruct w; [tauto|discriminate].
  - destruct (isspace c) eqn:Hc.
    + destruct w; [|discriminate]. intros H. apply IH in H as [_ H].
      split; [reflexivity|]. intros c' [<-|Hin]; auto.
    + intros H. apply IH in H as [H _]. discriminate.
Qed.

(** A line that is not blank has a first field. *)
Lemma first_field (l : text) :
  strip l <> [] -> exists p0, split_ws (strip l) !! 0%nat = Some p0.
Proof.
  intros Hne.
  destruct (split_ws (strip l)) as [|p0 ps] eqn:Hs; [|by exists p0].
  exfalso. apply split_ws_from_nil in Hs as [_ Hs].
  unfold strip, rstrip in Hne, Hs.
  destruct (lstrip_head (rev (lstrip l))) as [E | (c & r & E & Hc)].
  - rewrite E in Hne. by apply Hne.
  - rewrite E in Hs. specialize (Hs c). rewrite Hs in Hc; [discriminate|].
    simpl. apply in_or_app. right. by left.
Qed.

(** The [try] block of [draw_scaled_merge.parse_summary_file],
    field by field. *)
Lemma merge_try_ok (parts : list text) (smp : Z)
    (row : DrawScaledMerge.summary_row) :
  DrawScaledMerge.summary_try parts = Ok (smp, row) <->
  PyNum.int <$> parts !! 0%nat = Some (Ok smp) /\
  PyNum.float <$> parts !! 1%nat = Some (Ok (DrawScaledMerge.row_real_boot_time row)) /\
  PyNum.float <$> parts !! 2%nat = Some (Ok (DrawScaledMerge.row_times_called row)) /\
  PyNum.float <$> parts !! 3%nat = Some (Ok (DrawScaledMerge.row_predicted_ns_per_call row)) /\
  PyNum.float <$> parts !! 4%nat = Some (Ok (DrawScaledMerge.row_predict_sec row)) /\
  PyNum.float <$> parts !! 5%nat = Some (Ok (DrawScaledMerge.row_scale_factor row)) /\
  PyNum.float <$> parts !! 6%nat = Some (Ok (DrawScaledMerge.row_total_clocksource_ns row)) /\
  PyNum.float <$> parts !! 7%nat = Some (Ok (DrawScaledMerge.row_percentage row)).
Proof.
  unfold DrawScaledMerge.summary_try, index.
  destruct (parts !! 0%nat) as [p0|]; simpl; [|intuition congruence].
  destruct (PyNum.int p0) as [k|]; simpl; [|intuition congruence].
  destruct (parts !! 1%nat) as [p1|]; simpl; [|intuition congruence].
  destruct (PyNum.float p1) as [v1|]; simpl; [|intuition congruence].
  destruct (parts !! 2%nat) as [p2|]; simpl; [|intuition congruence].
  destruct (PyNum.float p2) as [v2|]; simpl; [|intuition congruence].
  destruct (parts !! 3%nat) as [p3|]; simpl; [|intuition congruence].
  destruct (PyNum.float p3) as [v3|]; simpl; [|intuition congruence].
  destruct (parts !! 4%nat) as [p4|]; simpl; [|intuition congruence].
  destruct (PyNum.float p4) as [v4|]; simpl; [|intuition congruence].
  destruct (parts !! 5%nat) as [p5|]; simpl; [|intuition congruence].
  destruct (PyNum.float p5) as [v5|]; simpl; [|intuition congruence].
  destruct (parts !! 6%nat) as [p6|]; simpl; [|intuition congruence].
  destruct (PyNum.float p6) as [v6|]; simpl; [|intuition congruence].
  destruct (parts !! 7%nat) as [p7|]; simpl; [|intuition congruence].
  destruct (PyNum.float p7) as [v7|]; simpl; [|intuition congruence].
  destruct row; simpl. intuition congruence.
Qed.

Lemma scaled_try_ok (parts : list text) (smp : Z) (v : spec_float) :
  DrawScaled.summary_try parts = Ok (smp, v) <->
  PyNum.int <$> parts !! 0%nat = Some (Ok smp) /\
  PyNum.float <$> parts !! 3%nat = Some (Ok v).
Proof.
  unfold DrawScaled.summary_try, index.
  destruct (parts !! 0%nat) as [p0|]; simpl; [|intuition congruence].
  destruct (PyNum.int p0) as [k|]; simpl; [|intuition congruence].
  destruct (parts !! 3%nat) as [p3|]; simpl; [|intuition congruence].
  destruct (PyNum.float p3) as [v3|]; simpl; intuition congruence.
Qed.

(** With ten fields or more, the [try] block of
    [draw_scaled.parse_results_summary] raises nothing but
    [ValueError]. *)
Lemma scaled_try_raises (parts : list text) (e : exn) :
  (10 <= length parts)%nat ->
  DrawScaled.summary_try parts = Raise e -> e = ValueError.
Proof.
  intros Hlen. unfold DrawScaled.summary_try, index.
  destruct (lookup_lt_is_Some_2 parts 0%nat ltac:(lia)) as [p0 ->].
  destruct (lookup_lt_is_Some_2 parts 3%nat ltac:(lia)) as [p3 ->].
  simpl.
  destruct (PyNum.int p0) as [k|e0] eqn:H0; simpl.
  2: { intros [= <-]. eapply int_raises, H0. }
  destruct (PyNum.float p3) as [v|e3] eqn:H3; simpl; [discriminate|].
  intros [= <-]. eapply float_raises, H3.
Qed.

(** The loops never raise; each line stores its entry, if it has
    one. *)
Lemma merge_loop_cons (l : text) (lines : list text)
    (data : gmap Z DrawScaledMerge.summary_row) :
  DrawScaledMerge.summary_loop (l :: lines) data =
  DrawScaledMerge.summary_loop lines (store (option_list (row_of_line l)) data).
Proof.
  simpl. unfold row_of_line.
  destruct (bool_decide (strip l = []) || startswith (strip l) (txt "#"))
    eqn:Hskip; [reflexivity|].
  apply orb_false_iff in Hskip as [Hne _]. apply bool_decide_eq_false in Hne.
  destruct (first_field l Hne) as [p0 Hp0].
  rewrite (index_lookup _ _ _ Hp0), Hp0. simpl.
  destruct (decide (p0 = txt "SMP")) as [->|Hp].
  - rewrite !bool_decide_eq_true_2 by reflexivity. reflexivity.
  - rewrite !bool_decide_eq_false_2 by congruence.
    destruct (10 <=? length (split_ws (strip l)))%nat; [|reflexivity].
    destruct (DrawScaledMerge.summary_try (split_ws (strip l))) as [[k r]|e];
      reflexivity.
Qed.

Lemma merge_loop_store (lines : list text)
    (data : gmap Z DrawScaledMerge.summary_row) :
  DrawScaledMerge.summary_loop lines data
  = Ok (store (omap row_of_line lines) data).
Proof.
  revert data. induction lines as [|l lines IH]; intros data; [reflexivity|].
  rewrite merge_loop_cons, IH. simpl.
  destruct (row_of_line l); reflexivity.
Qed.

Lemma scaled_loop_cons (l : text) (lines : list text)
    (smp_info : gmap Z spec_float) :
  DrawScaled.summary_loop (l :: lines) smp_info =
  DrawScaled.summary_loop lines (store (option_list (pair_of_line l)) smp_info).
Proof.
  simpl. unfold pair_of_line.
  destruct (bool_decide (strip l = []) || startswith (strip l) (txt "#"))
    eqn:Hskip; [reflexivity|].
  apply orb_false_iff in Hskip as [Hne _]. apply bool_decide_eq_false in Hne.
  destruct (first_field l Hne) as [p0 Hp0].
  rewrite (index_lookup _ _ _ Hp0), Hp0. simpl.
  destruct (decide (p0 = txt "SMP")) as [->|Hp].
  - rewrite !bool_decide_eq_true_2 by reflexivity. reflexivity.
  - rewrite !bool_decide_eq_false_2 by congruence.
    destruct (10 <=? length (split_ws (strip l)))%nat eqn:Hlen; [|reflexivity].
    apply Nat.leb_le in Hlen.
    destruct (DrawScaled.summary_try (split_ws (strip l))) as [[k r]|e] eqn:Htry;
      [reflexivity|].
    rewrite (scaled_try_raises _ _ Hlen Htry). reflexivity.
Qed.

Lemma scaled_loop_store (lines : list text) (smp_info : gmap Z spec_float) :
  DrawScaled.summary_loop lines smp_info
  = Ok (store (omap pair_of_line lines) smp_info).
Proof.
  revert smp_info. induction lines as [|l lines IH]; intros d; [reflexivity|].
  rewrite scaled_loop_cons, IH. simpl.
  destruct (pair_of_line l); reflexivity.
Qed.

(** Storing entries: a key keeps the value stored last. *)
Lemma store_app {V} (kvs1 kvs2 : list (Z * V)) (d : gmap Z V) :
  store (kvs1 ++ kvs2) d = store kvs2 (store kvs1 d).
Proof. apply fold_left_app. Qed.

Lemma store_other {V} (kvs : list (Z * V)) (d : gmap Z V) (k : Z) :
  (forall kv, kv ∈ kvs -> kv.1 <> k) -> store kvs d !! k = d !! k.
Proof.
  revert d. induction kvs as [|kv kvs IH]; intros d H; [reflexivity|].
  simpl. rewrite IH.
  - apply lookup_insert_ne. apply H. by left.
  - intros kv' Hin. apply H. by right.
Qed.

Lemma store_last {V} (pre post : list (Z * V)) (d : gmap Z V) (k : Z) (v : V) :
  (forall kv, kv ∈ post -> kv.1 <> k) ->
  store (pre ++ (k, v) :: post) d !! k = Some v.
Proof.
  intros H. rewrite store_app. simpl.
  rewrite store_other by exact H. apply lookup_insert_eq.
Qed.

(** When a line has an entry. *)
Lemma row_of_line_included (l : text) :
  is_Some (row_of_line l) <-> included [1; 2; 3; 4; 5; 6; 7]%nat l.
Proof.
  unfold row_of_line, included.
  destruct (decide (strip l = [])) as [E|Hne].
  { rewrite bool_decide_eq_true_2 by exact E. simpl.
    split; [intros [? [=]]|tauto]. }
  rewrite (bool_decide_eq_false_2 _ Hne). simpl.
  destruct (startswith (strip l) (txt "#")).
  { split; [intros [? [=]]|intros (_ & [=] & _)]. }
  destruct (decide (split_ws (strip l) !! 0%nat = Some (txt "SMP"))) as [E|Hsmp].
  { rewrite bool_decide_eq_true_2 by exact E.
    split; [intros [? [=]]|tauto]. }
  rewrite (bool_decide_eq_false_2 _ Hsmp).
  destruct (10 <=? length (split_ws (strip l)))%nat eqn:Hlen.
  2: { apply Nat.leb_gt in Hlen.
       split; [intros [? [=]]|intros (_ & _ & _ & ? & _); lia]. }
  apply Nat.leb_le in Hlen.
  destruct (DrawScaledMerge.summary_try (split_ws (strip l))) as [[k r]|e] eqn:Htry.
  - apply merge_try_ok in Htry as (H0 & H1 & H2 & H3 & H4 & H5 & H6 & H7).
    split; [intros _|by eauto].
    repeat split; eauto.
    intros i Hi. repeat (apply elem_of_cons in Hi as [->|Hi]); eauto.
    by apply elem_of_nil in Hi.
  - split; [intros [? [=]]|].
    intros (_ & _ & _ & _ & [k H0] & Hv). exfalso.
    destruct (Hv 1%nat) as [v1 H1]; [repeat constructor|].
    destruct (Hv 2%nat) as [v2 H2]; [repeat constructor|].
    destruct (Hv 3%nat) as [v3 H3]; [repeat constructor|].
    destruct (Hv 4%nat) as [v4 H4]; [repeat constructor|].
    destruct (Hv 5%nat) as [v5 H5]; [repeat constructor|].
    destruct (Hv 6%nat) as [v6 H6]; [repeat constructor|].
    destruct (Hv 7%nat) as [v7 H7]; [repeat constructor|].
    assert (DrawScaledMerge.summary_try (split_ws (strip l))
            = Ok (k, DrawScaledMerge.Build_summary_row v1 v2 v3 v4 v5 v6 v7))
      as E by (apply merge_try_ok; simpl; tauto).
    congruence.
Qed.

Lemma pair_of_line_included (l : text) :
  is_Some (pair_of_line l) <-> included [3]%nat l.
Proof.
  unfold pair_of_line, included.
  destruct (decide (strip l = [])) as [E|Hne].
  { rewrite bool_decide_eq_true_2 by exact E. simpl.
    split; [intros [? [=]]|tauto]. }
  rewrite (bool_decide_eq_false_2 _ Hne). simpl.
  destruct (startswith (strip l) (txt "#")).
  { split; [intros [? [=]]|intros (_ & [=] & _)]. }
  destruct (decide (split_ws (strip l) !! 0%nat = Some (txt "SMP"))) as [E|Hsmp].
  { rewrite bool_decide_eq_true_2 by exact E.
    split; [intros [? [=]]|tauto]. }
  rewrite (bool_decide_eq_false_2 _ Hsmp).
  destruct (10 <=? length (split_ws (strip l)))%nat eqn:Hlen.
  2: { apply Nat.leb_gt in Hlen.
       split; [intros [? [=]]|intros (_ & _ & _ & ? & _); lia]. }
  apply Nat.leb_le in Hlen.
  destruct (DrawScaled.summary_try (split_ws (strip l))) as [[k r]|e] eqn:Htry.
  - apply scaled_try_ok in Htry as (H0 & H3).
    split; [intros _|by eauto].
    repeat split; eauto.
    intros i Hi. apply list_elem_of_singleton in Hi as ->. eauto.
  - split; [intros [? [=]]|].
    intros (_ & _ & _ & _ & [k H0] & Hv). exfalso.
    destruct (Hv 3%nat) as [v3 H3]; [repeat constructor|].
    assert (DrawScaled.summary_try (split_ws (strip l)) = Ok (k, v3))
      as E by (apply scaled_try_ok; tauto).
    congruence.
Qed.

(** An entry is the conversion of the fields of its line. *)
Lemma row_of_line_try (l : text) (kv : Z * DrawScaledMerge.summary_row) :
  row_of_line l = Some kv ->
  DrawScaledMerge.summary_try (split_ws (strip l)) = Ok kv.
Proof.
  unfold row_of_line.
  destruct (_ || _); [discriminate|].
  destruct (bool_decide _); [discriminate|].
  destruct (_ <=? _)%nat; [|discriminate].
  destruct (DrawScaledMerge.summary_try _) as [kv'|]; [|discriminate].
  by intros [= ->].
Qed.

Lemma pair_of_line_try (l : text) (kv : Z * spec_float) :
  pair_of_line l = Some kv ->
  DrawScaled.summary_try (split_ws (strip l)) = Ok kv.
Proof.
  unfold pair_of_line.
  destruct (_ || _); [discriminate|].
  destruct (bool_decide _); [discriminate|].
  destruct (_ <=? _)%nat; [|discriminate].
  destruct (DrawScaled.summary_try _) as [kv'|]; [|discriminate].
  by intros [= ->].
Qed.

Lemma row_of_line_fields (l : text) (smp : Z)
    (row : DrawScaledMerge.summary_row) :
  row_of_line l = Some (smp, row) <->
  included [1; 2; 3; 4; 5; 6; 7]%nat l /\
  DrawScaledMerge.summary_try (split_ws (strip l)) = Ok (smp, row).
Proof.
  split.
  - intros H. split; [apply row_of_line_included; rewrite H; eauto|].
    by apply row_of_line_try.
  - intros [Hinc Htry]. apply row_of_line_included in Hinc as [kv Hrow].
    rewrite Hrow. apply row_of_line_try in Hrow. congruence.
Qed.

Lemma pair_of_line_fields (l : text) (smp : Z) (v : spec_float) :
  pair_of_line l = Some (smp, v) <->
  included [3]%nat l /\
  DrawScaled.summary_try (split_ws (strip l)) = Ok (smp, v).
Proof.
  split.
  - intros H. split; [apply pair_of_line_included; rewrite H; eauto|].
    by apply pair_of_line_try.
  - intros [Hinc Htry]. apply pair_of_line_included in Hinc as [kv Hrow].
    rewrite Hrow. apply pair_of_line_try in Hrow. congruence.
Qed.

End SummaryFacts.

(** ** The data collection of [draw_scaled_merge.py] *)
Module MergeFacts.
Import Py DrawScaledMerge PyFacts TimeLogFacts SummaryFacts.

Lemma append_same (name n : metric) (env : nat) (x : spec_float) (ms : matrices) :
  append name env x ms n !! env =
  if decide (n = name) then (fun l => l ++ [x]) <$> ms n !! env
  else ms n !! env.
Proof.
  unfold append. destruct (decide (n = name)); [|reflexivity].
  apply lookup_alter_eq.
Qed.

Lemma append_other (name n : metric) (env env' : nat) (x : spec_float)
    (ms : matrices) :
  env' <> env -> append name env x ms n !! env' = ms n !! env'.
Proof.
  intros H. unfold append. destruct (decide (n = name)); [|reflexivity].
  by apply lookup_alter_ne.
Qed.

Lemma init_same (name n : metric) (env : nat) (ms : matrices) :
  init name env ms n !! env =
  if decide (n = name) then Some [] else ms n !! env.
Proof.
  unfold init. destruct (decide (n = name)); [|reflexivity].
  apply lookup_insert_eq.
Qed.

Lemma init_other (name n : metric) (env env' : nat) (ms : matrices) :
  env' <> env -> init name env ms n !! env' = ms n !! env'.
Proof.
  intros H. unfold init. destruct (decide (n = name)); [|reflexivity].
  by apply lookup_insert_ne.
Qed.

Lemma exists_Some (fs : filesystem) (path content : text) :
  fs path = Some content -> exists_ fs path = true.
Proof. intros H. apply bool_decide_eq_true_2. rewrite H. eauto. Qed.

Lemma exists_None (fs : filesystem) (path : text) :
  fs path = None -> exists_ fs path = false.
Proof.
  intros H. apply bool_decide_eq_false_2. rewrite H. by intros [? [=]].
Qed.

(** Reading the log of a cell never raises. *)
Lemma read_logs (fs : filesystem) (env smp : nat) :
  (if exists_ fs (time_log_path env smp) then
     perc_vals ← parse_percentage_time_log fs (time_log_path env smp);
     ns_vals ← parse_ns_per_call_time_log fs (time_log_path env smp);
     Ok (perc_vals, ns_vals)
   else Ok ([], []))
  = Ok (Cell.perc_vals fs env smp, Cell.ns_vals fs env smp).
Proof.
  unfold Cell.perc_vals, Cell.ns_vals.
  destruct (fs (time_log_path env smp)) as [content|] eqn:Hfs.
  - rewrite (exists_Some _ _ _ Hfs).
    change (parse_percentage_time_log fs (time_log_path env smp))
      with (DrawScaled.parse_percentage_time_log fs (time_log_path env smp)).
    change (parse_ns_per_call_time_log fs (time_log_path env smp))
      with (DrawScaled.parse_ns_per_call_time_log fs (time_log_path env smp)).
    rewrite (parse_perc_values _ _ _ Hfs), (parse_ns_values _ _ _ Hfs).
    reflexivity.
  - rewrite (exists_None _ _ Hfs). reflexivity.
Qed.

Lemma guarded_average (values : list spec_float) :
  match values with
  | [] => Ok zero
  | _ => DrawScaled.average values
  end = Ok (TimeLog.mean values).
Proof.
  destruct values as [|v values]; [reflexivity|].
  by apply average_mean.
Qed.

Lemma last_or_zero (l : list spec_float) (x : spec_float) :
  match l ++ [x] with
  | [] => zero
  | l' => List.last l' zero
  end = x.
Proof.
  destruct (l ++ [x]) eqn:E.
  - by destruct l.
  - rewrite <- E. apply List.last_last.
Qed.

(** One round of the inner loop appends the value of the cell to
    each of the ten lists of the environment, and touches nothing
    else. *)
Lemma smp_step_spec (fs : filesystem) (summary : gmap Z summary_row)
    (env smp : nat) (ms : matrices) (rows : metric -> list spec_float) :
  (forall name, ms name !! env = Some (rows name)) ->
  exists ms',
    smp_step fs summary env smp ms = Ok ms' /\
    (forall name,
        ms' name !! env = Some (rows name ++ [Cell.value fs summary env name smp])) /\
    (forall name env', env' <> env -> ms' name !! env' = ms name !! env').
Proof.
  intros Hrows. unfold smp_step.
  rewrite read_logs. simpl.
  rewrite !guarded_average. simpl.
  eexists. split; [reflexivity|].
  split.
  - intros name. unfold Cell.value, Cell.column.
    destruct (summary !! Z.of_nat smp) as [row|];
      destruct name; rewrite ?append_same; simpl;
      rewrite ?append_same; simpl; rewrite ?Hrows; simpl;
      rewrite ?last_or_zero; reflexivity.
  - intros name env' Hne.
    destruct (summary !! Z.of_nat smp) as [row|];
      rewrite !append_other by exact Hne; reflexivity.
Qed.

Lemma smp_loop_spec (fs : filesystem) (summary : gmap Z summary_row)
    (env : nat) (smps : list nat) (ms : matrices)
    (rows : metric -> list spec_float) :
  (forall name, ms name !! env = Some (rows name)) ->
  exists ms',
    smp_loop fs summary env smps ms = Ok ms' /\
    (forall name,
        ms' name !! env
        = Some (rows name ++ (Cell.value fs summary env name <$> smps))) /\
    (forall name env', env' <> env -> ms' name !! env' = ms name !! env').
Proof.
  revert ms rows. induction smps as [|smp smps IH]; intros ms rows Hrows.
  - exists ms. simpl. split; [reflexivity|]. split; [|reflexivity].
    intros name. by rewrite app_nil_r.
  - destruct (smp_step_spec fs summary env smp ms rows Hrows)
      as (ms1 & Hstep & Hsame & Hother).
    destruct (IH ms1 _ Hsame) as (ms' & Hloop & Hsame' & Hother').
    exists ms'. simpl. rewrite Hstep. simpl. split; [exact Hloop|]. split.
    + intros name. rewrite Hsame', <- app_assoc. reflexivity.
    + intros name env' Hne. rewrite Hother', Hother by exact Hne. reflexivity.
Qed.

Lemma parse_summary_table (fs : filesystem) (env : nat) (content : text) :
  fs (summary_path env) = Some content ->
  parse_summary_file fs env = Ok (Cell.table fs env).
Proof.
  intros H. unfold parse_summary_file, open_, Cell.table. rewrite H. simpl.
  apply merge_loop_store.
Qed.

Lemma parse_summary_missing (fs : filesystem) (env : nat) :
  fs (summary_path env) = None ->
  parse_summary_file fs env = Raise FileNotFoundError.
Proof.
  intros H. unfold parse_summary_file, open_. rewrite H. reflexivity.
Qed.

(** One round of the outer loop, when the summary table exists. *)
Lemma env_step_spec (fs : filesystem) (NUM_SMP env : nat) (ms : matrices) :
  is_Some (fs (summary_path env)) ->
  exists ms',
    env_step fs NUM_SMP env ms = Ok ms' /\
    (forall name, ms' name !! env = Some (Cell.row fs NUM_SMP env name)) /\
    (forall name env', env' <> env -> ms' name !! env' = ms name !! env').
Proof.
  intros [content Hfs]. unfold env_step.
  rewrite (parse_summary_table _ _ _ Hfs). simpl.
  match goal with
  | |- context [smp_loop _ _ _ _ ?m] => set (ms0 := m)
  end.
  assert (Hinit : forall name, ms0 name !! env = Some []).
  { intros name. unfold ms0. destruct name; rewrite ?init_same; reflexivity. }
  destruct (smp_loop_spec fs (Cell.table fs env) env (seq 1 NUM_SMP) ms0 _ Hinit)
    as (ms' & Hloop & Hsame & Hother).
  exists ms'. split; [exact Hloop|]. split; [exact Hsame|].
  intros name env' Hne. rewrite Hother by exact Hne.
  unfold ms0. rewrite !init_other by exact Hne. reflexivity.
Qed.

Lemma env_step_missing (fs : filesystem) (NUM_SMP env : nat) (ms : matrices) :
  fs (summary_path env) = None ->
  env_step fs NUM_SMP env ms = Raise FileNotFoundError.
Proof.
  intros H. unfold env_step. rewrite (parse_summary_missing _ _ H). reflexivity.
Qed.

Lemma env_loop_spec (fs : filesystem) (NUM_SMP : nat) (envs : list nat)
    (ms : matrices) :
  (forall env, env ∈ envs -> is_Some (fs (summary_path env))) ->
  exists ms',
    env_loop fs NUM_SMP envs ms = Ok ms' /\
    forall name env,
      ms' name !! env =
      if decide (env ∈ envs) then Some (Cell.row fs NUM_SMP env name)
      else ms name !! env.
Proof.
  revert ms. induction envs as [|e envs IH]; intros ms Hfs.
  - exists ms. split; [reflexivity|]. intros name env.
    rewrite decide_False; [reflexivity|apply not_elem_of_nil].
  - destruct (env_step_spec fs NUM_SMP e ms) as (ms1 & Hstep & Hsame & Hother).
    { apply Hfs. by left. }
    destruct (IH ms1) as (ms' & Hloop & Hlook).
    { intros env Hin. apply Hfs. by right. }
    exists ms'. simpl. rewrite Hstep. simpl. split; [exact Hloop|].
    intros name env. rewrite Hlook.
    destruct (decide (env ∈ envs)) as [Hin|Hnin].
    + rewrite decide_True; [reflexivity|by right].
    + destruct (decide (env = e)) as [->|Hne].
      * rewrite decide_True by (by left). apply Hsame.
      * rewrite decide_False.
        -- by apply Hother.
        -- intros Hin. apply elem_of_cons in Hin as [?|?]; contradiction.
Qed.

(** The collection as a whole: with every summary table present it
    returns the matrices whose rows are [Cell.row]. *)
Lemma collect_spec (fs : filesystem) (NUM_ENV NUM_SMP : nat) :
  (forall env, (1 <= env <= NUM_ENV)%nat -> is_Some (fs (summary_path env))) ->
  exists ms,
    collect fs NUM_ENV NUM_SMP = Ok ms /\
    forall name env,
      ms name !! env =
      if decide (1 <= env <= NUM_ENV)%nat
      then Some (Cell.row fs NUM_SMP env name) else None.
Proof.
  intros Hfs. unfold collect.
  destruct (env_loop_spec fs NUM_SMP (seq 1 NUM_ENV) no_matrices)
    as (ms & Hloop & Hlook).
  { intros env Hin. apply Hfs. apply elem_of_seq in Hin. lia. }
  exists ms. split; [exact Hloop|]. intros name env. rewrite Hlook.
  destruct (decide (1 <= env <= NUM_ENV)%nat) as [Hr|Hr].
  - rewrite decide_True; [reflexivity|]. apply elem_of_seq. lia.
  - rewrite decide_False; [apply lookup_empty|].
    intros Hin. apply elem_of_seq in Hin. lia.
Qed.

End MergeFacts.

(** ** Escape sequences and [draw_increase.py] *)
Module AnsiFacts.
Import Py Re DrawIncrease Ansi.

Lemma star_k_skip {R} (p : ascii -> bool) (k : text -> option R) (s : text) :
  (forall c r, p c = true -> k (c :: r) = None) ->
  star_k p k s = k (skip p s).
Proof.
  intros Hk. induction s as [|c s IH]; simpl; [reflexivity|].
  destruct (p c) eqn:Hp; [|reflexivity].
  rewrite IH. destruct (k (skip p s)) eqn:E; [reflexivity|].
  by apply Hk.
Qed.

(** The pattern [ansi_escape] at the head of a text. *)
Lemma match_at_ansi (s : text) :
  match_at ansi_escape s = (fun rest => (rest, [])) <$> after_escape s.
Proof.
  unfold match_at, after_escape, ansi_escape.
  cbn [expr ignorecase seq_re fold_right m lit_matches].
  destruct s as [|c0 [|c1 s2]].
  - reflexivity.
  - destruct (Ascii.eqb ESC c0); reflexivity.
  - rewrite (Ascii.eqb_sym c0 ESC), (Ascii.eqb_sym c1 "[").
    destruct (Ascii.eqb ESC c0); [|reflexivity].
    destruct (Ascii.eqb "[" c1); [|reflexivity].
    cbn [andb]. rewrite star_k_skip.
    + destruct (skip digit_or_semi s2) as [|c rest]; [reflexivity|].
      rewrite (Ascii.eqb_sym c "m").
      destruct (Ascii.eqb "m" c); reflexivity.
    + intros c r Hc.
      destruct (Ascii.eqb "m" c) eqn:E; [|reflexivity].
      apply Ascii.eqb_eq in E. subst c. discriminate.
Qed.

Lemma skip_suffix (p : ascii -> bool) (s : text) :
  exists pre, s = pre ++ skip p s.
Proof.
  induction s as [|c s [pre IH]]; simpl; [by exists []|].
  destruct (p c); [|by exists []].
  exists (c :: pre). simpl. congruence.
Qed.

Lemma after_escape_suffix (s rest : text) :
  after_escape s = Some rest ->
  exists pre, s = ESC :: pre ++ rest.
Proof.
  unfold after_escape. destruct s as [|c0 [|c1 s2]]; try discriminate.
  destruct (Ascii.eqb c0 ESC) eqn:E0; [|discriminate].
  destruct (Ascii.eqb c1 "[") eqn:E1; [|discriminate]. simpl.
  apply Ascii.eqb_eq in E0. subst c0.
  destruct (skip_suffix digit_or_semi s2) as [pre Hpre].
  destruct (skip digit_or_semi s2) as [|c r]; [discriminate|].
  destruct (Ascii.eqb c "m"); [|discriminate]. intros [= ->].
  exists (c1 :: pre ++ [c]). rewrite Hpre at 1. simpl.
  by rewrite <- app_assoc.
Qed.

Lemma after_escape_head (c : ascii) (s : text) :
  c <> ESC -> after_escape (c :: s) = None.
Proof.
  intros Hc. unfold after_escape. destruct s; [reflexivity|].
  apply Ascii.eqb_neq in Hc. rewrite Hc. reflexivity.
Qed.

(** One round of the substitution with the empty replacement. *)
Lemma remove_step (fuel : nat) (s : text) :
  sub_from (S fuel) ansi_escape [] s =
  match after_escape s with
  | Some rest => sub_from fuel ansi_escape [] rest
  | None =>
      match s with
      | c :: s' => c :: sub_from fuel ansi_escape [] s'
      | [] => []
      end
  end.
Proof.
  cbn [sub_from]. rewrite match_at_ansi.
  destruct (after_escape s) as [rest|] eqn:E; [|reflexivity].
  simpl. destruct (after_escape_suffix _ _ E) as [pre ->].
  replace (length rest <? length (ESC :: pre ++ rest))%nat with true;
    [reflexivity|].
  symmetry. apply Nat.ltb_lt. simpl. rewrite length_app. lia.
Qed.

(** A text without ESC is left as it is. *)
Lemma remove_clean (fuel : nat) (s : text) :
  ESC ∉ s -> sub_from fuel ansi_escape [] s = s.
Proof.
  revert s. induction fuel as [|fuel IH]; intros s Hs; [reflexivity|].
  rewrite remove_step. destruct s as [|c s]; [reflexivity|].
  apply not_elem_of_cons in Hs as [Hc Hs].
  rewrite after_escape_head by congruence.
  by rewrite IH.
Qed.

Lemma escapes_complete_app (pre s : text) :
  escapes_complete (pre ++ s) = true -> escapes_complete s = true.
Proof.
  induction pre as [|c pre IH]; [done|]. simpl.
  intros H. apply andb_true_iff in H as [_ H]. auto.
Qed.

(** When every ESC begins a sequence, one pass leaves no ESC. *)
Lemma remove_no_esc (fuel : nat) (s : text) :
  (length s < fuel)%nat -> escapes_complete s = true ->
  ESC ∉ sub_from fuel ansi_escape [] s.
Proof.
  revert s. induction fuel as [|fuel IH]; intros s Hlen Hs; [lia|].
  rewrite remove_step.
  destruct (after_escape s) as [rest|] eqn:E.
  - destruct (after_escape_suffix _ _ E) as [pre ->].
    apply IH.
    + simpl in Hlen. rewrite length_app in Hlen. lia.
    + apply (escapes_complete_app (ESC :: pre)). exact Hs.
  - destruct s as [|c s]; [apply not_elem_of_nil|].
    simpl in Hs. apply andb_true_iff in Hs as [Hc Hs].
    rewrite match_at_ansi, E in Hc.
    apply not_elem_of_cons. split.
    + intros <-. vm_compute in Hc. discriminate.
    + apply IH; [simpl in Hlen; lia|exact Hs].
Qed.

(** The rounds never run out: any fuel above the length of the text
    gives the same result. *)
Lemma remove_fuel (fuel1 fuel2 : nat) (s : text) :
  (length s < fuel1)%nat -> (length s < fuel2)%nat ->
  sub_from fuel1 ansi_escape [] s = sub_from fuel2 ansi_escape [] s.
Proof.
  revert fuel2 s. induction fuel1 as [|fuel1 IH]; intros fuel2 s H1 H2; [lia|].
  destruct fuel2 as [|fuel2]; [lia|].
  rewrite !remove_step.
  destruct (after_escape s) as [rest|] eqn:E.
  - destruct (after_escape_suffix _ _ E) as [pre ->].
    simpl in H1, H2. rewrite length_app in H1, H2. apply IH; lia.
  - destruct s as [|c s]; [reflexivity|].
    simpl in H1, H2. f_equal. apply IH; lia.
Qed.

(** [draw_increase_merge.py] removes the codes the same way. *)
Lemma merge_remove_ansi_codes (s : text) :
  DrawIncreaseMerge.remove_ansi_codes s = remove_ansi_codes s.
Proof. reflexivity. Qed.

Lemma remove_idempotent_on (s : text) :
  escapes_complete s = true ->
  remove_ansi_codes (remove_ansi_codes s) = remove_ansi_codes s.
Proof.
  intros Hs. unfold remove_ansi_codes at 1. unfold sub.
  apply remove_clean. apply remove_no_esc; [lia|exact Hs].
Qed.

End AnsiFacts.

(** ** The data collection of [draw_increase.py] *)
Module IncreaseFacts.
Import Py DrawIncrease Increase MergeFacts.

Lemma env_step_entry (fs : filesystem) (smp env : nat) (row : gmap nat entry) :
  (forall raw, fs (logfile env smp) = Some raw -> exists e, parse_log raw = Ok e) ->
  env_step fs smp env row = Ok (<[env := entry_of fs smp env]> row).
Proof.
  intros Hp. unfold env_step, entry_of, open_.
  destruct (fs (logfile env smp)) as [raw|] eqn:Hfs.
  - rewrite (exists_Some _ _ _ Hfs). simpl.
    destruct (Hp raw eq_refl) as [e ->]. simpl.
    by rewrite insert_insert_eq.
  - rewrite (exists_None _ _ Hfs). reflexivity.
Qed.

Lemma env_loop_row (fs : filesystem) (smp : nat) (envs : list nat)
    (row : gmap nat entry) :
  (forall env raw, env ∈ envs -> fs (logfile env smp) = Some raw ->
                   exists e, parse_log raw = Ok e) ->
  env_loop fs smp envs row = Ok (row_after fs smp envs row).
Proof.
  revert row. induction envs as [|env envs IH]; intros row Hp; [reflexivity|].
  simpl. rewrite env_step_entry.
  - simpl. apply IH. intros env' raw Hin. apply Hp. by right.
  - intros raw. apply Hp. by left.
Qed.

Lemma row_after_lookup (fs : filesystem) (smp : nat) (envs : list nat)
    (row : gmap nat entry) (env : nat) :
  row_after fs smp envs row !! env =
  if decide (env ∈ envs) then Some (entry_of fs smp env) else row !! env.
Proof.
  revert row. induction envs as [|e envs IH]; intros row.
  - rewrite decide_False; [reflexivity|apply not_elem_of_nil].
  - simpl. rewrite IH.
    destruct (decide (env ∈ envs)) as [Hin|Hnin].
    + rewrite decide_True; [reflexivity|by right].
    + destruct (decide (env = e)) as [->|Hne].
      * rewrite decide_True by (by left). apply lookup_insert_eq.
      * rewrite decide_False.
        -- by apply lookup_insert_ne.
        -- intros Hin. apply elem_of_cons in Hin as [?|?]; contradiction.
Qed.

Lemma smp_loop_data (fs : filesystem) (NUM_ENV : nat) (smps : list nat)
    (data : gmap nat (gmap nat entry)) :
  (forall env smp raw, (1 <= env <= NUM_ENV)%nat -> smp ∈ smps ->
     fs (logfile env smp) = Some raw -> exists e, parse_log raw = Ok e) ->
  exists data',
    smp_loop fs NUM_ENV smps data = Ok data' /\
    forall smp,
      data' !! smp =
      if decide (smp ∈ smps)
      then Some (row_after fs smp (seq 1 NUM_ENV) ∅)
      else data !! smp.
Proof.
  revert data. induction smps as [|s smps IH]; intros data Hp.
  - exists data. split; [reflexivity|]. intros smp.
    rewrite decide_False; [reflexivity|apply not_elem_of_nil].
  - simpl. rewrite env_loop_row.
    2: { intros env raw Hin. apply Hp; [|by left].
         apply elem_of_seq in Hin. lia. }
    simpl.
    destruct (IH (<[s := row_after fs s (seq 1 NUM_ENV) ∅]> data))
      as (data' & Hloop & Hlook).
    { intros env smp raw He Hin. apply Hp; [exact He|by right]. }
    exists data'. split; [exact Hloop|]. intros smp. rewrite Hlook.
    destruct (decide (smp ∈ smps)) as [Hin|Hnin].
    + rewrite decide_True; [reflexivity|by right].
    + destruct (decide (smp = s)) as [->|Hne].
      * rewrite decide_True by (by left). apply lookup_insert_eq.
      * rewrite decide_False.
        -- by apply lookup_insert_ne.
        -- intros Hin. apply elem_of_cons in Hin as [?|?]; contradiction.
Qed.

(** The collection of [draw_increase.py]: one entry per cell. *)
Lemma collect_entries (fs : filesystem) (NUM_ENV NUM_SMP : nat) :
  parsable fs NUM_ENV NUM_SMP ->
  exists data,
    collect fs NUM_ENV NUM_SMP = Ok data /\
    forall smp env,
      data !! smp ≫= (fun row => row !! env) =
      if decide ((1 <= smp <= NUM_SMP)%nat /\ (1 <= env <= NUM_ENV)%nat)
      then Some (entry_of fs smp env) else None.
Proof.
  intros Hp. unfold collect.
  destruct (smp_loop_data fs NUM_ENV (seq 1 NUM_SMP) ∅) as (data & Hloop & Hlook).
  { intros env smp raw He Hin. apply Hp; [exact He|].
    apply elem_of_seq in Hin. lia. }
  exists data. split; [exact Hloop|]. intros smp env. rewrite Hlook.
  destruct (decide (smp ∈ seq 1 NUM_SMP)) as [Hin|Hnin]; simpl.
  - apply elem_of_seq in Hin. rewrite row_after_lookup.
    destruct (decide (env ∈ seq 1 NUM_ENV)) as [Hin'|Hnin'].
    + apply elem_of_seq in Hin'. rewrite decide_True; [reflexivity|lia].
    + rewrite decide_False; [apply lookup_empty|].
      intros [_ He]. apply Hnin', elem_of_seq. lia.
  - rewrite lookup_empty. simpl. rewrite decide_False; [reflexivity|].
    intros [Hs _]. apply Hnin, elem_of_seq. lia.
Qed.

End IncreaseFacts.

(** ** What the patterns capture *)
Module RegexFacts.
Import Py Re DrawIncrease.

Lemma star_k_inv {R} (p : ascii -> bool) (k : text -> option R) (s : text) (r : R) :
  star_k p k s = Some r ->
  exists pre rest,
    s = pre ++ rest /\ Forall (fun c => p c = true) pre /\ k rest = Some r.
Proof.
  induction s as [|c s IH]; simpl.
  - intros H. exists [], []. auto.
  - destruct (p c) eqn:Hp.
    + destruct (star_k p k s) as [r'|] eqn:Hs.
      * intros [= ->]. destruct (IH eq_refl) as (pre & rest & -> & Hpre & Hk).
        exists (c :: pre), rest. auto.
      * intros H. exists [], (c :: s). auto.
    + intros H. exists [], (c :: s). auto.
Qed.

Lemma search_inv (pt : pattern) (s : text) (gs : list text) :
  search pt s = Some gs ->
  exists s' rest, match_at pt s' = Some (rest, gs).
Proof.
  induction s as [|c s IH]; simpl.
  - destruct (match_at pt []) as [[rest gs']|] eqn:E; [|discriminate].
    intros [= ->]. eauto.
  - destruct (match_at pt (c :: s)) as [[rest gs']|] eqn:E; [|exact IH].
    intros [= ->]. eauto.
Qed.

Lemma take_group (c d : ascii) (pre rest : text) :
  take (length (pre ++ d :: rest) - length rest) (c :: pre ++ d :: rest)
  = c :: pre.
Proof.
  replace (length (pre ++ d :: rest) - length rest)%nat with (S (length pre))
    by (rewrite length_app; simpl; lia).
  simpl. by rewrite take_app_length.
Qed.

(** Peeling a successful match, one construct at a time. *)
Ltac peel H :=
  repeat first
    [ match type of H with
      | match ?s with [] => None | _ :: _ => _ end = Some _ =>
          destruct s as [|? ?]; [discriminate H|]
      | (if ?b then _ else None) = Some _ =>
          destruct b eqn:?; [|discriminate H]
      | star_k _ _ _ = Some _ =>
          apply star_k_inv in H as (? & ? & -> & ? & H); cbv beta in H
      end ].

(** The second group of a boot match is a run of digits. *)
Lemma boot_groups (s rest : text) (gs : list text) :
  match_at boot_re s = Some (rest, gs) ->
  exists g1 c ds,
    gs = [g1; c :: ds] /\ isdigit c = true /\
    Forall (fun d => isdigit d = true) ds.
Proof.
  unfold match_at, boot_re, Plus, lit, txt.
  cbn [expr ignorecase seq_re fold_right map list_ascii_of_string m].
  intros H. peel H.
  injection H as _ <-.
  rewrite !take_group. simpl. eauto 10.
Qed.

Lemma take_matched (l rest : text) :
  take (length (l ++ rest) - length rest) (l ++ rest) = l.
Proof.
  replace (length (l ++ rest) - length rest)%nat with (length l)
    by (rewrite length_app; lia).
  apply take_app_length.
Qed.

(** A run of one digit or more, captured from [x0] on. *)
Lemma digits_run_inv (x0 s rest : text) (gs : list text) :
  match s with
  | [] => None
  | c :: s' =>
      if isdigit c
      then star_k isdigit
             (fun s1 => Some (s1, [] ++ [take (length x0 - length s1) x0])) s'
      else None
  end = Some (rest, gs) ->
  exists c ds,
    s = c :: ds ++ rest /\ isdigit c = true /\
    Forall (fun d => isdigit d = true) ds /\
    gs = [take (length x0 - length rest) x0].
Proof.
  intros H. peel H. injection H as -> <-. eauto 10.
Qed.

(** The group of an offset match is a run of digits, after a minus
    sign or not. *)
Lemma offset_groups (s rest : text) (gs : list text) :
  match_at offset_re s = Some (rest, gs) ->
  exists sign c ds,
    gs = [sign ++ c :: ds] /\ (sign = [] \/ sign = txt "-") /\
    isdigit c = true /\ Forall (fun d => isdigit d = true) ds.
Proof.
  unfold match_at, offset_re, Plus, lit, txt.
  cbn [expr ignorecase seq_re fold_right map list_ascii_of_string m].
  intros H. peel H.
  match type of H with
  | match ?x with _ => _ end = _ => destruct x as [|c s'] eqn:Ex
  end; [discriminate|].
  destruct (is_minus c) eqn:Hm.
  - apply Ascii.eqb_eq in Hm. subst c.
    match type of H with
    | match ?inner with _ => _ end = _ => destruct inner as [[r g]|] eqn:Hin
    end.
    + injection H as -> ->.
      apply digits_run_inv in Hin as (c & ds & -> & Hc & Hds & ->).
      exists (txt "-"), c, ds.
      change ("-"%char :: c :: ds ++ rest) with (("-"%char :: c :: ds) ++ rest).
      rewrite take_matched. auto.
    + discriminate.
  - apply (digits_run_inv (c :: s') (c :: s') rest gs) in H
      as (c' & ds & E & Hc & Hds & ->).
    injection E as -> ->.
    exists [], c', ds.
    change (c' :: ds ++ rest) with ((c' :: ds) ++ rest).
    rewrite take_matched. auto.
Qed.

(** [int] accepts what the digit groups capture. *)
Lemma digit_not_space (c : ascii) : isdigit c = true -> isspace c = false.
Proof.
  unfold isdigit, isspace. intros H.
  apply andb_true_iff in H as [H1 H2]. apply N.leb_le in H1, H2.
  cbn [existsb].
  repeat (rewrite (proj2 (N.eqb_neq _ _)) by lia). reflexivity.
Qed.

Lemma digit_not_underscore (c : ascii) :
  isdigit c = true -> PyNum.is_char "_" c = false.
Proof.
  intros H. unfold PyNum.is_char.
  destruct (Ascii.eqb c "_") eqn:E; [|reflexivity].
  apply Ascii.eqb_eq in E. subst c. discriminate.
Qed.

Lemma lstrip_head_kept (c : ascii) (s : text) :
  isspace c = false -> lstrip (c :: s) = c :: s.
Proof. intros H. simpl. by rewrite H. Qed.

Lemma strip_spaceless (s : text) :
  Forall (fun c => isspace c = false) s -> strip s = s.
Proof.
  intros H. unfold strip, rstrip.
  assert (Hl : forall t, Forall (fun c => isspace c = false) t -> lstrip t = t).
  { intros [|c t] Ht; [reflexivity|].
    apply lstrip_head_kept. by inversion Ht. }
  rewrite (Hl s H), (Hl (rev s)); [apply rev_involutive|].
  by apply Forall_rev.
Qed.

Lemma drop_underscores_none (prev : option ascii) (s : text) :
  Forall (fun c => PyNum.is_char "_" c = false) s ->
  (forall p, prev = Some p -> PyNum.is_char "_" p = false) ->
  PyNum.drop_underscores prev s = Some s.
Proof.
  revert prev. induction s as [|c s IH]; intros prev Hs Hprev; simpl.
  - destruct prev as [p|]; [|reflexivity]. by rewrite (Hprev p).
  - apply Forall_cons in Hs as [Hc Hs]. rewrite Hc.
    assert (PyNum.drop_underscores (Some c) s = Some s) as E.
    { apply IH; [exact Hs|]. by intros p [= <-]. }
    destruct prev as [p|]; rewrite ?(Hprev p eq_refl), E; reflexivity.
Qed.

Lemma span_all_digits (ds : text) :
  Forall (fun d => isdigit d = true) ds -> PyNum.span_digits ds = (ds, []).
Proof.
  induction ds as [|d ds IH]; intros H; [reflexivity|].
  apply Forall_cons in H as [Hd Hds]. simpl. rewrite Hd, (IH Hds). reflexivity.
Qed.

Lemma digit_not_sign (c : ascii) :
  isdigit c = true -> PyNum.is_char "-" c = false /\ PyNum.is_char "+" c = false.
Proof.
  intros Hc. split.
  - destruct (PyNum.is_char "-" c) eqn:E; [|reflexivity].
    apply Ascii.eqb_eq in E. subst c. discriminate.
  - destruct (PyNum.is_char "+" c) eqn:E; [|reflexivity].
    apply Ascii.eqb_eq in E. subst c. discriminate.
Qed.

(** [int] on a run of digits, after a minus sign or not: the number
    the digits denote, unless there are too many of them. *)
Lemma int_digit_run (neg : bool) (c : ascii) (ds : text) :
  isdigit c = true -> Forall (fun d => isdigit d = true) ds ->
  PyNum.int ((if neg then txt "-" else []) ++ c :: ds)
  = if (PyNum.int_max_str_digits <? length (c :: ds))%nat
    then Raise ValueError
    else Ok (if neg then - PyNum.digits_val (c :: ds)
             else PyNum.digits_val (c :: ds)).
Proof.
  intros Hc Hds.
  assert (Hall : Forall (fun d => isdigit d = true) (c :: ds))
    by (by constructor).
  assert (Hspace : Forall (fun d => isspace d = false) (c :: ds))
    by (eapply Forall_impl; [exact Hall|apply digit_not_space]).
  assert (Hund : Forall (fun d => PyNum.is_char "_" d = false) (c :: ds))
    by (eapply Forall_impl; [exact Hall|apply digit_not_underscore]).
  unfold PyNum.int. destruct neg.
  - change (txt "-" ++ c :: ds) with ("-"%char :: c :: ds).
    rewrite strip_spaceless by (by constructor).
    rewrite (drop_underscores_none None) by (by constructor || discriminate).
    change (PyNum.take_sign ("-"%char :: c :: ds)) with (true, c :: ds).
    cbv beta iota. rewrite (span_all_digits _ Hall). reflexivity.
  - change ([] ++ c :: ds) with (c :: ds).
    rewrite (strip_spaceless _ Hspace).
    rewrite (drop_underscores_none None _ Hund) by discriminate.
    unfold PyNum.take_sign.
    destruct (digit_not_sign c Hc) as [-> ->].
    rewrite (span_all_digits _ Hall). reflexivity.
Qed.

Lemma digit_count_run (neg : bool) (n : text) :
  Forall (fun d => isdigit d = true) n ->
  Increase.digit_count ((if neg then txt "-" else []) ++ n) = length n.
Proof.
  intros Hn. unfold Increase.digit_count.
  assert (List.filter isdigit n = n) as Hf.
  { induction Hn as [|d n Hd _ IH]; [reflexivity|]. simpl. by rewrite Hd, IH. }
  destruct neg; simpl; by rewrite Hf.
Qed.

(** What the boot extraction does: the defaults without a match, and
    with one the conversions of its two groups, the second of which
    is a run of digits. *)
Lemma extract_boot_cases (content : text) :
  (search boot_re content = None /\
   extract_boot content = Ok (Float.of_Z 0, 0)) \/
  (exists g1 n,
      search boot_re content = Some [g1; n] /\
      Lines.run isdigit n /\
      extract_boot content =
        (boot_time ← PyNum.float g1;
         if (PyNum.int_max_str_digits <? length n)%nat
         then Raise ValueError
         else Ok (boot_time, PyNum.digits_val n))).
Proof.
  unfold extract_boot.
  destruct (search boot_re content) as [gs|] eqn:Hs; [right|by left].
  pose proof Hs as Hs'.
  apply search_inv in Hs' as (s' & rest & Hm).
  apply boot_groups in Hm as (g1 & c & ds & -> & Hc & Hds).
  exists g1, (c :: ds). split; [reflexivity|].
  split; [split; [discriminate|by constructor]|].
  change (group [g1; c :: ds] 1) with g1.
  change (group [g1; c :: ds] 2) with (c :: ds).
  pose proof (int_digit_run false c ds Hc Hds) as Hint.
  change (PyNum.int ((if false then txt "-" else []) ++ c :: ds))
    with (PyNum.int (c :: ds)) in Hint.
  rewrite Hint.
  destruct (PyNum.float g1); [|reflexivity].
  destruct (_ <? _)%nat; reflexivity.
Qed.

(** The same for the offset. *)
Lemma extract_offset_cases (content : text) :
  (search offset_re content = None /\ extract_offset content = Ok 0) \/
  (exists (neg : bool) n,
      search offset_re content = Some [(if neg then txt "-" else []) ++ n] /\
      Lines.run isdigit n /\
      extract_offset content =
        if (PyNum.int_max_str_digits <? length n)%nat
        then Raise ValueError
        else Ok (if neg then - PyNum.digits_val n else PyNum.digits_val n)).
Proof.
  unfold extract_offset.
  destruct (search offset_re content) as [gs|] eqn:Hs; [right|by left].
  pose proof Hs as Hs'.
  apply search_inv in Hs' as (s' & rest & Hm).
  apply offset_groups in Hm as (sign & c & ds & -> & Hsign & Hc & Hds).
  assert (exists neg : bool, sign = if neg then txt "-" else []) as [neg ->].
  { destruct Hsign as [-> | ->]; [by exists false|by exists true]. }
  exists neg, (c :: ds). split; [reflexivity|].
  split; [split; [discriminate|by constructor]|].
  change (group [(if neg then txt "-" else []) ++ c :: ds] 1)
    with ((if neg then txt "-" else []) ++ c :: ds).
  by apply int_digit_run.
Qed.

(** Peeling the conversions of a parsed log. *)
Ltac conversions :=
  repeat first
    [ progress cbn [mbind result_bind mret result_ret]
    | match goal with
      | |- context [(?a <? ?b)%nat] => destruct (a <? b)%nat eqn:?
      end ].

(** Parsing a log raises nothing but [ValueError]. *)
Lemma parse_content_raises (content : text) (e : exn) :
  parse_content content = Raise e -> e = ValueError.
Proof.
  unfold parse_content.
  destruct (extract_boot_cases (remove_ansi_codes content))
    as [[_ ->]|(g1 & n & _ & _ & ->)];
  destruct (extract_offset_cases (remove_ansi_codes content))
    as [[_ ->]|(neg & n' & _ & _ & ->)];
  try (destruct (PyNum.float g1) as [b|e'] eqn:Hf;
       [|apply PyFacts.float_raises in Hf; subst e']);
  conversions; congruence.
Qed.

(** Parsing a log returns exactly when its numbers convert. *)
Lemma parse_content_returns (content : text) :
  (exists e, parse_content content = Ok e) <-> Increase.fields_convert content.
Proof.
  unfold parse_content, Increase.fields_convert, Increase.boot_field,
    Increase.called_field, Increase.offset_field.
  destruct (extract_boot_cases (remove_ansi_codes content))
    as [[Hb ->]|(g1 & n & Hb & [_ Hn] & ->)];
  destruct (extract_offset_cases (remove_ansi_codes content))
    as [[Ho ->]|(neg & n' & Ho & [_ Hn'] & ->)];
  rewrite Hb, Ho; cbn [fmap option_fmap option_map];
  try change (group [g1; n] 1) with g1;
  try change (group [g1; n] 2) with n;
  try change (group [(if neg then txt "-" else []) ++ n'] 1)
        with ((if neg then txt "-" else []) ++ n').
  - split; [|by eauto]. intros _. repeat split; intros field [=].
  - rewrite <- (digit_count_run neg n' Hn'). split.
    + intros [e He]. repeat split; try (intros field [=]; fail).
      intros field [= <-]. cbn [mbind result_bind] in He.
      destruct (_ <? _)%nat eqn:E; [discriminate|].
      by apply Nat.ltb_ge.
    + intros (_ & _ & Hoff). specialize (Hoff _ eq_refl).
      apply Nat.ltb_ge in Hoff. rewrite Hoff. cbn [mbind result_bind]. eauto.
  - rewrite <- (digit_count_run false n Hn).
    change (([] : text) ++ n) with n. split.
    + intros [e He]. repeat split; try (intros field [=]; fail).
      * intros field [= <-].
        destruct (PyNum.float g1); [eauto|discriminate].
      * intros field [= <-].
        destruct (PyNum.float g1); [|discriminate].
        cbn [mbind result_bind] in He.
        destruct (_ <? _)%nat eqn:E; [discriminate|]. by apply Nat.ltb_ge.
    + intros (Hboot & Hcall & _).
      destruct (Hboot _ eq_refl) as [b ->]. specialize (Hcall _ eq_refl).
      apply Nat.ltb_ge in Hcall. cbn [mbind result_bind]. rewrite Hcall.
      cbn [mbind result_bind]. eauto.
  - rewrite <- (digit_count_run false n Hn), <- (digit_count_run neg n' Hn').
    change (([] : text) ++ n) with n. split.
    + intros [e He]. repeat split.
      * intros field [= <-].
        destruct (PyNum.float g1); [eauto|discriminate].
      * intros field [= <-].
        destruct (PyNum.float g1); [|discriminate].
        cbn [mbind result_bind] in He.
        destruct (_ <? Increase.digit_count n)%nat eqn:E; [discriminate|].
        by apply Nat.ltb_ge.
      * intros field [= <-].
        destruct (PyNum.float g1); [|discriminate].
        cbn [mbind result_bind] in He.
        destruct (_ <? Increase.digit_count n)%nat; [discriminate|].
        cbn [mbind result_bind] in He.
        destruct (_ <? _)%nat eqn:E; [discriminate|].
        by apply Nat.ltb_ge.
    + intros (Hboot & Hcall & Hoff).
      destruct (Hboot _ eq_refl) as [b ->].
      specialize (Hcall _ eq_refl). specialize (Hoff _ eq_refl).
      apply Nat.ltb_ge in Hcall, Hoff. cbn [mbind result_bind].
      rewrite Hcall. cbn [mbind result_bind]. rewrite Hoff.
      cbn [mbind result_bind]. eauto.
Qed.

Lemma convert_parsable (fs : filesystem) (NUM_ENV NUM_SMP : nat) :
  Increase.numbers_convert fs NUM_ENV NUM_SMP <->
  Increase.parsable fs NUM_ENV NUM_SMP.
Proof.
  unfold Increase.numbers_convert, Increase.parsable, parse_log.
  split; intros H env smp raw Henv Hsmp Hfs;
    apply parse_content_returns; by eapply H.
Qed.

End RegexFacts.

(** ** The data collection of [draw_increase_merge.py] *)
Module IncreaseMergeFacts.
Import Py Increase MergeFacts.
Import DrawIncreaseMerge.

(** The loop body parses as [draw_increase.py] does. *)
Lemma smp_step_parse (fs : filesystem) (env smp : nat) (t : tables) :
  smp_step fs env smp t =
  if negb (exists_ fs (logfile env smp)) then Ok t
  else
    raw ← open_ fs (logfile env smp);
    e ← DrawIncrease.parse_log raw;
    Ok {| boot_data := set_cell env smp (DrawIncrease.boot e) (boot_data t);
          called_data := set_cell env smp (DrawIncrease.called e) (called_data t);
          offset_data := set_cell env smp (DrawIncrease.offset e) (offset_data t) |}.
Proof.
  unfold smp_step.
  destruct (negb (exists_ fs (logfile env smp))); [reflexivity|].
  destruct (open_ fs (logfile env smp)) as [raw|]; [|reflexivity]. simpl.
  unfold DrawIncrease.parse_log, DrawIncrease.parse_content,
    DrawIncrease.extract_boot, DrawIncrease.extract_offset.
  change (remove_ansi_codes (file_read raw))
    with (DrawIncrease.remove_ansi_codes (file_read raw)).
  change boot_re with DrawIncrease.boot_re.
  change offset_re with DrawIncrease.offset_re.
  destruct (Re.search DrawIncrease.boot_re _) as [bm|]; simpl.
  - destruct (PyNum.float (Re.group bm 1)) as [b|]; [|reflexivity]. simpl.
    destruct (PyNum.int (Re.group bm 2)) as [c|]; [|reflexivity]. simpl.
    destruct (Re.search DrawIncrease.offset_re _) as [om|]; [|reflexivity].
    destruct (PyNum.int (Re.group om 1)); reflexivity.
  - destruct (Re.search DrawIncrease.offset_re _) as [om|]; [|reflexivity].
    destruct (PyNum.int (Re.group om 1)); reflexivity.
Qed.

Lemma set_cell_lookup {A} (env smp env' : nat) (x : A) (m : gmap nat (list A)) :
  set_cell env smp x m !! env' =
  if decide (env' = env) then (fun row => <[(smp - 1)%nat := x]> row) <$> m !! env'
  else m !! env'.
Proof.
  unfold set_cell. destruct (decide (env' = env)) as [->|Hne].
  - apply lookup_alter_eq.
  - by apply lookup_alter_ne.
Qed.

(** One round of the inner loop. *)
Lemma tables_smp_step (fs : filesystem) (env smp : nat) (t : tables) :
  (forall raw, fs (logfile env smp) = Some raw ->
               exists e, DrawIncrease.parse_log raw = Ok e) ->
  exists t',
    smp_step fs env smp t = Ok t' /\
    forall A (c : col A) env',
      get c t' !! env' =
      if decide (env' = env) then upd c fs env smp <$> get c t !! env'
      else get c t !! env'.
Proof.
  intros Hp. rewrite smp_step_parse. unfold upd, entry_of, open_.
  change (DrawIncrease.logfile env smp) with (logfile env smp).
  destruct (fs (logfile env smp)) as [raw|] eqn:Hfs.
  - rewrite (exists_Some _ _ _ Hfs). simpl.
    destruct (Hp raw eq_refl) as [e ->]. simpl.
    eexists. split; [reflexivity|].
    intros A c env'. destruct c; simpl; apply set_cell_lookup.
  - rewrite (exists_None _ _ Hfs). simpl.
    exists t. split; [reflexivity|].
    intros A c env'. destruct (decide (env' = env)); [|reflexivity].
    destruct (get c t !! env'); reflexivity.
Qed.

Lemma tables_smp_loop (fs : filesystem) (env : nat) (smps : list nat) (t : tables) :
  (forall smp raw, smp ∈ smps -> fs (logfile env smp) = Some raw ->
                   exists e, DrawIncrease.parse_log raw = Ok e) ->
  exists t',
    smp_loop fs env smps t = Ok t' /\
    forall A (c : col A) env',
      get c t' !! env' =
      if decide (env' = env) then fill c fs env smps <$> get c t !! env'
      else get c t !! env'.
Proof.
  revert t. induction smps as [|smp smps IH]; intros t Hp.
  - exists t. split; [reflexivity|]. intros A c env'.
    destruct (decide (env' = env)); [|reflexivity].
    destruct (get c t !! env'); reflexivity.
  - destruct (tables_smp_step fs env smp t) as (t1 & Hstep & H1).
    { intros raw. apply Hp. by left. }
    destruct (IH t1) as (t' & Hloop & H').
    { intros smp' raw Hin. apply Hp. by right. }
    exists t'. simpl. rewrite Hstep. simpl. split; [exact Hloop|].
    intros A c env'. rewrite H', H1.
    destruct (decide (env' = env)); [|reflexivity].
    destruct (get c t !! env'); reflexivity.
Qed.

Lemma tables_env_loop (fs : filesystem) (NUM_SMP : nat) (envs : list nat)
    (t : tables) :
  NoDup envs ->
  (forall env smp raw, env ∈ envs -> (1 <= smp <= NUM_SMP)%nat ->
     fs (logfile env smp) = Some raw ->
     exists e, DrawIncrease.parse_log raw = Ok e) ->
  exists t',
    env_loop fs NUM_SMP envs t = Ok t' /\
    forall A (c : col A) env,
      get c t' !! env =
      if decide (env ∈ envs)
      then fill c fs env (seq 1 NUM_SMP) <$> get c t !! env
      else get c t !! env.
Proof.
  revert t. induction envs as [|e envs IH]; intros t Hnd Hp.
  - exists t. split; [reflexivity|]. intros A c env.
    rewrite decide_False; [reflexivity|apply not_elem_of_nil].
  - apply NoDup_cons in Hnd as [Hnin Hnd].
    destruct (tables_smp_loop fs e (seq 1 NUM_SMP) t) as (t1 & Hsmp & H1).
    { intros smp raw Hin. apply Hp; [by left|].
      apply elem_of_seq in Hin. lia. }
    destruct (IH t1 Hnd) as (t' & Hloop & H').
    { intros env smp raw Hin. apply Hp. by right. }
    exists t'. simpl. rewrite Hsmp. simpl. split; [exact Hloop|].
    intros A c env. rewrite H', H1.
    destruct (decide (env = e)) as [->|Hne].
    + rewrite (decide_False (P := e ∈ envs)) by exact Hnin.
      rewrite decide_True by (by left). reflexivity.
    + destruct (decide (env ∈ envs)) as [Hin|Hnin'].
      * rewrite decide_True by (by right). reflexivity.
      * rewrite decide_False; [reflexivity|].
        intros Hin. apply elem_of_cons in Hin as [?|?]; contradiction.
Qed.

(** The tables before the loops. *)
Lemma filled_lookup {A} (x : A) (NUM_ENV NUM_SMP env : nat) :
  filled x NUM_ENV NUM_SMP !! env =
  if decide (1 <= env <= NUM_ENV)%nat then Some (replicate NUM_SMP x) else None.
Proof.
  unfold filled.
  assert (forall envs (m : gmap nat (list A)),
             fold_left (fun table e => <[e := replicate NUM_SMP x]> table) envs m
               !! env
             = if decide (env ∈ envs) then Some (replicate NUM_SMP x)
               else m !! env) as H.
  { induction envs as [|e envs IH]; intros m.
    - rewrite decide_False; [reflexivity|apply not_elem_of_nil].
    - simpl. rewrite IH.
      destruct (decide (env ∈ envs)) as [Hin|Hnin].
      + rewrite decide_True; [reflexivity|by right].
      + destruct (decide (env = e)) as [->|Hne].
        * rewrite decide_True by (by left). apply lookup_insert_eq.
        * rewrite decide_False.
          -- by apply lookup_insert_ne.
          -- intros Hin. apply elem_of_cons in Hin as [?|?]; contradiction. }
  rewrite H.
  destruct (decide (1 <= env <= NUM_ENV)%nat) as [Hr|Hr].
  - rewrite decide_True; [reflexivity|]. apply elem_of_seq. lia.
  - rewrite decide_False; [apply lookup_empty|].
    intros Hin. apply elem_of_seq in Hin. lia.
Qed.

(** Handling the SMP values 1 to [k] fills the first [k] places. *)
Lemma fill_prefix {A} (c : col A) (fs : filesystem) (env NUM_SMP k : nat) :
  (k <= NUM_SMP)%nat ->
  fill c fs env (seq 1 k) (replicate NUM_SMP (val c DrawIncrease.default_entry))
  = ((fun smp => val c (entry_of fs smp env)) <$> seq 1 k)
    ++ replicate (NUM_SMP - k) (val c DrawIncrease.default_entry).
Proof.
  induction k as [|k IH]; intros Hk.
  - simpl. by rewrite Nat.sub_0_r.
  - rewrite seq_S. unfold fill in *. rewrite fold_left_app, IH by lia.
    change (1 + k)%nat with (S k). cbn [fold_left].
    rewrite fmap_app, <- app_assoc. cbn [fmap list_fmap app].
    replace (NUM_SMP - k)%nat with (S (NUM_SMP - S k)) by lia.
    unfold upd. replace (S k - 1)%nat with k by lia.
    remember ((fun smp => val c (entry_of fs smp env)) <$> seq 1 k) as L.
    assert (HL : length L = k) by (subst L; by rewrite length_fmap, length_seq).
    destruct (fs (DrawIncrease.logfile env (S k))) as [raw|] eqn:Hfs.
    + rewrite (exists_Some _ _ _ Hfs).
      rewrite insert_app_r_alt by lia.
      replace (k - length L)%nat with 0%nat by lia. reflexivity.
    + rewrite (exists_None _ _ Hfs). unfold entry_of.
      rewrite Hfs. reflexivity.
Qed.

Lemma fill_all {A} (c : col A) (fs : filesystem) (env NUM_SMP : nat) :
  fill c fs env (seq 1 NUM_SMP)
    (replicate NUM_SMP (val c DrawIncrease.default_entry))
  = merge_row c fs NUM_SMP env.
Proof.
  rewrite fill_prefix by lia. rewrite Nat.sub_diag. simpl.
  by rewrite app_nil_r.
Qed.

(** The collection as a whole. *)
Lemma collect_rows (fs : filesystem) (NUM_ENV NUM_SMP : nat) :
  parsable fs NUM_ENV NUM_SMP ->
  exists t,
    collect fs NUM_ENV NUM_SMP = Ok t /\
    forall A (c : col A) env,
      get c t !! env =
      if decide (1 <= env <= NUM_ENV)%nat
      then Some (merge_row c fs NUM_SMP env) else None.
Proof.
  intros Hp. unfold collect.
  match goal with
  | |- context [env_loop _ _ _ ?t] => set (t0 := t)
  end.
  destruct (tables_env_loop fs NUM_SMP (seq 1 NUM_ENV) t0) as (t & Hloop & Hlook).
  { apply NoDup_seq. }
  { intros env smp raw Hin Hsmp. apply Hp; [|exact Hsmp].
    apply elem_of_seq in Hin. lia. }
  exists t. split; [exact Hloop|]. intros A c env. rewrite Hlook.
  assert (get c t0 !! env =
          if decide (1 <= env <= NUM_ENV)%nat
          then Some (replicate NUM_SMP (val c DrawIncrease.default_entry))
          else None) as ->.
  { destruct c; apply filled_lookup. }
  destruct (decide (1 <= env <= NUM_ENV)%nat) as [Hr|Hr].
  - rewrite decide_True by (apply elem_of_seq; lia). simpl.
    by rewrite fill_all.
  - rewrite decide_False; [reflexivity|].
    intros Hin. apply elem_of_seq in Hin. lia.
Qed.

End IncreaseMergeFacts.

(** ** The embedding on concrete inputs *)
Module Tests.
Import Py.

Example strip_both_ends : strip (txt "  ab c  ") = txt "ab c".
Proof. reflexivity. Qed.

Example split_keeps_empty_parts :
  split "," (txt "a,,b") = [txt "a"; []; txt "b"].
Proof. reflexivity. Qed.

Example split_ws_drops_runs :
  split_ws (txt "  4  0.100 1000 ") = [txt "4"; txt "0.100"; txt "1000"].
Proof. reflexivity. Qed.

Example lines_keep_terminator :
  file_lines ([CR; LF] ++ txt "a" ++ [CR] ++ txt "b")
  = [[LF]; txt "a" ++ [LF]; txt "b"].
Proof. reflexivity. Qed.

Example one_tenth :
  Float.of_decimal false 1 (-1) = S754_finite false 7205759403792794 (-56).
Proof. vm_compute. reflexivity. Qed.

Example largest_double :
  Float.of_decimal false 17976931348623157 292
  = S754_finite false 9007199254740991 971 /\
  Float.of_decimal false 17976931348623159 292 = S754_infinity false.
Proof. split; vm_compute; reflexivity. Qed.

Example smallest_double :
  Float.of_decimal false 5 (-324) = S754_finite false 1 (-1074) /\
  Float.of_decimal false 2 (-324) = S754_zero false.
Proof. split; vm_compute; reflexivity. Qed.

Example float_accepts :
  PyNum.float (txt " 3.5 ") = Ok (Float.of_decimal false 35 (-1)) /\
  PyNum.float (txt "1e9") = Ok (Float.of_Z 1000000000) /\
  PyNum.float (txt ".5") = Ok (Float.of_decimal false 5 (-1)) /\
  PyNum.float (txt "1_000") = Ok (Float.of_Z 1000) /\
  PyNum.float (txt "-0.0") = Ok (S754_zero true) /\
  PyNum.float (txt "-Inf") = Ok (S754_infinity true) /\
  PyNum.float (txt "nan") = Ok S754_nan.
Proof. repeat split; vm_compute; reflexivity. Qed.

Example float_rejects :
  PyNum.float (txt "3..5") = Raise ValueError /\
  PyNum.float (txt ".") = Raise ValueError /\
  PyNum.float (txt "1e") = Raise ValueError /\
  PyNum.float (txt "1__0") = Raise ValueError /\
  PyNum.float (txt "") = Raise ValueError /\
  PyNum.float (txt "0x10") = Raise ValueError.
Proof. repeat split; vm_compute; reflexivity. Qed.

Example int_accepts_and_rejects :
  PyNum.int (txt " 007 ") = Ok 7 /\
  PyNum.int (txt "-3") = Ok (-3) /\
  PyNum.int (txt "4.0") = Raise ValueError /\
  PyNum.int (txt "SMP") = Raise ValueError.
Proof. repeat split; vm_compute; reflexivity. Qed.

Example int_digit_limit :
  (exists z, PyNum.int (replicate 4300 "1"%char) = Ok z) /\
  PyNum.int (replicate 4301 "1"%char) = Raise ValueError /\
  PyNum.int (replicate 4301 "0"%char) = Raise ValueError /\
  PyNum.int ("-"%char :: replicate 4301 "1"%char) = Raise ValueError.
Proof.
  split; [eexists; vm_compute; reflexivity|].
  repeat split; vm_compute; reflexivity.
Qed.

Example boot_line_groups :
  Re.search DrawIncrease.boot_re
    (txt "[SEMU LOG]: boot TIME:3.5   seconds, called 100 times x")
  = Some [txt "3.5"; txt "100"].
Proof. vm_compute. reflexivity. Qed.

Example offset_first_match :
  DrawIncrease.extract_offset (txt "offset: - 5, offset: -7, offset: 9")
  = Ok (-7).
Proof. vm_compute. reflexivity. Qed.

Example well_formed_log :
  DrawIncrease.parse_log Examples.good_log
  = Ok {| DrawIncrease.boot := Float.of_decimal false 35 (-1);
          DrawIncrease.called := 100;
          DrawIncrease.offset := -42 |}.
Proof. vm_compute. reflexivity. Qed.

Example no_match_gives_defaults :
  DrawIncrease.parse_log (txt "nothing to see") = Ok DrawIncrease.default_entry.
Proof. vm_compute. reflexivity. Qed.

Example merged_tables :
  (t ← DrawIncreaseMerge.collect Examples.good_log_fs 1 2;
   Ok (DrawIncreaseMerge.boot_data t !! 1%nat,
       DrawIncreaseMerge.called_data t !! 1%nat,
       DrawIncreaseMerge.offset_data t !! 1%nat))
  = Ok (Some [Float.of_decimal false 35 (-1); Float.of_Z 0],
        Some [100; 0], Some [-42; 0]).
Proof. vm_compute. reflexivity. Qed.

Example event_line_values :
  TimeLog.ns_value (txt "diff: 1000, total: 500")
    = Some (Float.of_decimal false 25 (-5)) /\
  TimeLog.perc_value (txt "diff: 1000, total: 500")
    = Some (Float.of_decimal false 5 (-1)).
Proof. split; vm_compute; reflexivity. Qed.

Example event_line_above_threshold :
  TimeLog.ns_value (txt "diff: 1000, total: 200000000") = None /\
  TimeLog.perc_value (txt "diff: 1000, total: 200000000") = None /\
  TimeLog.ns_value (txt "diff: 1000, total: 100000000")
    = Some (Float.of_Z 50).
Proof. repeat split; vm_compute; reflexivity. Qed.

Example event_line_malformed :
  TimeLog.ns_value (txt "diff: 100") = None /\
  TimeLog.ns_value (txt "diff: 100, total: abc") = None /\
  TimeLog.ns_value (txt "total: 60, diff: 100") = None.
Proof. repeat split; vm_compute; reflexivity. Qed.

End Tests.

(** ** [main] of [draw_scaled.py] *)
Module ScaledFacts.
Import Py DrawScaled PyFacts TimeLogFacts SummaryFacts MergeFacts.

Lemma parse_results_table (fs : filesystem) (i : nat) (content : text) :
  fs (summary_file i) = Some content ->
  parse_results_summary fs (summary_file i) = Ok (ScaledCell.table fs i).
Proof.
  intros H. unfold parse_results_summary, open_, ScaledCell.table.
  rewrite H. simpl. apply scaled_loop_store.
Qed.

(** A call that raises is not quiet. *)
Ltac outside_call H :=
  match goal with
  | |- context [makedirs ?out ?a] =>
      destruct (makedirs out a) as [[]|?] eqn:H
  | |- context [ns_figure ?out ?a ?b ?c ?d ?e] =>
      destruct (ns_figure out a b c d e) as [[]|?] eqn:H
  | |- context [perc_plot ?out ?a] =>
      destruct (perc_plot out a) as [[]|?] eqn:H
  | |- context [perc_figure ?out ?a ?b ?c] =>
      destruct (perc_figure out a b c) as [[]|?] eqn:H
  | |- context [trend_ns_figure ?out ?a ?b ?c ?d] =>
      destruct (trend_ns_figure out a b c d) as [[]|?] eqn:H
  | |- context [trend_perc_figure ?out ?a ?b ?c ?d] =>
      destruct (trend_perc_figure out a b c d) as [[]|?] eqn:H
  end;
  cbn [mbind result_bind];
  [|try (intros (Hq1 & Hq2 & Hq3 & Hq4 & Hq5 & Hq6);
         rewrite ?Hq1, ?Hq2, ?Hq3, ?Hq4, ?Hq5, ?Hq6 in H; discriminate H)].

(** One round of the inner loop appends the two averages of the
    cell, unless a figure raises. *)
Lemma scaled_smp_step (out : outside) (fs : filesystem) (i smp : nat)
    (acc : list spec_float * list spec_float) :
  match smp_step out fs (ScaledCell.table fs i) i smp acc with
  | Ok acc' => acc' = (acc.1 ++ [ScaledCell.avg_ns fs i smp],
                       acc.2 ++ [ScaledCell.avg_perc fs i smp])
  | Raise _ => ~ DrawScaledMain.quiet out
  end.
Proof.
  destruct acc as [a b]. unfold smp_step, ScaledCell.avg_ns, ScaledCell.avg_perc.
  destruct (ScaledCell.table fs i !! Z.of_nat smp) as [predicted|]; [|reflexivity].
  unfold ScaledCell.ns_vals, ScaledCell.perc_vals.
  destruct (fs (time_log_path i smp)) as [content|] eqn:Hfs.
  2: { rewrite (exists_None _ _ Hfs). reflexivity. }
  rewrite (exists_Some _ _ _ Hfs). cbn [negb].
  rewrite (parse_ns_values _ _ _ Hfs), (parse_perc_values _ _ _ Hfs).
  cbn [mbind result_bind].
  destruct (omap TimeLog.ns_value (file_lines content)) as [|v vs] eqn:Ens;
    destruct (omap TimeLog.perc_value (file_lines content)) as [|w ws] eqn:Eperc;
    rewrite ?(average_mean (v :: vs)), ?(average_mean (w :: ws)) by discriminate;
    cbn [mbind result_bind].
  - reflexivity.
  - outside_call H1. outside_call H2. reflexivity.
  - outside_call H1. reflexivity.
  - outside_call H1. outside_call H2. outside_call H3. reflexivity.
Qed.

Lemma scaled_smp_loop (out : outside) (fs : filesystem) (i : nat)
    (smps : list nat) (acc : list spec_float * list spec_float) :
  match smp_loop out fs (ScaledCell.table fs i) i smps acc with
  | Ok acc' => acc' = (acc.1 ++ (ScaledCell.avg_ns fs i <$> smps),
                       acc.2 ++ (ScaledCell.avg_perc fs i <$> smps))
  | Raise _ => ~ DrawScaledMain.quiet out
  end.
Proof.
  revert acc. induction smps as [|smp smps IH]; intros acc.
  - destruct acc. simpl. by rewrite !app_nil_r.
  - cbn [smp_loop]. pose proof (scaled_smp_step out fs i smp acc) as Hstep.
    destruct (smp_step out fs (ScaledCell.table fs i) i smp acc) as [acc'|e];
      cbn [mbind result_bind]; [|exact Hstep].
    subst acc'. specialize (IH (acc.1 ++ [ScaledCell.avg_ns fs i smp],
                                acc.2 ++ [ScaledCell.avg_perc fs i smp])).
    destruct (smp_loop _ _ _ _ _ _) as [acc''|e]; [|exact IH].
    rewrite IH. cbn [fst snd fmap list_fmap]. by rewrite <- !app_assoc.
Qed.

(** The trend lists of a set, whenever the loop leaves them. *)
Lemma main_set_trends (out : outside) (fs : filesystem) (num_smp i : nat) :
  is_Some (fs (summary_file i)) ->
  match main_set out fs num_smp i with
  | Ok trends => trends = (ScaledCell.avg_ns fs i <$> seq 1 num_smp,
                           ScaledCell.avg_perc fs i <$> seq 1 num_smp)
  | Raise _ => ~ DrawScaledMain.quiet out
  end.
Proof.
  intros [content Hfs]. unfold main_set.
  rewrite (parse_results_table _ _ _ Hfs). cbn [mbind result_bind].
  apply (scaled_smp_loop out fs i (seq 1 num_smp) ([], [])).
Qed.


Lemma main_set_missing (out : outside) (fs : filesystem) (num_smp i : nat) :
  fs (summary_file i) = None ->
  main_set out fs num_smp i = Raise FileNotFoundError.
Proof.
  intros H. unfold main_set, parse_results_summary, open_. rewrite H.
  reflexivity.
Qed.

Lemma main_set_returned (out : outside) (fs : filesystem) (num_smp i : nat)
    (trends : list spec_float * list spec_float) :
  main_set out fs num_smp i = Ok trends ->
  is_Some (fs (summary_file i)) /\
  trends = (ScaledCell.avg_ns fs i <$> seq 1 num_smp,
            ScaledCell.avg_perc fs i <$> seq 1 num_smp).
Proof.
  intros H. destruct (fs (summary_file i)) as [content|] eqn:Hfs.
  - split; [eauto|].
    pose proof (main_set_trends out fs num_smp i) as Ht.
    rewrite H in Ht. apply Ht. rewrite Hfs. eauto.
  - rewrite (main_set_missing _ _ _ _ Hfs) in H. discriminate.
Qed.




(** The same for the outer loop of [draw_scaled_merge.py]. *)
Lemma merge_env_loop_missing (fs : filesystem) (NUM_SMP : nat)
    (envs : list nat) (ms : DrawScaledMerge.matrices) (env : nat) :
  env ∈ envs -> fs (DrawScaledMerge.summary_path env) = None ->
  DrawScaledMerge.env_loop fs NUM_SMP envs ms = Raise FileNotFoundError.
Proof.
  revert ms. induction envs as [|e envs IH]; intros ms Hin Hmiss.
  - by apply elem_of_nil in Hin.
  - simpl. destruct (fs (DrawScaledMerge.summary_path e)) as [content|] eqn:He.
    + destruct (env_step_spec fs NUM_SMP e ms) as (ms1 & Hstep & _).
      { rewrite He. eauto. }
      rewrite Hstep. simpl. apply IH; [|exact Hmiss].
      apply elem_of_cons in Hin as [->|Hin]; [congruence|exact Hin].
    + rewrite (env_step_missing _ _ _ _ He). reflexivity.
Qed.

Lemma merge_collect_returned (fs : filesystem) (NUM_ENV NUM_SMP : nat)
    (ms : DrawScaledMerge.matrices) :
  DrawScaledMerge.collect fs NUM_ENV NUM_SMP = Ok ms ->
  forall env, (1 <= env <= NUM_ENV)%nat ->
              is_Some (fs (DrawScaledMerge.summary_path env)).
Proof.
  intros H env Henv.
  destruct (fs (DrawScaledMerge.summary_path env)) as [content|] eqn:E; [eauto|].
  unfold DrawScaledMerge.collect in H.
  rewrite (merge_env_loop_missing _ _ _ _ env) in H; [discriminate| |exact E].
  apply elem_of_seq. lia.
Qed.

(** Both scripts read the same files. *)
Lemma same_ns_vals (fs : filesystem) (i smp : nat) :
  ScaledCell.ns_vals fs i smp = Cell.ns_vals fs i smp.
Proof. reflexivity. Qed.

Lemma same_perc_vals (fs : filesystem) (i smp : nat) :
  ScaledCell.perc_vals fs i smp = Cell.perc_vals fs i smp.
Proof. reflexivity. Qed.

(** A line with an entry for [draw_scaled_merge.py] has one for
    [draw_scaled.py], under the same key. *)
Lemma row_gives_pair (l : text) (k : Z) (r : DrawScaledMerge.summary_row) :
  Summary.row_of_line l = Some (k, r) ->
  Summary.pair_of_line l
  = Some (k, DrawScaledMerge.row_predicted_ns_per_call r).
Proof.
  unfold Summary.row_of_line, Summary.pair_of_line.
  destruct (_ || _); [discriminate|].
  destruct (bool_decide _); [discriminate|].
  destruct (_ <=? _)%nat; [|discriminate].
  destruct (DrawScaledMerge.summary_try _) as [kv|] eqn:Htry; [|discriminate].
  intros [= ->]. apply merge_try_ok in Htry as (H0 & _ & _ & H3 & _).
  assert (summary_try (split_ws (strip l))
          = Ok (k, DrawScaledMerge.row_predicted_ns_per_call r)) as ->
    by (apply scaled_try_ok; tauto).
  reflexivity.
Qed.

Lemma store_is_Some {V} (kvs : list (Z * V)) (d : gmap Z V) (k : Z) :
  is_Some (Summary.store kvs d !! k) <->
  (exists v, (k, v) ∈ kvs) \/ is_Some (d !! k).
Proof.
  revert d. induction kvs as [|[k' v'] kvs IH]; intros d; simpl.
  - split; [by right|]. intros [[v Hv]|H]; [by apply elem_of_nil in Hv|exact H].
  - rewrite IH. simpl. split.
    + intros [[v Hv]|H].
      * left. exists v. by right.
      * destruct (decide (k' = k)) as [->|Hne].
        -- left. exists v'. by left.
        -- rewrite lookup_insert_ne in H by exact Hne. by right.
    + intros [[v Hv]|H].
      * apply elem_of_cons in Hv as [[= -> ->]|Hv].
        -- right. rewrite lookup_insert_eq. eauto.
        -- left. eauto.
      * right. destruct (decide (k' = k)) as [->|Hne].
        -- rewrite lookup_insert_eq. eauto.
        -- by rewrite lookup_insert_ne.
Qed.

(** A cell of a matrix of [draw_scaled_merge.py]. *)
Lemma collect_cell (fs : filesystem) (NUM_ENV NUM_SMP : nat)
    (name : DrawScaledMerge.metric) (env smp : nat) :
  (forall e, (1 <= e <= NUM_ENV)%nat ->
             is_Some (fs (DrawScaledMerge.summary_path e))) ->
  (1 <= env <= NUM_ENV)%nat -> (1 <= smp <= NUM_SMP)%nat ->
  Grid.cell (DrawScaledMerge.collect fs NUM_ENV NUM_SMP) name env smp
  = Some (Cell.value fs (Cell.table fs env) env name smp).
Proof.
  intros Hfs Henv Hsmp.
  destruct (collect_spec fs NUM_ENV NUM_SMP Hfs) as (ms & Hc & Hlook).
  unfold Grid.cell. rewrite Hc, Hlook, decide_True by exact Henv.
  simpl. unfold Cell.row.
  rewrite list_lookup_fmap, lookup_seq_lt by lia.
  replace (1 + (smp - 1))%nat with smp by lia. reflexivity.
Qed.

(** A line with a percentage value has an ns_per_call value. *)
Lemma no_ns_no_perc (lines : list text) :
  omap TimeLog.ns_value lines = [] -> omap TimeLog.perc_value lines = [].
Proof.
  induction lines as [|l lines IH]; [reflexivity|].
  rewrite !omap_cons. intros H. apply app_eq_nil in H as [Hl H].
  rewrite (IH H), app_nil_r.
  destruct (TimeLog.perc_value l) as [v|] eqn:Hp; [|reflexivity].
  exfalso. revert Hp Hl.
  rewrite perc_value_field, ns_value_field.
  destruct (TimeLog.is_diff_line l); [|discriminate].
  destruct (TimeLog.diff_field (strip l)) as [ds|]; [|discriminate].
  destruct (TimeLog.total_field (strip l)) as [ts|]; [|discriminate].
  destruct (PyNum.float ds) as [d|]; [|discriminate].
  destruct (PyNum.float ts) as [t|]; [|discriminate].
  destruct (Float.gtb t THRESHOLD); discriminate.
Qed.

(** The paths of the tables and of the logs differ. *)
Lemma summary_is_no_log (e env smp : nat) :
  DrawScaledMerge.summary_path e <> DrawScaledMerge.time_log_path env smp.
Proof.
  unfold DrawScaledMerge.summary_path, DrawScaledMerge.time_log_path,
    path_join, DrawScaledMerge.BASE_DIR, txt.
  cbn [list_ascii_of_string app]. discriminate.
Qed.

(** The value of a cell is read from the table of its environment
    and from its own log. *)
Lemma value_local (fs fs' : filesystem) (env smp : nat)
    (name : DrawScaledMerge.metric) :
  fs (DrawScaledMerge.summary_path env) = fs' (DrawScaledMerge.summary_path env) ->
  fs (DrawScaledMerge.time_log_path env smp)
    = fs' (DrawScaledMerge.time_log_path env smp) ->
  Cell.value fs (Cell.table fs env) env name smp
  = Cell.value fs' (Cell.table fs' env) env name smp.
Proof.
  intros Hs Hl.
  unfold Cell.value, Cell.table, Cell.ns_vals, Cell.perc_vals.
  rewrite Hs, Hl. reflexivity.
Qed.

(** Sums and means with a NaN. *)
Lemma add_nan_r (x : spec_float) : Float.add x S754_nan = S754_nan.
Proof. by destruct x. Qed.

Lemma sum_from_nan (values : list spec_float) :
  fold_left Float.add values S754_nan = S754_nan.
Proof. induction values as [|v values IH]; [reflexivity|exact IH]. Qed.

Lemma sum_with_nan (pre post : list spec_float) :
  sum (pre ++ S754_nan :: post) = S754_nan.
Proof.
  unfold sum. rewrite fold_left_app. simpl.
  rewrite add_nan_r. apply sum_from_nan.
Qed.

Lemma mean_with_nan (values : list spec_float) :
  S754_nan ∈ values -> TimeLog.mean values = S754_nan.
Proof.
  intros Hin. apply list_elem_of_split in Hin as (pre & post & ->).
  unfold TimeLog.mean. rewrite sum_with_nan.
  destruct pre; reflexivity.
Qed.

End ScaledFacts.
(** ** Reading line by line *)
Module NewlineFacts.
Import Py.

Lemma text_length_ind (P : text -> Prop) :
  (forall s, (forall t, (length t < length s)%nat -> P t) -> P s) ->
  forall s, P s.
Proof.
  intros H s. induction s as [s IH] using (induction_ltof1 _ (@length ascii)).
  apply H. exact IH.
Qed.

Lemma universal_newlines_cons (c : ascii) (s : text) :
  universal_newlines (c :: s) =
  if Ascii.eqb c CR then
    LF :: match s with
          | d :: s'' =>
              if Ascii.eqb d LF then universal_newlines s''
              else universal_newlines s
          | [] => []
          end
  else c :: universal_newlines s.
Proof. reflexivity. Qed.

(** A line feed ends what universal newlines can join. *)
Lemma universal_newlines_app_LF (a b : text) :
  universal_newlines (a ++ LF :: b)
  = universal_newlines (a ++ [LF]) ++ universal_newlines b.
Proof.
  induction a as [a IH] using text_length_ind.
  destruct a as [|c a]; [reflexivity|].
  rewrite <- !app_comm_cons, !universal_newlines_cons.
  destruct (Ascii.eqb c CR).
  - destruct a as [|d a]; [reflexivity|].
    rewrite <- !app_comm_cons.
    destruct (Ascii.eqb d LF).
    + rewrite (IH a) by (simpl; lia). reflexivity.
    + rewrite !app_comm_cons, (IH (d :: a)) by (simpl; lia). reflexivity.
  - rewrite (IH a) by (simpl; lia). reflexivity.
Qed.

Lemma universal_newlines_ends_LF (a : text) :
  exists x, universal_newlines (a ++ [LF]) = x ++ [LF].
Proof.
  induction a as [a IH] using text_length_ind.
  destruct a as [|c a]; [by exists []|].
  rewrite <- app_comm_cons, universal_newlines_cons.
  destruct (Ascii.eqb c CR).
  - destruct a as [|d a]; [by exists []|].
    rewrite <- app_comm_cons.
    destruct (Ascii.eqb d LF).
    + destruct (IH a) as [x ->]; [simpl; lia|]. by exists (LF :: x).
    + rewrite app_comm_cons.
      destruct (IH (d :: a)) as [x ->]; [simpl; lia|]. by exists (LF :: x).
  - destruct (IH a) as [x ->]; [simpl; lia|]. by exists (c :: x).
Qed.

Lemma lines_from_app_LF (cur x y : text) :
  lines_from cur (x ++ LF :: y)
  = lines_from cur (x ++ [LF]) ++ lines_from [] y.
Proof.
  revert cur. induction x as [|c x IH]; intros cur; [reflexivity|].
  simpl. destruct (Ascii.eqb c LF); rewrite IH; reflexivity.
Qed.

(** The lines of a text that follows a terminated one. *)
Lemma file_lines_app (a b : text) :
  file_lines (a ++ LF :: b) = file_lines (a ++ [LF]) ++ file_lines b.
Proof.
  unfold file_lines. rewrite universal_newlines_app_LF.
  destruct (universal_newlines_ends_LF a) as [x ->].
  rewrite <- app_assoc. apply lines_from_app_LF.
Qed.

End NewlineFacts.

(** ** More on the removal of the escape codes *)
Module AnsiMore.
Import Py Re DrawIncrease Ansi AnsiFacts.

(** The removal, without its rounds. *)
Lemma remove_unfold (s : text) :
  remove_ansi_codes s =
  match after_escape s with
  | Some rest => remove_ansi_codes rest
  | None =>
      match s with
      | c :: s' => c :: remove_ansi_codes s'
      | [] => []
      end
  end.
Proof.
  unfold remove_ansi_codes, sub. rewrite remove_step.
  destruct (after_escape s) as [rest|] eqn:E.
  - destruct (after_escape_suffix _ _ E) as [pre ->].
    apply remove_fuel; simpl; rewrite ?length_app; lia.
  - destruct s as [|c s]; reflexivity.
Qed.

Lemma remove_sublist (s : text) : remove_ansi_codes s `sublist_of` s.
Proof.
  induction s as [s IH] using NewlineFacts.text_length_ind.
  rewrite remove_unfold. destruct (after_escape s) as [rest|] eqn:E.
  - destruct (after_escape_suffix _ _ E) as [pre ->].
    apply sublist_cons, sublist_inserts_l, IH.
    simpl. rewrite length_app. lia.
  - destruct s as [|c s]; [constructor|].
    apply sublist_skip, IH. simpl. lia.
Qed.

Lemma remove_fixed (s : text) :
  remove_ansi_codes s = s <->
  forall pre suf, s = pre ++ suf -> after_escape suf = None.
Proof.
  induction s as [|c s IH].
  - split; [|reflexivity].
    intros _ pre suf E. symmetry in E. apply app_eq_nil in E as [_ ->].
    reflexivity.
  - rewrite remove_unfold.
    destruct (after_escape (c :: s)) as [rest|] eqn:E.
    + split.
      * intros Hfix. exfalso.
        destruct (after_escape_suffix _ _ E) as [pre Hpre].
        pose proof (sublist_length _ _ (remove_sublist rest)) as Hlen.
        rewrite Hfix, Hpre in Hlen. simpl in Hlen.
        rewrite length_app in Hlen. lia.
      * intros Hall. rewrite (Hall [] (c :: s) eq_refl) in E. discriminate.
    + split.
      * intros [= Hfix] pre suf Hs.
        destruct pre as [|c' pre].
        -- simpl in Hs. by subst suf.
        -- injection Hs as _ ->. by apply (proj1 IH Hfix pre).
      * intros Hall. f_equal. apply IH.
        intros pre suf ->. by apply (Hall (c :: pre)).
Qed.

Lemma skip_all (p : ascii -> bool) (s : text) :
  Forall (fun c => p c = true) s -> skip p s = [].
Proof.
  induction 1 as [|c s Hc _ IH]; [reflexivity|]. simpl. by rewrite Hc.
Qed.

Lemma skip_app_stop (p : ascii -> bool) (a : text) (c : ascii) (X : text) :
  p c = false ->
  skip p (a ++ c :: X) =
  match skip p a with
  | [] => c :: X
  | d :: r => (d :: r) ++ c :: X
  end.
Proof.
  intros Hc. induction a as [|d a IH]; simpl; [by rewrite Hc|].
  destruct (p d); [exact IH|reflexivity].
Qed.

(** An ESC ends every sequence that is still open. *)
Lemma after_escape_app (c : ascii) (pre X : text) :
  after_escape ((c :: pre) ++ ESC :: X)
  = (fun r => r ++ ESC :: X) <$> after_escape (c :: pre).
Proof.
  unfold after_escape. destruct pre as [|c1 s2].
  - simpl. rewrite andb_false_r. reflexivity.
  - rewrite <- !app_comm_cons.
    destruct (Ascii.eqb c ESC && Ascii.eqb c1 "["); [|reflexivity].
    rewrite skip_app_stop by reflexivity.
    destruct (skip digit_or_semi s2) as [|d r]; [reflexivity|].
    rewrite <- app_comm_cons.
    destruct (Ascii.eqb d "m"); reflexivity.
Qed.

Lemma remove_app_esc (a X : text) :
  remove_ansi_codes (a ++ ESC :: X)
  = remove_ansi_codes a ++ remove_ansi_codes (ESC :: X).
Proof.
  induction a as [a IH] using NewlineFacts.text_length_ind.
  destruct a as [|c a]; [reflexivity|].
  rewrite (remove_unfold ((c :: a) ++ ESC :: X)), (remove_unfold (c :: a)).
  rewrite after_escape_app.
  destruct (after_escape (c :: a)) as [r|] eqn:E; simpl.
  - destruct (after_escape_suffix _ _ E) as [pre Hpre].
    apply IH. rewrite Hpre. simpl. rewrite length_app. lia.
  - f_equal. apply IH. simpl. lia.
Qed.

Lemma remove_sequence (params b : text) :
  Forall (fun c => digit_or_semi c = true) params ->
  remove_ansi_codes (ESC :: "["%char :: params ++ "m"%char :: b)
  = remove_ansi_codes b.
Proof.
  intros Hp. rewrite remove_unfold.
  assert (after_escape (ESC :: "["%char :: params ++ "m"%char :: b) = Some b) as ->.
  { unfold after_escape.
    rewrite skip_app_stop by reflexivity. rewrite (skip_all _ _ Hp).
    reflexivity. }
  reflexivity.
Qed.





End AnsiMore.

(** ** When the collections of the boot logs return *)
Module IncreaseMore.
Import Py DrawIncrease Increase MergeFacts.

Lemma parse_log_raises (raw : text) (e : exn) :
  parse_log raw = Raise e -> e = ValueError.
Proof. apply RegexFacts.parse_content_raises. Qed.

Lemma env_step_inv (fs : filesystem) (smp env : nat) (row : gmap nat entry) :
  match env_step fs smp env row with
  | Ok _ => forall raw, fs (logfile env smp) = Some raw ->
                        exists e, parse_log raw = Ok e
  | Raise e => e = ValueError /\
               exists raw, fs (logfile env smp) = Some raw /\
                           parse_log raw = Raise ValueError
  end.
Proof.
  unfold env_step, open_.
  destruct (fs (logfile env smp)) as [raw|] eqn:Hfs.
  - rewrite (exists_Some _ _ _ Hfs). simpl.
    destruct (parse_log raw) as [e|e] eqn:Hp; simpl.
    + intros raw' [= <-]. eauto.
    + pose proof (parse_log_raises _ _ Hp) as ->. eauto.
  - rewrite (exists_None _ _ Hfs). intros raw [=].
Qed.

Lemma env_loop_inv (fs : filesystem) (smp : nat) (envs : list nat)
    (row : gmap nat entry) :
  match env_loop fs smp envs row with
  | Ok _ => forall env raw, env ∈ envs -> fs (logfile env smp) = Some raw ->
                            exists e, parse_log raw = Ok e
  | Raise e => e = ValueError /\
               exists env raw, env ∈ envs /\ fs (logfile env smp) = Some raw /\
                               parse_log raw = Raise ValueError
  end.
Proof.
  revert row. induction envs as [|env envs IH]; intros row.
  - simpl. intros env raw Hin. by apply elem_of_nil in Hin.
  - simpl. pose proof (env_step_inv fs smp env row) as Hstep.
    destruct (env_step fs smp env row) as [row'|e]; simpl.
    + specialize (IH row').
      destruct (env_loop fs smp envs row') as [row''|e].
      * intros env' raw Hin. apply elem_of_cons in Hin as [->|Hin]; eauto.
      * destruct IH as (-> & env' & raw & Hin & Hfs & Hp).
        split; [reflexivity|]. exists env', raw. split; [by right|auto].
    + destruct Hstep as (-> & raw & Hfs & Hp).
      split; [reflexivity|]. exists env, raw. split; [by left|auto].
Qed.

Lemma smp_loop_inv (fs : filesystem) (NUM_ENV : nat) (smps : list nat)
    (data : gmap nat (gmap nat entry)) :
  match smp_loop fs NUM_ENV smps data with
  | Ok _ => forall env smp raw,
      (1 <= env <= NUM_ENV)%nat -> smp ∈ smps ->
      fs (logfile env smp) = Some raw -> exists e, parse_log raw = Ok e
  | Raise e => e = ValueError /\
               exists env smp raw,
                 (1 <= env <= NUM_ENV)%nat /\ smp ∈ smps /\
                 fs (logfile env smp) = Some raw /\
                 parse_log raw = Raise ValueError
  end.
Proof.
  revert data. induction smps as [|smp smps IH]; intros data.
  - simpl. intros env smp raw _ Hin. by apply elem_of_nil in Hin.
  - simpl. pose proof (env_loop_inv fs smp (seq 1 NUM_ENV) ∅) as Hrow.
    destruct (env_loop fs smp (seq 1 NUM_ENV) ∅) as [row|e]; simpl.
    + specialize (IH (<[smp := row]> data)).
      destruct (smp_loop fs NUM_ENV smps (<[smp := row]> data)) as [data'|e].
      * intros env smp' raw He Hin.
        apply elem_of_cons in Hin as [->|Hin]; [|by eauto].
        apply Hrow. apply elem_of_seq. lia.
      * destruct IH as (-> & env & smp' & raw & He & Hin & Hfs & Hp).
        split; [reflexivity|]. exists env, smp', raw.
        split; [exact He|]. split; [by right|auto].
    + destruct Hrow as (-> & env & raw & Hin & Hfs & Hp).
      split; [reflexivity|]. exists env, smp, raw.
      apply elem_of_seq in Hin.
      split; [lia|]. split; [by left|auto].
Qed.

(** The same for the loops of [draw_increase_merge.py]. *)
Lemma merge_smp_step_inv (fs : filesystem) (env smp : nat)
    (t : DrawIncreaseMerge.tables) :
  match DrawIncreaseMerge.smp_step fs env smp t with
  | Ok _ => forall raw, fs (logfile env smp) = Some raw ->
                        exists e, parse_log raw = Ok e
  | Raise e => e = ValueError /\
               exists raw, fs (logfile env smp) = Some raw /\
                           parse_log raw = Raise ValueError
  end.
Proof.
  rewrite IncreaseMergeFacts.smp_step_parse. unfold open_.
  change (DrawIncreaseMerge.logfile env smp) with (logfile env smp).
  destruct (fs (logfile env smp)) as [raw|] eqn:Hfs.
  - rewrite (exists_Some _ _ _ Hfs). simpl.
    destruct (parse_log raw) as [e|e] eqn:Hp; simpl.
    + intros raw' [= <-]. eauto.
    + pose proof (parse_log_raises _ _ Hp) as ->. eauto.
  - rewrite (exists_None _ _ Hfs). intros raw [=].
Qed.

Lemma merge_smp_loop_inv (fs : filesystem) (env : nat) (smps : list nat)
    (t : DrawIncreaseMerge.tables) :
  match DrawIncreaseMerge.smp_loop fs env smps t with
  | Ok _ => forall smp raw, smp ∈ smps -> fs (logfile env smp) = Some raw ->
                            exists e, parse_log raw = Ok e
  | Raise e => e = ValueError /\
               exists smp raw, smp ∈ smps /\ fs (logfile env smp) = Some raw /\
                               parse_log raw = Raise ValueError
  end.
Proof.
  revert t. induction smps as [|smp smps IH]; intros t.
  - simpl. intros smp raw Hin. by apply elem_of_nil in Hin.
  - simpl. pose proof (merge_smp_step_inv fs env smp t) as Hstep.
    destruct (DrawIncreaseMerge.smp_step fs env smp t) as [t'|e]; simpl.
    + specialize (IH t').
      destruct (DrawIncreaseMerge.smp_loop fs env smps t') as [t''|e].
      * intros smp' raw Hin. apply elem_of_cons in Hin as [->|Hin]; eauto.
      * destruct IH as (-> & smp' & raw & Hin & Hfs & Hp).
        split; [reflexivity|]. exists smp', raw. split; [by right|auto].
    + destruct Hstep as (-> & raw & Hfs & Hp).
      split; [reflexivity|]. exists smp, raw. split; [by left|auto].
Qed.

Lemma merge_env_loop_inv (fs : filesystem) (NUM_SMP : nat) (envs : list nat)
    (t : DrawIncreaseMerge.tables) :
  match DrawIncreaseMerge.env_loop fs NUM_SMP envs t with
  | Ok _ => forall env smp raw,
      env ∈ envs -> (1 <= smp <= NUM_SMP)%nat ->
      fs (logfile env smp) = Some raw -> exists e, parse_log raw = Ok e
  | Raise e => e = ValueError /\
               exists env smp raw,
                 env ∈ envs /\ (1 <= smp <= NUM_SMP)%nat /\
                 fs (logfile env smp) = Some raw /\
                 parse_log raw = Raise ValueError
  end.
Proof.
  revert t. induction envs as [|env envs IH]; intros t.
  - simpl. intros env smp raw Hin. by apply elem_of_nil in Hin.
  - simpl. pose proof (merge_smp_loop_inv fs env (seq 1 NUM_SMP) t) as Hrow.
    destruct (DrawIncreaseMerge.smp_loop fs env (seq 1 NUM_SMP) t) as [t'|e]; simpl.
    + specialize (IH t').
      destruct (DrawIncreaseMerge.env_loop fs NUM_SMP envs t') as [t''|e].
      * intros env' smp raw Hin Hs.
        apply elem_of_cons in Hin as [->|Hin]; [|by eauto].
        apply Hrow. apply elem_of_seq. lia.
      * destruct IH as (-> & env' & smp & raw & Hin & Hs & Hfs & Hp).
        split; [reflexivity|]. exists env', smp, raw.
        split; [by right|auto].
    + destruct Hrow as (-> & smp & raw & Hin & Hfs & Hp).
      split; [reflexivity|]. exists env, smp, raw.
      apply elem_of_seq in Hin.
      split; [by left|]. split; [lia|auto].
Qed.

End IncreaseMore.

(** ** What the patterns find on well-formed lines *)
Module LineFacts.
Import Py Re DrawIncrease Lines.

Lemma search_skip (pt : pattern) (pre s : text) :
  starts_nowhere pt pre s = true -> search pt (pre ++ s) = search pt s.
Proof.
  induction pre as [|c pre IH]; [reflexivity|].
  cbn [starts_nowhere]. change ((c :: pre) ++ s) with (c :: pre ++ s).
  cbn [search].
  destruct (match_at pt (c :: pre ++ s)); [discriminate|exact IH].
Qed.

Lemma search_here (pt : pattern) (s rest : text) (gs : list text) :
  match_at pt s = Some (rest, gs) -> search pt s = Some gs.
Proof. intros H. destruct s; simpl; by rewrite H. Qed.

Section Steps.
Context {R : Type}.
Variable ic : bool.
Implicit Types (k : text -> list text -> option R) (p : ascii -> bool).

(** [s] does not begin with a character in [p]. *)
Definition stops p (s : text) : Prop :=
  forall c, head s = Some c -> p c = false.

Lemma m_cat (r1 r2 : re) (s : text) (gs : list text) k :
  m ic (Cat r1 r2) s gs k = m ic r1 s gs (fun s1 gs1 => m ic r2 s1 gs1 k).
Proof. reflexivity. Qed.

Lemma m_group (r1 : re) (s : text) (gs : list text) k :
  m ic (Group r1) s gs k
  = m ic r1 s gs (fun s1 gs1 => k s1 (gs1 ++ [take (length s - length s1) s])).
Proof. reflexivity. Qed.

Lemma lit_matches_refl (a : ascii) : lit_matches ic a a = true.
Proof. unfold lit_matches. destruct ic; apply Ascii.eqb_refl. Qed.

Lemma m_lit (str : string) (s : text) (gs : list text) k :
  m ic (lit str) (txt str ++ s) gs k = k s gs.
Proof.
  unfold lit. induction (txt str) as [|a l IH]; [reflexivity|].
  cbn [map seq_re fold_right app m]. rewrite lit_matches_refl. exact IH.
Qed.

Lemma star_k_stop p (k' : text -> option R) (s : text) :
  stops p s -> star_k p k' s = k' s.
Proof.
  intros Hs. destruct s as [|c s]; [reflexivity|].
  simpl. by rewrite (Hs c eq_refl).
Qed.

(** The greedy choice, when what follows accepts it. *)
Lemma m_star_run p (w rest : text) (gs : list text) k (r : R) :
  Forall (fun c => p c = true) w -> stops p rest ->
  k rest gs = Some r ->
  m ic (Star p) (w ++ rest) gs k = Some r.
Proof.
  intros Hw Hrest Hk. cbn [m].
  induction Hw as [|c w Hc _ IH].
  - simpl. by rewrite star_k_stop.
  - simpl. rewrite Hc, IH. reflexivity.
Qed.

Lemma m_plus_run p (w rest : text) (gs : list text) k (r : R) :
  run p w -> stops p rest ->
  k rest gs = Some r ->
  m ic (Plus p) (w ++ rest) gs k = Some r.
Proof.
  intros [Hne Hw] Hrest Hk. destruct w as [|c w]; [congruence|].
  apply Forall_cons in Hw as [Hc Hw].
  unfold Plus. rewrite m_cat. cbn [m app]. rewrite Hc.
  by apply m_star_run.
Qed.

Lemma m_opt_skip p (s : text) (gs : list text) k :
  stops p s -> m ic (Opt p) s gs k = k s gs.
Proof.
  intros Hs. destruct s as [|c s]; [reflexivity|].
  cbn [m]. by rewrite (Hs c eq_refl).
Qed.

Lemma m_opt_take p (c : ascii) (s : text) (gs : list text) k (r : R) :
  p c = true -> k s gs = Some r ->
  m ic (Opt p) (c :: s) gs k = Some r.
Proof. intros Hc Hk. cbn [m]. by rewrite Hc, Hk. Qed.

End Steps.

Lemma space_not_digit (c : ascii) : isspace c = true -> isdigit c = false.
Proof.
  intros Hs. destruct (isdigit c) eqn:Hd; [|reflexivity].
  apply RegexFacts.digit_not_space in Hd. congruence.
Qed.

Lemma dot_not_space (c : ascii) : digit_or_dot c = true -> isspace c = false.
Proof.
  unfold digit_or_dot. intros H. apply orb_true_iff in H as [H|H].
  - by apply RegexFacts.digit_not_space.
  - apply Ascii.eqb_eq in H. by subst c.
Qed.

Lemma space_not_dot (c : ascii) : isspace c = true -> digit_or_dot c = false.
Proof.
  intros Hs. destruct (digit_or_dot c) eqn:Hd; [|reflexivity].
  apply dot_not_space in Hd. congruence.
Qed.

Lemma stops_run (p q : ascii -> bool) (w rest : text) :
  (forall c, q c = true -> p c = false) -> run q w -> stops p (w ++ rest).
Proof.
  intros Hpq [Hne Hw]. destruct w as [|c w]; [congruence|].
  apply Forall_cons in Hw as [Hc _].
  intros c' [= <-]. by apply Hpq.
Qed.

Lemma stops_word (p : ascii -> bool) (c : ascii) (s : text) :
  p c = false -> stops p (c :: s).
Proof. by intros Hc c' [= <-]. Qed.

(** The boot pattern at the head of a boot line. *)
Lemma boot_line_match (w0 b w1 w2 w3 n w4 post : text) :
  Forall (fun c => isspace c = true) w0 ->
  run digit_or_dot b -> run isspace w1 -> run isspace w2 ->
  run isspace w3 -> run isdigit n -> run isspace w4 ->
  match_at boot_re (boot_line w0 b w1 w2 w3 n w4 post) = Some (post, [b; n]).
Proof.
  intros H0 Hb H1 H2 H3 Hn H4.
  unfold match_at, boot_re, boot_line.
  cbn [expr ignorecase seq_re fold_right].
  rewrite m_cat, m_lit, m_cat.
  apply m_star_run;
    [exact H0|exact (stops_run _ _ _ _ dot_not_space Hb)|].
  rewrite m_cat, m_group.
  apply m_plus_run; [exact Hb|exact (stops_run _ _ _ _ space_not_dot H1)|].
  rewrite m_cat.
  apply m_plus_run; [exact H1|by apply stops_word|].
  rewrite m_cat, m_lit, m_cat.
  apply m_plus_run; [exact H2|by apply stops_word|].
  rewrite m_cat, m_lit, m_cat.
  apply m_plus_run;
    [exact H3|exact (stops_run _ _ _ _ RegexFacts.digit_not_space Hn)|].
  rewrite m_cat, m_group.
  apply m_plus_run; [exact Hn|exact (stops_run _ _ _ _ space_not_digit H4)|].
  rewrite m_cat.
  apply m_plus_run; [exact H4|by apply stops_word|].
  rewrite m_cat, m_lit. cbn [m].
  by rewrite !RegexFacts.take_matched.
Qed.

(** [int] on a run of digits, signed or not. *)
Lemma int_digits (neg : bool) (n : text) :
  run isdigit n ->
  PyNum.int ((if neg then txt "-" else []) ++ n)
  = if (PyNum.int_max_str_digits <? length n)%nat
    then Raise ValueError
    else Ok (if neg then - PyNum.digits_val n else PyNum.digits_val n).
Proof.
  intros [Hne Hall]. destruct n as [|c ds]; [congruence|].
  apply Forall_cons in Hall as [Hc Hds].
  by apply RegexFacts.int_digit_run.
Qed.

(** The offset pattern at the head of an offset. *)
Lemma offset_line_match (w0 : text) (neg : bool) (n post : text) :
  Forall (fun c => isspace c = true) w0 ->
  run isdigit n -> stops isdigit post ->
  match_at offset_re
    (offset_line w0 (if neg then txt "-" else []) n post)
  = Some (post, [(if neg then txt "-" else []) ++ n]).
Proof.
  intros H0 Hn Hpost.
  unfold match_at, offset_re, offset_line.
  cbn [expr ignorecase seq_re fold_right].
  rewrite m_cat, m_lit, m_cat.
  assert (Hminus : forall c, isdigit c = true -> is_minus c = false).
  { intros c Hc. unfold is_minus. destruct (Ascii.eqb c "-") eqn:E; [|reflexivity].
    apply Ascii.eqb_eq in E. subst c. discriminate. }
  destruct neg.
  - apply m_star_run; [exact H0|by apply stops_word|].
    rewrite m_cat, m_group, m_cat.
    change (txt "-" ++ n ++ post) with ("-"%char :: n ++ post).
    apply m_opt_take; [reflexivity|].
    apply m_plus_run; [exact Hn|exact Hpost|].
    cbn [m].
    change ("-"%char :: n ++ post) with (("-"%char :: n) ++ post).
    by rewrite RegexFacts.take_matched.
  - change ([] ++ n ++ post) with (n ++ post).
    apply m_star_run;
      [exact H0|exact (stops_run _ _ _ _ RegexFacts.digit_not_space Hn)|].
    rewrite m_cat, m_group, m_cat.
    rewrite m_opt_skip by exact (stops_run _ _ _ _ Hminus Hn).
    apply m_plus_run; [exact Hn|exact Hpost|].
    cbn [m]. by rewrite RegexFacts.take_matched.
Qed.

End LineFacts.

(** * The properties of the specification *)

Import Py TimeLog.

(** C1.  A [diff:] line whose total field parses to a float above
    [1e8] adds nothing to the ns_per_call list and nothing to the
    percentage list: both parsers return exactly the values of the
    other lines of the log.  A line whose total is at or below [1e8]
    is kept: its own value [total / 2 / 1e6], not a clamped one, stands
    in the ns_per_call list at the place of the line, and
    [total / diff] in the percentage list when the diff field is a
    non-zero number. *)
Theorem outlier_record_discarded
    (fs : filesystem) (path content : text) (pre post : list text)
    (l total_str : text) (t : spec_float) :
  fs path = Some content ->
  file_lines content = pre ++ l :: post ->
  is_diff_line l = true ->
  total_field (strip l) = Some total_str ->
  PyNum.float total_str = Ok t ->
  (Float.gtb t DrawScaled.THRESHOLD = true ->
     DrawScaled.parse_ns_per_call_time_log fs path
       = Ok (omap ns_value pre ++ omap ns_value post) /\
     DrawScaled.parse_percentage_time_log fs path
       = Ok (omap perc_value pre ++ omap perc_value post)) /\
  (Float.leb t DrawScaled.THRESHOLD = true ->
     DrawScaled.parse_ns_per_call_time_log fs path
       = Ok (omap ns_value pre
             ++ Float.div (Float.div t two) million :: omap ns_value post) /\
     forall diff_str d,
       diff_field (strip l) = Some diff_str ->
       PyNum.float diff_str = Ok d ->
       Float.is_zero d = false ->
       DrawScaled.parse_percentage_time_log fs path
         = Ok (omap perc_value pre ++ Float.div t d :: omap perc_value post)).
Proof.
  intros Hfs Hlines Hdiff Htot Ht.
  rewrite (TimeLogFacts.parse_ns_values _ _ _ Hfs),
          (TimeLogFacts.parse_perc_values _ _ _ Hfs), Hlines, !omap_app.
  simpl.
  rewrite (TimeLogFacts.ns_value_field l), (TimeLogFacts.perc_value_field l),
          Hdiff, Htot, Ht.
  split.
  - intros Hgt. rewrite Hgt. split; [reflexivity|].
    destruct (diff_field (strip l)) as [ds|]; [|reflexivity].
    destruct (PyNum.float ds); reflexivity.
  - intros Hle. rewrite (FloatFacts.leb_not_gtb _ _ Hle).
    split; [reflexivity|].
    intros ds d -> -> ->. reflexivity.
Qed.

Lemma outlier_record_discarded_witness :
  DrawScaled.parse_ns_per_call_time_log
    Examples.scenario_fs (DrawScaledMerge.time_log_path 1 4)
  = Ok ([Examples.f_0_00003] ++ []).
Proof.
  destruct (outlier_record_discarded Examples.scenario_fs
              (DrawScaledMerge.time_log_path 1 4) Examples.event_log
              [Examples.line_60] [] Examples.line_1e9 (txt "1e9")
              (Float.of_decimal false 1 9)) as [Hout _].
  - vm_compute. reflexivity.
  - vm_compute. reflexivity.
  - vm_compute. reflexivity.
  - vm_compute. reflexivity.
  - vm_compute. reflexivity.
  - destruct Hout as [Hns _]; [vm_compute; reflexivity|].
    rewrite Hns. vm_compute. reflexivity.
Defined.

(** C4.  A [diff:] line whose diff field parses to zero adds nothing
    to the percentage list of either script and raises nothing: with a
    total within the threshold the [try] block ends without a value
    and without an exception, whatever the total the division is not
    reached with the zero divisor, and the loop returns the values of
    the other lines. *)
Theorem zero_diff_skipped (l diff_str : text) (d : spec_float) :
  is_diff_line l = true ->
  diff_field (strip l) = Some diff_str ->
  PyNum.float diff_str = Ok d ->
  Float.is_zero d = true ->
  perc_value l = None /\
  DrawScaled.perc_try (strip l) <> Raise ZeroDivisionError /\
  DrawScaledMerge.perc_try (strip l) <> Raise ZeroDivisionError /\
  (forall total_str t,
      total_field (strip l) = Some total_str ->
      PyNum.float total_str = Ok t ->
      Float.gtb t DrawScaled.THRESHOLD = false ->
      DrawScaled.perc_try (strip l) = Ok None /\
      DrawScaledMerge.perc_try (strip l) = Ok None) /\
  (forall pre post acc,
      DrawScaled.perc_loop (pre ++ l :: post) acc
        = Ok (acc ++ omap perc_value pre ++ omap perc_value post) /\
      DrawScaledMerge.perc_loop (pre ++ l :: post) acc
        = Ok (acc ++ omap perc_value pre ++ omap perc_value post)).
Proof.
  intros Hdiff Hds Hd Hz.
  assert (Hval : perc_value l = None).
  { rewrite TimeLogFacts.perc_value_field, Hdiff, Hds, Hd.
    destruct (total_field (strip l)) as [ts|]; [|reflexivity].
    destruct (PyNum.float ts) as [t|]; [|reflexivity].
    destruct (Float.gtb t DrawScaled.THRESHOLD); [reflexivity|].
    rewrite Hz. reflexivity. }
  assert (Hexn : DrawScaled.perc_try (strip l) <> Raise ZeroDivisionError).
  { intros Hr. destruct (TimeLogFacts.perc_try_raises _ _ Hr); discriminate. }
  split; [exact Hval|]. split; [exact Hexn|]. split; [exact Hexn|]. split.
  - intros ts t Hts Ht Hgt.
    assert (DrawScaled.perc_try (strip l) = Ok None) as E.
    { rewrite TimeLogFacts.perc_try_field, Hds, Hts, Hd, Ht, Hgt, Hz.
      reflexivity. }
    split; exact E.
  - intros pre post acc.
    assert (DrawScaled.perc_loop (pre ++ l :: post) acc
            = Ok (acc ++ omap perc_value pre ++ omap perc_value post)) as E.
    { rewrite TimeLogFacts.perc_loop_values, omap_app, PyFacts.omap_cons, Hval.
      reflexivity. }
    split; exact E.
Qed.

Lemma zero_diff_skipped_witness :
  DrawScaled.perc_try (strip Examples.zero_diff_line) = Ok None.
Proof.
  destruct (zero_diff_skipped Examples.zero_diff_line (txt "0") (S754_zero false))
    as (_ & _ & _ & Htry & _).
  - vm_compute. reflexivity.
  - vm_compute. reflexivity.
  - vm_compute. reflexivity.
  - vm_compute. reflexivity.
  - apply (Htry (txt "60") (Float.of_Z 60)); vm_compute; reflexivity.
Defined.

(** C10.  Every line that adds a value to the percentage list also
    adds one to the ns_per_call list.  The ns_per_call value of a
    [diff:] line depends on its total field alone, so a line whose
    total is a number within the threshold and whose diff field is not
    a number, or is zero, counts for the ns_per_call average and not
    for the percentage average; on the log [Examples.mixed_log] the
    first average is over two lines and the second over one. *)
Theorem percentage_lines_among_ns_lines :
  (forall l v, perc_value l = Some v -> exists w, ns_value l = Some w) /\
  (forall fs path content,
      fs path = Some content ->
      exists ns perc,
        DrawScaled.parse_ns_per_call_time_log fs path = Ok ns /\
        DrawScaled.parse_percentage_time_log fs path = Ok perc /\
        (length perc <= length ns)%nat) /\
  (forall l1 l2,
      is_diff_line l1 = true -> is_diff_line l2 = true ->
      total_field (strip l1) = total_field (strip l2) ->
      ns_value l1 = ns_value l2) /\
  (forall l total_str t diff_str,
      is_diff_line l = true ->
      total_field (strip l) = Some total_str ->
      PyNum.float total_str = Ok t ->
      Float.gtb t DrawScaled.THRESHOLD = false ->
      diff_field (strip l) = Some diff_str ->
      (PyNum.float diff_str = Raise ValueError \/
       exists d, PyNum.float diff_str = Ok d /\ Float.is_zero d = true) ->
      ns_value l = Some (Float.div (Float.div t two) million) /\
      perc_value l = None) /\
  length (omap ns_value (file_lines Examples.mixed_log)) = 2%nat /\
  length (omap perc_value (file_lines Examples.mixed_log)) = 1%nat.
Proof.
  assert (Hsub : forall l v, perc_value l = Some v -> exists w, ns_value l = Some w).
  { intros l v. rewrite TimeLogFacts.perc_value_field, TimeLogFacts.ns_value_field.
    destruct (is_diff_line l); [|discriminate].
    destruct (diff_field (strip l)) as [ds|]; [|discriminate].
    destruct (total_field (strip l)) as [ts|]; [|discriminate].
    destruct (PyNum.float ds) as [d|]; [|discriminate].
    destruct (PyNum.float ts) as [t|]; [|discriminate].
    destruct (Float.gtb t DrawScaled.THRESHOLD); [discriminate|]. eauto. }
  split; [exact Hsub|]. split; [|split; [|split; [|split]]].
  - intros fs path content Hfs.
    rewrite (TimeLogFacts.parse_ns_values _ _ _ Hfs),
            (TimeLogFacts.parse_perc_values _ _ _ Hfs).
    do 2 eexists. split; [reflexivity|]. split; [reflexivity|].
    induction (file_lines content) as [|l lines IH]; [reflexivity|].
    rewrite !PyFacts.omap_cons, !length_app.
    destruct (perc_value l) as [v|] eqn:Hp.
    + destruct (Hsub l v Hp) as [w ->]. simpl. lia.
    + destruct (ns_value l); simpl; lia.
  - intros l1 l2 H1 H2 Heq.
    rewrite !TimeLogFacts.ns_value_field, H1, H2, Heq. reflexivity.
  - intros l ts t ds Hdiff Hts Ht Hgt Hds Hbad.
    rewrite TimeLogFacts.ns_value_field, TimeLogFacts.perc_value_field,
            Hdiff, Hts, Ht, Hgt, Hds.
    split; [reflexivity|].
    destruct Hbad as [-> | (d & -> & ->)]; reflexivity.
  - vm_compute. reflexivity.
  - vm_compute. reflexivity.
Qed.

Lemma percentage_lines_among_ns_lines_witness :
  ns_value Examples.zero_diff_line
    = Some (Float.div (Float.div (Float.of_Z 60) two) million) /\
  perc_value Examples.zero_diff_line = None.
Proof.
  apply (proj1 (proj2 (proj2 (proj2 percentage_lines_among_ns_lines)))
           Examples.zero_diff_line (txt "60") (Float.of_Z 60) (txt "0"));
    try (vm_compute; reflexivity).
  right. exists (S754_zero false). vm_compute. split; reflexivity.
Defined.

(** C2.  A record that is kept yields [total / 2 / 1e6] for the
    ns_per_call list and [total / diff] for the percentage list.  In
    the end-to-end scenario (the summary row of SMP 4 with predicted
    ns_per_call [50.0], and an event log of the two lines
    [diff: 100, total: 60] and [diff: 100, total: 1e9]) the collection
    of [draw_scaled_merge.py] reports the average real ns_per_call
    [0.00003], the difference [0.00003 - 50.0] and the average
    percentage [0.6]. *)
Theorem derived_metrics_exact :
  (forall l total_str t,
      is_diff_line l = true ->
      total_field (strip l) = Some total_str ->
      PyNum.float total_str = Ok t ->
      Float.gtb t DrawScaled.THRESHOLD = false ->
      ns_value l = Some (Float.div (Float.div t two) million) /\
      forall diff_str d,
        diff_field (strip l) = Some diff_str ->
        PyNum.float diff_str = Ok d ->
        Float.is_zero d = false ->
        perc_value l = Some (Float.div t d)) /\
  Float.div (Float.div (Float.of_Z 60) two) million = Examples.f_0_00003 /\
  Float.div (Float.of_Z 60) (Float.of_Z 100) = Examples.f_0_6 /\
  Grid.cell (DrawScaledMerge.collect Examples.scenario_fs 1 4)
    DrawScaledMerge.predict_ns_call 1 4 = Some Examples.f_50_0 /\
  Grid.cell (DrawScaledMerge.collect Examples.scenario_fs 1 4)
    DrawScaledMerge.avg_real_ns_call 1 4 = Some Examples.f_0_00003 /\
  Grid.cell (DrawScaledMerge.collect Examples.scenario_fs 1 4)
    DrawScaledMerge.diff_ns_call 1 4
    = Some (Float.sub Examples.f_0_00003 Examples.f_50_0) /\
  Grid.cell (DrawScaledMerge.collect Examples.scenario_fs 1 4)
    DrawScaledMerge.avg_percentage 1 4 = Some Examples.f_0_6.
Proof.
  split; [|repeat split; vm_compute; reflexivity].
  intros l ts t Hdiff Hts Ht Hgt.
  rewrite TimeLogFacts.ns_value_field, TimeLogFacts.perc_value_field,
          Hdiff, Hts, Ht, Hgt.
  split; [reflexivity|]. intros ds d -> -> ->. reflexivity.
Qed.

Lemma derived_metrics_exact_witness :
  ns_value Examples.line_60
  = Some (Float.div (Float.div (Float.of_Z 60) two) million).
Proof.
  destruct (proj1 derived_metrics_exact Examples.line_60 (txt "60")
              (Float.of_Z 60)) as [Hns _].
  - vm_compute. reflexivity.
  - vm_compute. reflexivity.
  - vm_compute. reflexivity.
  - vm_compute. reflexivity.
  - exact Hns.
Defined.

(** C3, counterexample.  Without the summary table of an environment
    the collection of [draw_scaled_merge.py] stops with
    [FileNotFoundError] and returns no matrix; a log whose boot time
    is not a float stops the collections of [draw_increase.py] and of
    [draw_increase_merge.py] with [ValueError]. *)
Lemma missing_summary_stops_collection :
  DrawScaledMerge.collect (fun _ => None) 1 1 = Raise FileNotFoundError /\
  DrawIncrease.collect Examples.bad_boot_fs 1 1 = Raise ValueError /\
  DrawIncreaseMerge.collect Examples.bad_boot_fs 1 1 = Raise ValueError.
Proof. repeat split; vm_compute; reflexivity. Qed.

(** C3, as amended.  For every number of environments and of SMP
    values and every file system of text files (each path that exists
    names a regular file whose bytes decode):
    - when the summary table of every environment exists, whatever
      text the files hold and whichever event logs are missing, the
      collection of [draw_scaled_merge.py] returns, every one of its
      ten matrices has a row for each environment and for no other
      key, each row has exactly one entry per SMP, and the entry is
      [0.0] for a summary metric whose row is missing from the table
      and for an average whose event log is missing;
    - when, in every log that exists, the numbers convert (the text
      captured as the boot time is a float, and the call count and
      the offset captured have no more than 4300 digits), the
      collection of [draw_increase_merge.py] returns, each of its
      three tables has a row for each environment and for no other
      key, each row has exactly one entry per SMP, and the entry of a
      missing log is the default ([0.0] or [0]); under the same
      condition the collection of [draw_increase.py] returns, and
      [data] has an entry exactly for the cells of the grid, the
      default [{0.0, 0, 0}] where the log is missing. *)
Theorem dense_grid (NUM_ENV NUM_SMP : nat) (fs : filesystem) :
  ((forall env, (1 <= env <= NUM_ENV)%nat ->
               is_Some (fs (DrawScaledMerge.summary_path env))) ->
   exists ms,
     DrawScaledMerge.collect fs NUM_ENV NUM_SMP = Ok ms /\
     forall name env,
       ((1 <= env <= NUM_ENV)%nat ->
        exists row,
          ms name !! env = Some row /\
          length row = NUM_SMP /\
          forall smp, (1 <= smp <= NUM_SMP)%nat ->
            exists x,
              row !! (smp - 1)%nat = Some x /\
              (Cell.from_summary name = true ->
               Cell.table fs env !! Z.of_nat smp = None ->
               x = DrawScaledMerge.zero) /\
              (name = DrawScaledMerge.avg_percentage \/
               name = DrawScaledMerge.avg_real_ns_call ->
               fs (DrawScaledMerge.time_log_path env smp) = None ->
               x = DrawScaledMerge.zero)) /\
       (~ (1 <= env <= NUM_ENV)%nat -> ms name !! env = None)) /\
  (Increase.numbers_convert fs NUM_ENV NUM_SMP ->
   exists t,
     DrawIncreaseMerge.collect fs NUM_ENV NUM_SMP = Ok t /\
     forall A (c : Increase.col A) env,
       ((1 <= env <= NUM_ENV)%nat ->
        exists row,
          Increase.get c t !! env = Some row /\
          length row = NUM_SMP /\
          forall smp, (1 <= smp <= NUM_SMP)%nat ->
            exists x,
              row !! (smp - 1)%nat = Some x /\
              (fs (DrawIncreaseMerge.logfile env smp) = None ->
               x = Increase.val c DrawIncrease.default_entry)) /\
       (~ (1 <= env <= NUM_ENV)%nat -> Increase.get c t !! env = None)) /\
  (Increase.numbers_convert fs NUM_ENV NUM_SMP ->
   exists data,
     DrawIncrease.collect fs NUM_ENV NUM_SMP = Ok data /\
     forall smp env,
       ((1 <= smp <= NUM_SMP)%nat -> (1 <= env <= NUM_ENV)%nat ->
        exists e,
          data !! smp ≫= (fun row => row !! env) = Some e /\
          (fs (DrawIncrease.logfile env smp) = None ->
           e = DrawIncrease.default_entry)) /\
       (~ ((1 <= smp <= NUM_SMP)%nat /\ (1 <= env <= NUM_ENV)%nat) ->
        data !! smp ≫= (fun row => row !! env) = None)).
Proof.
  split; [|split].
  - intros Hfs.
    destruct (MergeFacts.collect_spec fs NUM_ENV NUM_SMP Hfs) as (ms & Hc & Hlook).
    exists ms. split; [exact Hc|]. intros name env. rewrite Hlook. split.
    + intros Henv. rewrite decide_True by exact Henv.
      eexists. split; [reflexivity|]. unfold Cell.row.
      split; [by rewrite length_fmap, length_seq|].
      intros smp Hsmp. rewrite list_lookup_fmap, lookup_seq_lt by lia.
      replace (1 + (smp - 1))%nat with smp by lia.
      eexists. split; [reflexivity|]. split.
      * intros Hname Hrow. unfold Cell.value, Cell.column.
        destruct name; try discriminate; rewrite Hrow; reflexivity.
      * intros Hname Hlog. unfold Cell.value, Cell.perc_vals, Cell.ns_vals.
        destruct Hname as [-> | ->]; rewrite Hlog; reflexivity.
    + intros Henv. by rewrite decide_False.
  - intros Hp. apply RegexFacts.convert_parsable in Hp.
    destruct (IncreaseMergeFacts.collect_rows fs NUM_ENV NUM_SMP Hp)
      as (t & Hc & Hlook).
    exists t. split; [exact Hc|]. intros A c env. rewrite Hlook. split.
    + intros Henv. rewrite decide_True by exact Henv.
      eexists. split; [reflexivity|]. unfold Increase.merge_row.
      split; [by rewrite length_fmap, length_seq|].
      intros smp Hsmp. rewrite list_lookup_fmap, lookup_seq_lt by lia.
      replace (1 + (smp - 1))%nat with smp by lia.
      eexists. split; [reflexivity|].
      intros Hlog. unfold Increase.entry_of.
      change (DrawIncrease.logfile env smp)
        with (DrawIncreaseMerge.logfile env smp).
      rewrite Hlog. reflexivity.
    + intros Henv. by rewrite decide_False.
  - intros Hp. apply RegexFacts.convert_parsable in Hp.
    destruct (IncreaseFacts.collect_entries fs NUM_ENV NUM_SMP Hp)
      as (data & Hc & Hlook).
    exists data. split; [exact Hc|]. intros smp env. rewrite Hlook. split.
    + intros Hsmp Henv. rewrite decide_True by tauto.
      eexists. split; [reflexivity|].
      intros Hlog. unfold Increase.entry_of. rewrite Hlog. reflexivity.
    + intros H. by rewrite decide_False.
Qed.

Lemma dense_grid_witness :
  (exists ms, DrawScaledMerge.collect Examples.good_log_fs 1 1 = Ok ms) /\
  (exists t, DrawIncreaseMerge.collect Examples.good_log_fs 1 1 = Ok t) /\
  (exists data, DrawIncrease.collect Examples.good_log_fs 1 1 = Ok data).
Proof.
  assert (Hp : Increase.numbers_convert Examples.good_log_fs 1 1).
  { intros env smp raw Henv Hsmp.
    assert (env = 1%nat) as -> by lia. assert (smp = 1%nat) as -> by lia.
    intros Hraw. vm_compute in Hraw. injection Hraw as <-.
    split; [|split]; intros field Hfield;
      vm_compute in Hfield; injection Hfield as <-.
    - eexists. vm_compute. reflexivity.
    - apply Nat.leb_le. vm_compute. reflexivity.
    - apply Nat.leb_le. vm_compute. reflexivity. }
  destruct (dense_grid 1 1 Examples.good_log_fs) as (Hmerge & Hinc_merge & Hinc).
  split; [|split].
  - destruct Hmerge as (ms & Hms & _); [|by exists ms].
    intros env Henv. assert (env = 1%nat) as -> by lia.
    vm_compute. eauto.
  - destruct (Hinc_merge Hp) as (t & Ht & _). by exists t.
  - destruct (Hinc Hp) as (data & Hdata & _). by exists data.
Defined.

(** C5, the defect.  On a log whose boot line reads
    [Boot time: 3..5 seconds, called 100 times] the pattern matches
    with [3..5] as its first group, [float] raises [ValueError],
    nothing catches it, and the collection of [draw_increase.py]
    stops.  The event parsers, whose conversions stand in a [try],
    return on every list of lines. *)
Theorem malformed_boot_time_raises :
  Re.search DrawIncrease.boot_re
    (DrawIncrease.remove_ansi_codes (file_read Examples.bad_boot_log))
    = Some [txt "3..5"; txt "100"] /\
  PyNum.float (txt "3..5") = Raise ValueError /\
  DrawIncrease.parse_log Examples.bad_boot_log = Raise ValueError /\
  DrawIncrease.collect Examples.bad_boot_fs 1 1 = Raise ValueError /\
  (forall lines acc,
      exists ns perc,
        DrawScaled.ns_loop lines acc = Ok ns /\
        DrawScaled.perc_loop lines acc = Ok perc).
Proof.
  split; [|split; [|split; [|split]]].
  - vm_compute. reflexivity.
  - vm_compute. reflexivity.
  - vm_compute. reflexivity.
  - vm_compute. reflexivity.
  - intros lines acc.
    rewrite TimeLogFacts.ns_loop_values, TimeLogFacts.perc_loop_values. eauto.
Qed.

(** C6.  [parse_summary_file] of [draw_scaled_merge.py] and
    [parse_results_summary] of [draw_scaled.py] store an entry for a
    line of the table exactly when the line is not blank, does not
    begin with [#], does not have [SMP] as its first field, has ten
    fields or more, and its key converts with [int] and its value
    fields (columns 2 to 8 for the first, column 4 for the second)
    convert with [float].  The entry of such a line has [int] of the
    first field as its key and, as its values, [float] of columns 2
    to 8 in this order for the first script and [float] of column 4
    for the second.  Every other line is passed over and nothing
    raises.  A key that no line has is absent from the result, and a
    key that several lines have keeps the entry of the last of
    them. *)
Theorem summary_rows_included :
  (forall l,
      is_Some (Summary.row_of_line l) <->
      Summary.included [1; 2; 3; 4; 5; 6; 7]%nat l) /\
  (forall l smp row,
      Summary.row_of_line l = Some (smp, row) <->
      Summary.included [1; 2; 3; 4; 5; 6; 7]%nat l /\
      let parts := split_ws (strip l) in
      PyNum.int <$> parts !! 0%nat = Some (Ok smp) /\
      PyNum.float <$> parts !! 1%nat
        = Some (Ok (DrawScaledMerge.row_real_boot_time row)) /\
      PyNum.float <$> parts !! 2%nat
        = Some (Ok (DrawScaledMerge.row_times_called row)) /\
      PyNum.float <$> parts !! 3%nat
        = Some (Ok (DrawScaledMerge.row_predicted_ns_per_call row)) /\
      PyNum.float <$> parts !! 4%nat
        = Some (Ok (DrawScaledMerge.row_predict_sec row)) /\
      PyNum.float <$> parts !! 5%nat
        = Some (Ok (DrawScaledMerge.row_scale_factor row)) /\
      PyNum.float <$> parts !! 6%nat
        = Some (Ok (DrawScaledMerge.row_total_clocksource_ns row)) /\
      PyNum.float <$> parts !! 7%nat
        = Some (Ok (DrawScaledMerge.row_percentage row))) /\
  (forall l lines data,
      DrawScaledMerge.summary_loop (l :: lines) data =
      DrawScaledMerge.summary_loop lines
        match Summary.row_of_line l with
        | Some (smp, row) => <[smp := row]> data
        | None => data
        end) /\
  (forall fs env content,
      fs (DrawScaledMerge.summary_path env) = Some content ->
      exists data,
        DrawScaledMerge.parse_summary_file fs env = Ok data /\
        (forall smp,
            (forall l row, l ∈ file_lines content ->
                           Summary.row_of_line l <> Some (smp, row)) ->
            data !! smp = None) /\
        (forall pre l post smp row,
            file_lines content = pre ++ l :: post ->
            Summary.row_of_line l = Some (smp, row) ->
            (forall l' row', l' ∈ post ->
                             Summary.row_of_line l' <> Some (smp, row')) ->
            data !! smp = Some row)) /\
  (forall l, is_Some (Summary.pair_of_line l) <-> Summary.included [3]%nat l) /\
  (forall l smp v,
      Summary.pair_of_line l = Some (smp, v) <->
      Summary.included [3]%nat l /\
      PyNum.int <$> split_ws (strip l) !! 0%nat = Some (Ok smp) /\
      PyNum.float <$> split_ws (strip l) !! 3%nat = Some (Ok v)) /\
  (forall l lines smp_info,
      DrawScaled.summary_loop (l :: lines) smp_info =
      DrawScaled.summary_loop lines
        match Summary.pair_of_line l with
        | Some (smp, v) => <[smp := v]> smp_info
        | None => smp_info
        end) /\
  (forall fs path content,
      fs path = Some content ->
      exists smp_info,
        DrawScaled.parse_results_summary fs path = Ok smp_info /\
        (forall smp,
            (forall l v, l ∈ file_lines content ->
                         Summary.pair_of_line l <> Some (smp, v)) ->
            smp_info !! smp = None) /\
        (forall pre l post smp v,
            file_lines content = pre ++ l :: post ->
            Summary.pair_of_line l = Some (smp, v) ->
            (forall l' v', l' ∈ post ->
                           Summary.pair_of_line l' <> Some (smp, v')) ->
            smp_info !! smp = Some v)).
Proof.
  split; [exact SummaryFacts.row_of_line_included|].
  split; [|split; [|split; [|split;
    [exact SummaryFacts.pair_of_line_included|split; [|split]]]]].
  - intros l smp row. cbv zeta.
    rewrite SummaryFacts.row_of_line_fields, SummaryFacts.merge_try_ok.
    reflexivity.
  - intros l lines data. rewrite SummaryFacts.merge_loop_cons.
    destruct (Summary.row_of_line l) as [[smp row]|]; reflexivity.
  - intros fs env content Hfs.
    unfold DrawScaledMerge.parse_summary_file, open_. rewrite Hfs. simpl.
    rewrite SummaryFacts.merge_loop_store.
    eexists. split; [reflexivity|]. split.
    + intros smp Hno. rewrite SummaryFacts.store_other; [apply lookup_empty|].
      intros [k r] Hin Hk. simpl in Hk. subst k.
      apply list_elem_of_omap in Hin as (l & Hl & Hrow). by eapply Hno.
    + intros pre l post smp row -> Hrow Hlast.
      rewrite omap_app, PyFacts.omap_cons, Hrow. simpl.
      apply SummaryFacts.store_last.
      intros [k r] Hin Hk. simpl in Hk. subst k.
      apply list_elem_of_omap in Hin as (l' & Hl' & Hrow'). by eapply Hlast.
  - intros l smp v.
    rewrite SummaryFacts.pair_of_line_fields, SummaryFacts.scaled_try_ok.
    reflexivity.
  - intros l lines smp_info. rewrite SummaryFacts.scaled_loop_cons.
    destruct (Summary.pair_of_line l) as [[smp v]|]; reflexivity.
  - intros fs path content Hfs.
    unfold DrawScaled.parse_results_summary, open_. rewrite Hfs. simpl.
    rewrite SummaryFacts.scaled_loop_store.
    eexists. split; [reflexivity|]. split.
    + intros smp Hno. rewrite SummaryFacts.store_other; [apply lookup_empty|].
      intros [k r] Hin Hk. simpl in Hk. subst k.
      apply list_elem_of_omap in Hin as (l & Hl & Hrow). by eapply Hno.
    + intros pre l post smp v -> Hrow Hlast.
      rewrite omap_app, PyFacts.omap_cons, Hrow. simpl.
      apply SummaryFacts.store_last.
      intros [k r] Hin Hk. simpl in Hk. subst k.
      apply list_elem_of_omap in Hin as (l' & Hl' & Hrow'). by eapply Hlast.
Qed.

Lemma summary_rows_included_witness :
  (exists data,
      DrawScaledMerge.parse_summary_file Examples.duplicate_fs 1 = Ok data /\
      DrawScaledMerge.row_predicted_ns_per_call <$> data !! 4
      = Some Examples.f_0_6) /\
  (exists smp_info,
      DrawScaled.parse_results_summary Examples.duplicate_fs
        (DrawScaledMerge.summary_path 1) = Ok smp_info /\
      smp_info !! 4 = Some Examples.f_0_6).
Proof.
  destruct summary_rows_included
    as (_ & _ & _ & Hmerge & _ & _ & _ & Hscaled).
  split.
  - destruct (Hmerge Examples.duplicate_fs 1%nat Examples.duplicate_summary
                eq_refl) as (data & Hdata & _ & Hlast).
    exists data. split; [exact Hdata|].
    rewrite (Hlast [Examples.first_row] Examples.second_row [] 4
               (DrawScaledMerge.Build_summary_row
                  (Float.of_decimal false 200 (-3))
                  (Float.of_decimal false 2000 0)
                  Examples.f_0_6 (Float.of_decimal false 250 (-3))
                  (Float.of_decimal false 25 (-1))
                  (Float.of_decimal false 60000 0)
                  (Float.of_decimal false 3 (-1)))).
    + reflexivity.
    + vm_compute. reflexivity.
    + vm_compute. reflexivity.
    + intros l' row' Hin. by apply elem_of_nil in Hin.
  - destruct (Hscaled Examples.duplicate_fs (DrawScaledMerge.summary_path 1)
                Examples.duplicate_summary eq_refl)
      as (smp_info & Hinfo & _ & Hlast).
    exists smp_info. split; [exact Hinfo|].
    apply (Hlast [Examples.first_row] Examples.second_row [] 4 Examples.f_0_6).
    + vm_compute. reflexivity.
    + vm_compute. reflexivity.
    + intros l' v' Hin. by apply elem_of_nil in Hin.
Defined.

(** C7, counterexample.  In [main] of [draw_scaled.py] a cell whose
    SMP has no row in the summary gets [0.0] for both averages and its
    log is not read: with a table that has no row for SMP 1 and a log
    for SMP 1 holding one record of value [0.00003], the two trend
    lists are [[0.0]] and [[0.0]], whatever the calls that leave the
    script do. *)
Lemma draw_scaled_skips_cell_without_row :
  (exists smp_data,
      DrawScaled.parse_results_summary Examples.no_row_fs (DrawScaled.summary_file 1)
        = Ok smp_data /\ smp_data !! 1 = None) /\
  DrawScaled.parse_ns_per_call_time_log Examples.no_row_fs
    (DrawScaled.time_log_path 1 1) = Ok [Examples.f_0_00003] /\
  mean [Examples.f_0_00003] = Examples.f_0_00003 /\
  (forall out,
      DrawScaled.main_set out Examples.no_row_fs 1 1
      = Ok ([Float.of_Z 0], [Float.of_Z 0])) /\
  Float.of_Z 0 <> mean [Examples.f_0_00003].
Proof.
  split; [eexists; split; vm_compute; reflexivity|].
  split; [vm_compute; reflexivity|].
  split; [vm_compute; reflexivity|].
  split; [intros out; vm_compute; reflexivity|].
  vm_compute. discriminate.
Qed.

(** C7, as amended.  In the collection of [draw_scaled_merge.py], for
    a cell whose summary table has no row for the SMP and whose event
    log exists, the seven summary metrics of the cell are [0.0], the
    log is read all the same, and the two averages are the means
    [sum / len] of the values kept from the log, each as soon as one
    value is kept for it; the difference is the ns_per_call average
    minus [0.0]. *)
Theorem cell_without_row_keeps_event_metrics
    (fs : filesystem) (NUM_ENV NUM_SMP env smp : nat) (content : text) :
  (forall e, (1 <= e <= NUM_ENV)%nat ->
             is_Some (fs (DrawScaledMerge.summary_path e))) ->
  (1 <= env <= NUM_ENV)%nat ->
  (1 <= smp <= NUM_SMP)%nat ->
  Cell.table fs env !! Z.of_nat smp = None ->
  fs (DrawScaledMerge.time_log_path env smp) = Some content ->
  let ns_vals := omap ns_value (file_lines content) in
  let perc_vals := omap perc_value (file_lines content) in
  let r := DrawScaledMerge.collect fs NUM_ENV NUM_SMP in
  DrawScaledMerge.parse_ns_per_call_time_log fs
    (DrawScaledMerge.time_log_path env smp) = Ok ns_vals /\
  DrawScaledMerge.parse_percentage_time_log fs
    (DrawScaledMerge.time_log_path env smp) = Ok perc_vals /\
  (forall name, Cell.from_summary name = true ->
                Grid.cell r name env smp = Some DrawScaledMerge.zero) /\
  (ns_vals <> [] ->
   Grid.cell r DrawScaledMerge.avg_real_ns_call env smp
   = Some (Float.div (DrawScaled.sum ns_vals)
                     (Float.of_Z (Z.of_nat (length ns_vals))))) /\
  (perc_vals <> [] ->
   Grid.cell r DrawScaledMerge.avg_percentage env smp
   = Some (Float.div (DrawScaled.sum perc_vals)
                     (Float.of_Z (Z.of_nat (length perc_vals))))) /\
  Grid.cell r DrawScaledMerge.diff_ns_call env smp
  = Some (Float.sub (mean ns_vals) DrawScaledMerge.zero).
Proof.
  intros Hfs Henv Hsmp Hrow Hlog ns_vals perc_vals r.
  split; [exact (TimeLogFacts.parse_ns_values _ _ _ Hlog)|].
  split; [exact (TimeLogFacts.parse_perc_values _ _ _ Hlog)|].
  destruct (MergeFacts.collect_spec fs NUM_ENV NUM_SMP Hfs) as (ms & Hc & Hlook).
  assert (Hcell : forall name,
             Grid.cell r name env smp
             = Some (Cell.value fs (Cell.table fs env) env name smp)).
  { intros name. unfold Grid.cell, r. rewrite Hc, Hlook.
    rewrite decide_True by exact Henv. simpl. unfold Cell.row.
    rewrite list_lookup_fmap, lookup_seq_lt by lia.
    replace (1 + (smp - 1))%nat with smp by lia. reflexivity. }
  split; [|split; [|split]].
  - intros name Hname. rewrite Hcell. unfold Cell.value, Cell.column.
    destruct name; try discriminate; rewrite Hrow; reflexivity.
  - intros Hne. rewrite Hcell. unfold Cell.value, Cell.ns_vals.
    rewrite Hlog. fold ns_vals. unfold mean.
    destruct ns_vals; [congruence|reflexivity].
  - intros Hne. rewrite Hcell. unfold Cell.value, Cell.perc_vals.
    rewrite Hlog. fold perc_vals. unfold mean.
    destruct perc_vals; [congruence|reflexivity].
  - rewrite Hcell. unfold Cell.value, Cell.ns_vals, Cell.column.
    rewrite Hlog, Hrow. reflexivity.
Qed.

Lemma cell_without_row_keeps_event_metrics_witness :
  Grid.cell (DrawScaledMerge.collect Examples.rowless_fs 1 4)
    DrawScaledMerge.avg_real_ns_call 1 3 = Some Examples.f_0_00003.
Proof.
  destruct (cell_without_row_keeps_event_metrics
              Examples.rowless_fs 1 4 1 3 Examples.event_log)
    as (_ & _ & _ & Hns & _).
  - intros e He. assert (e = 1%nat) as -> by lia. vm_compute. eauto.
  - lia.
  - lia.
  - vm_compute. reflexivity.
  - vm_compute. reflexivity.
  - rewrite Hns; [vm_compute; reflexivity|vm_compute; discriminate].
Defined.




(** C9, counterexample.  Removing the inner sequence of
    [ESC [ ESC [ 0 m 0 m] leaves [ESC [ 0 m], which a second pass
    removes. *)
Lemma strip_twice_differs :
  DrawIncrease.remove_ansi_codes Examples.nested_escape
    = [DrawIncrease.ESC] ++ txt "[0m" /\
  DrawIncrease.remove_ansi_codes
    (DrawIncrease.remove_ansi_codes Examples.nested_escape) = [] /\
  DrawIncrease.remove_ansi_codes
    (DrawIncrease.remove_ansi_codes Examples.nested_escape)
  <> DrawIncrease.remove_ansi_codes Examples.nested_escape.
Proof.
  repeat split; try (vm_compute; reflexivity).
  vm_compute. discriminate.
Qed.

(** C9, as amended.  On every text in which each ESC begins a
    complete colour sequence, one pass of [remove_ansi_codes] (of
    [draw_increase.py] and of [draw_increase_merge.py]) leaves no ESC,
    and a second pass changes nothing. *)
Theorem strip_idempotent_on_complete_escapes (s : text) :
  Ansi.escapes_complete s = true ->
  (DrawIncrease.ESC ∉ DrawIncrease.remove_ansi_codes s) /\
  DrawIncrease.remove_ansi_codes (DrawIncrease.remove_ansi_codes s)
  = DrawIncrease.remove_ansi_codes s /\
  DrawIncreaseMerge.remove_ansi_codes (DrawIncreaseMerge.remove_ansi_codes s)
  = DrawIncreaseMerge.remove_ansi_codes s.
Proof.
  intros H. split; [|split].
  - apply AnsiFacts.remove_no_esc; [lia|exact H].
  - apply AnsiFacts.remove_idempotent_on, H.
  - rewrite !AnsiFacts.merge_remove_ansi_codes.
    apply AnsiFacts.remove_idempotent_on, H.
Qed.

Lemma strip_idempotent_on_complete_escapes_witness :
  DrawIncrease.remove_ansi_codes (DrawIncrease.remove_ansi_codes Examples.good_log)
  = DrawIncrease.remove_ansi_codes Examples.good_log.
Proof.
  destruct (strip_idempotent_on_complete_escapes Examples.good_log)
    as (_ & Hidem & _).
  - vm_compute. reflexivity.
  - exact Hidem.
Defined.

(** * Further properties of the scripts *)





(** X3.  The data collection of [draw_scaled_merge.py] returns only
    if the summary table of every environment exists: when the table
    of one environment is missing no matrix is left for the plots,
    whatever logs and other tables exist.  With text files at every
    path that exists, what stops the collection then is
    [FileNotFoundError]. *)
Theorem merge_collection_needs_every_table
    (fs : filesystem) (NUM_ENV NUM_SMP : nat) :
  ((exists ms, DrawScaledMerge.collect fs NUM_ENV NUM_SMP = Ok ms) ->
   forall env, (1 <= env <= NUM_ENV)%nat ->
               is_Some (fs (DrawScaledMerge.summary_path env))) /\
  (forall env, (1 <= env <= NUM_ENV)%nat ->
               fs (DrawScaledMerge.summary_path env) = None ->
               DrawScaledMerge.collect fs NUM_ENV NUM_SMP
               = Raise FileNotFoundError).
Proof.
  split.
  - intros [ms Hms]. exact (ScaledFacts.merge_collect_returned _ _ _ _ Hms).
  - intros env Henv Hnone. unfold DrawScaledMerge.collect.
    apply (ScaledFacts.merge_env_loop_missing _ _ _ _ env); [|exact Hnone].
    apply elem_of_seq. lia.
Qed.

Lemma merge_collection_needs_every_table_witness :
  DrawScaledMerge.collect Examples.scenario_fs 2 4 = Raise FileNotFoundError.
Proof.
  apply (proj2 (merge_collection_needs_every_table Examples.scenario_fs 2 4)
           2%nat); [lia|vm_compute; reflexivity].
Defined.

(** X4.  When [main] of [draw_scaled.py] gets through a set and the
    collection of [draw_scaled_merge.py] returns, the two scripts
    report the same averages wherever the table read by
    [draw_scaled.py] has a row for the SMP: the entries of the trend
    lists of [draw_scaled.py] are the entries of the matrices
    [avg_real_ns_call] and [avg_percentage] of
    [draw_scaled_merge.py]. *)
Theorem scripts_agree_on_averages
    (out : DrawScaled.outside) (fs : filesystem)
    (NUM_ENV NUM_SMP env smp : nat)
    (avg_ns_list avg_perc_list : list spec_float)
    (ms : DrawScaledMerge.matrices) :
  DrawScaled.main_set out fs NUM_SMP env = Ok (avg_ns_list, avg_perc_list) ->
  DrawScaledMerge.collect fs NUM_ENV NUM_SMP = Ok ms ->
  (1 <= env <= NUM_ENV)%nat ->
  (1 <= smp <= NUM_SMP)%nat ->
  is_Some (ScaledCell.table fs env !! Z.of_nat smp) ->
  avg_ns_list !! (smp - 1)%nat
  = Grid.cell (Ok ms) DrawScaledMerge.avg_real_ns_call env smp /\
  avg_perc_list !! (smp - 1)%nat
  = Grid.cell (Ok ms) DrawScaledMerge.avg_percentage env smp.
Proof.
  intros Hmain Hms Henv Hsmp [v Hrow].
  apply ScaledFacts.main_set_returned in Hmain as [_ [= -> ->]].
  pose proof (ScaledFacts.merge_collect_returned _ _ _ _ Hms) as Hfs.
  rewrite <- Hms.
  rewrite !(ScaledFacts.collect_cell _ _ _ _ _ _ Hfs Henv Hsmp).
  rewrite !list_lookup_fmap, lookup_seq_lt by lia.
  replace (1 + (smp - 1))%nat with smp by lia.
  cbn [fmap option_fmap option_map].
  unfold ScaledCell.avg_ns, ScaledCell.avg_perc. rewrite Hrow.
  split; reflexivity.
Qed.

Lemma scripts_agree_on_averages_witness :
  exists avg_ns_list avg_perc_list ms,
    DrawScaled.main_set DrawScaledMain.silent Examples.scenario_fs 4 1
      = Ok (avg_ns_list, avg_perc_list) /\
    DrawScaledMerge.collect Examples.scenario_fs 1 4 = Ok ms /\
    avg_ns_list !! 3%nat
    = Grid.cell (Ok ms) DrawScaledMerge.avg_real_ns_call 1 4.
Proof.
  assert (exists trends,
             DrawScaled.main_set DrawScaledMain.silent Examples.scenario_fs 4 1
             = Ok trends) as [[ns perc] Hmain]
    by (eexists; vm_compute; reflexivity).
  destruct (MergeFacts.collect_spec Examples.scenario_fs 1 4) as (ms & Hms & _).
  { intros e He. assert (e = 1%nat) as -> by lia. vm_compute. eauto. }
  exists ns, perc, ms. split; [exact Hmain|]. split; [exact Hms|].
  apply (scripts_agree_on_averages DrawScaledMain.silent Examples.scenario_fs
           1 4 1 4 ns perc ms Hmain Hms); [lia|lia|].
  vm_compute. eauto.
Defined.

(** X5.  In the matrices of [draw_scaled_merge.py] the derived
    entries agree with the entries they are derived from, cell by
    cell: [diff_ns_call] is [avg_real_ns_call - predict_ns_call] and
    [diff_boot_time] is [predict_boot_time - real_boot_time], also in
    the cells filled with defaults. *)
Theorem derived_matrices_consistent
    (fs : filesystem) (NUM_ENV NUM_SMP env smp : nat) :
  (forall e, (1 <= e <= NUM_ENV)%nat ->
             is_Some (fs (DrawScaledMerge.summary_path e))) ->
  (1 <= env <= NUM_ENV)%nat ->
  (1 <= smp <= NUM_SMP)%nat ->
  let cell := Grid.cell (DrawScaledMerge.collect fs NUM_ENV NUM_SMP) in
  exists avg_ns pred_ns pred_sec rbt,
    cell DrawScaledMerge.avg_real_ns_call env smp = Some avg_ns /\
    cell DrawScaledMerge.predict_ns_call env smp = Some pred_ns /\
    cell DrawScaledMerge.diff_ns_call env smp = Some (Float.sub avg_ns pred_ns) /\
    cell DrawScaledMerge.predict_boot_time env smp = Some pred_sec /\
    cell DrawScaledMerge.real_boot_time env smp = Some rbt /\
    cell DrawScaledMerge.diff_boot_time env smp = Some (Float.sub pred_sec rbt).
Proof.
  intros Hfs Henv Hsmp cell. unfold cell.
  rewrite !(ScaledFacts.collect_cell _ _ _ _ _ _ Hfs Henv Hsmp).
  do 4 eexists. repeat (split; [reflexivity|]).
  unfold Cell.value, Cell.column.
  destruct (Cell.table fs env !! Z.of_nat smp); reflexivity.
Qed.

Lemma derived_matrices_consistent_witness :
  Grid.cell (DrawScaledMerge.collect Examples.scenario_fs 1 4)
    DrawScaledMerge.diff_ns_call 1 4
  = Some (Float.sub Examples.f_0_00003 Examples.f_50_0).
Proof.
  destruct (derived_matrices_consistent Examples.scenario_fs 1 4 1 4)
    as (avg_ns & pred_ns & _ & _ & Havg & Hpred & Hdiff & _).
  - intros e He. assert (e = 1%nat) as -> by lia. vm_compute. eauto.
  - lia.
  - lia.
  - rewrite Hdiff.
    assert (Some avg_ns = Some Examples.f_0_00003) as [= ->]
      by (rewrite <- Havg; vm_compute; reflexivity).
    assert (Some pred_ns = Some Examples.f_50_0) as [= ->]
      by (rewrite <- Hpred; vm_compute; reflexivity).
    reflexivity.
Defined.

(** X6.  A cell of the matrices of [draw_scaled_merge.py] depends on
    two files only, the summary table of its environment and its own
    event log: two file systems that agree on these two files, and in
    which the collection returns, give the cell the same value in
    every matrix. *)
Theorem cell_depends_on_its_files
    (fs fs' : filesystem) (NUM_ENV NUM_SMP env smp : nat)
    (name : DrawScaledMerge.metric) :
  (forall e, (1 <= e <= NUM_ENV)%nat ->
             is_Some (fs (DrawScaledMerge.summary_path e))) ->
  (forall e, (1 <= e <= NUM_ENV)%nat ->
             is_Some (fs' (DrawScaledMerge.summary_path e))) ->
  (1 <= env <= NUM_ENV)%nat ->
  (1 <= smp <= NUM_SMP)%nat ->
  fs (DrawScaledMerge.summary_path env) = fs' (DrawScaledMerge.summary_path env) ->
  fs (DrawScaledMerge.time_log_path env smp)
    = fs' (DrawScaledMerge.time_log_path env smp) ->
  Grid.cell (DrawScaledMerge.collect fs NUM_ENV NUM_SMP) name env smp
  = Grid.cell (DrawScaledMerge.collect fs' NUM_ENV NUM_SMP) name env smp.
Proof.
  intros Hfs Hfs' Henv Hsmp Hs Hl.
  rewrite (ScaledFacts.collect_cell _ _ _ _ _ _ Hfs Henv Hsmp),
          (ScaledFacts.collect_cell _ _ _ _ _ _ Hfs' Henv Hsmp).
  f_equal. by apply ScaledFacts.value_local.
Qed.

Lemma cell_depends_on_its_files_witness :
  Grid.cell (DrawScaledMerge.collect Examples.scenario_fs 1 4)
    DrawScaledMerge.avg_real_ns_call 1 4
  = Grid.cell (DrawScaledMerge.collect Examples.rowless_fs 1 4)
      DrawScaledMerge.avg_real_ns_call 1 4.
Proof.
  apply (cell_depends_on_its_files Examples.scenario_fs Examples.rowless_fs 1 4 1 4).
  - intros e He. assert (e = 1%nat) as -> by lia. vm_compute. eauto.
  - intros e He. assert (e = 1%nat) as -> by lia. vm_compute. eauto.
  - lia.
  - lia.
  - vm_compute. reflexivity.
  - vm_compute. reflexivity.
Defined.

(** X7.  The matrices of [draw_scaled_merge.py] do not tell a log
    without any value from a missing log: when no line of the log of
    a cell yields an ns_per_call value, every matrix is the same as if
    the log file were not there. *)
Theorem log_without_values_like_missing
    (fs : filesystem) (NUM_ENV NUM_SMP env smp : nat) (content : text)
    (name : DrawScaledMerge.metric) (env' smp' : nat) :
  (forall e, (1 <= e <= NUM_ENV)%nat ->
             is_Some (fs (DrawScaledMerge.summary_path e))) ->
  fs (DrawScaledMerge.time_log_path env smp) = Some content ->
  omap ns_value (file_lines content) = [] ->
  (1 <= env' <= NUM_ENV)%nat ->
  (1 <= smp' <= NUM_SMP)%nat ->
  Grid.cell (DrawScaledMerge.collect fs NUM_ENV NUM_SMP) name env' smp'
  = Grid.cell
      (DrawScaledMerge.collect
         (Files.without (DrawScaledMerge.time_log_path env smp) fs)
         NUM_ENV NUM_SMP)
      name env' smp'.
Proof.
  intros Hfs Hlog Hns Henv Hsmp.
  set (fs' := Files.without (DrawScaledMerge.time_log_path env smp) fs).
  assert (Hsum : forall e, fs' (DrawScaledMerge.summary_path e)
                           = fs (DrawScaledMerge.summary_path e)).
  { intros e. unfold fs', Files.without.
    rewrite decide_False; [reflexivity|apply ScaledFacts.summary_is_no_log]. }
  assert (Hfs' : forall e, (1 <= e <= NUM_ENV)%nat ->
                           is_Some (fs' (DrawScaledMerge.summary_path e))).
  { intros e He. rewrite Hsum. by apply Hfs. }
  rewrite (ScaledFacts.collect_cell _ _ _ _ _ _ Hfs Henv Hsmp),
          (ScaledFacts.collect_cell _ _ _ _ _ _ Hfs' Henv Hsmp).
  f_equal. unfold Cell.value, Cell.table, Cell.ns_vals, Cell.perc_vals.
  rewrite Hsum.
  destruct (decide (DrawScaledMerge.time_log_path env' smp'
                    = DrawScaledMerge.time_log_path env smp)) as [E|Hne].
  - rewrite E, Hlog. unfold fs', Files.without.
    rewrite decide_True by reflexivity.
    rewrite Hns, (ScaledFacts.no_ns_no_perc _ Hns). reflexivity.
  - unfold fs', Files.without. rewrite decide_False by exact Hne. reflexivity.
Qed.

Lemma log_without_values_like_missing_witness :
  Grid.cell
    (DrawScaledMerge.collect
       (fun path => if decide (path = DrawScaledMerge.time_log_path 1 3)
                    then Some Examples.line_1e9 else Examples.scenario_fs path)
       1 4)
    DrawScaledMerge.avg_real_ns_call 1 3
  = Some (Float.of_Z 0).
Proof.
  rewrite (log_without_values_like_missing _ 1 4 1 3 Examples.line_1e9).
  - vm_compute. reflexivity.
  - intros e He. assert (e = 1%nat) as -> by lia. vm_compute. eauto.
  - vm_compute. reflexivity.
  - vm_compute. reflexivity.
  - lia.
  - lia.
Defined.

(** X8.  A [diff:] line whose total reads [nan] passes the threshold
    test, since [nan > 1e8] is false, and its NaN enters the list of
    ns_per_call values; the mean of a list that holds a NaN is NaN, so
    one such line turns the average of its cell into NaN. *)
Theorem nan_total_poisons_average
    (fs : filesystem) (path content : text) (l total_str : text) :
  fs path = Some content ->
  l ∈ file_lines content ->
  is_diff_line l = true ->
  total_field (strip l) = Some total_str ->
  PyNum.float total_str = Ok S754_nan ->
  exists ns_values,
    DrawScaled.parse_ns_per_call_time_log fs path = Ok ns_values /\
    DrawScaledMerge.parse_ns_per_call_time_log fs path = Ok ns_values /\
    S754_nan ∈ ns_values /\
    DrawScaled.average ns_values = Ok S754_nan.
Proof.
  intros Hfs Hin Hdiff Hts Hnan.
  assert (Hval : ns_value l = Some S754_nan).
  { rewrite TimeLogFacts.ns_value_field, Hdiff, Hts, Hnan. reflexivity. }
  assert (Hmem : S754_nan ∈ omap ns_value (file_lines content)).
  { apply list_elem_of_omap. eauto. }
  exists (omap ns_value (file_lines content)).
  split; [exact (TimeLogFacts.parse_ns_values _ _ _ Hfs)|].
  split; [exact (TimeLogFacts.parse_ns_values _ _ _ Hfs)|].
  split; [exact Hmem|].
  rewrite TimeLogFacts.average_mean.
  - f_equal. by apply ScaledFacts.mean_with_nan.
  - intros E. rewrite E in Hmem. by apply elem_of_nil in Hmem.
Qed.

Lemma nan_total_poisons_average_witness :
  exists ns_values,
    DrawScaled.parse_ns_per_call_time_log
      (fun _ => Some (Examples.line_60 ++ txt "diff: 5, total: NaN")) []
    = Ok ns_values /\
    DrawScaled.average ns_values = Ok S754_nan.
Proof.
  destruct (nan_total_poisons_average
              (fun _ => Some (Examples.line_60 ++ txt "diff: 5, total: NaN")) []
              (Examples.line_60 ++ txt "diff: 5, total: NaN")
              (txt "diff: 5, total: NaN") (txt "NaN"))
    as (ns & Hns & _ & _ & Havg).
  - reflexivity.
  - vm_compute. apply list_elem_of_further, list_elem_of_here.
  - vm_compute. reflexivity.
  - vm_compute. reflexivity.
  - vm_compute. reflexivity.
  - exists ns. split; [exact Hns|exact Havg].
Defined.

(** X16.  Every SMP key that [parse_summary_file] of
    [draw_scaled_merge.py] finds in a table is also found by
    [parse_results_summary] of [draw_scaled.py] in the same table: a
    row whose columns 2 to 8 all convert has a column 4 that
    converts. *)
Theorem merge_keys_among_scaled_keys
    (fs : filesystem) (env : nat) (content : text) :
  fs (DrawScaledMerge.summary_path env) = Some content ->
  exists data smp_info,
    DrawScaledMerge.parse_summary_file fs env = Ok data /\
    DrawScaled.parse_results_summary fs (DrawScaled.summary_file env)
      = Ok smp_info /\
    forall smp, is_Some (data !! smp) -> is_Some (smp_info !! smp).
Proof.
  intros Hfs.
  rewrite (MergeFacts.parse_summary_table _ _ _ Hfs),
          (ScaledFacts.parse_results_table _ _ _ Hfs).
  do 2 eexists. split; [reflexivity|]. split; [reflexivity|].
  intros smp. unfold Cell.table, ScaledCell.table.
  change (DrawScaled.summary_file env) with (DrawScaledMerge.summary_path env).
  rewrite Hfs. unfold Cell.summary_of.
  rewrite !ScaledFacts.store_is_Some.
  intros [[row Hrow]|Hemp]; [|by rewrite lookup_empty in Hemp; destruct Hemp].
  left. apply list_elem_of_omap in Hrow as (l & Hl & Hrow).
  exists (DrawScaledMerge.row_predicted_ns_per_call row).
  apply list_elem_of_omap. exists l. split; [exact Hl|].
  by apply ScaledFacts.row_gives_pair.
Qed.

Lemma merge_keys_among_scaled_keys_witness :
  exists smp_info,
    DrawScaled.parse_results_summary Examples.scenario_fs (DrawScaled.summary_file 1)
      = Ok smp_info /\ is_Some (smp_info !! 4).
Proof.
  destruct (merge_keys_among_scaled_keys Examples.scenario_fs 1 Examples.summary_text)
    as (data & smp_info & Hdata & Hinfo & Hkeys).
  - vm_compute. reflexivity.
  - exists smp_info. split; [exact Hinfo|]. apply Hkeys.
    assert (Ok data = Ok (Cell.table Examples.scenario_fs 1)) as [= ->]
      by (rewrite <- Hdata; apply (MergeFacts.parse_summary_table _ _ Examples.summary_text);
          vm_compute; reflexivity).
    vm_compute. eauto.
Defined.

(** X9.  Joining two event logs joins their values: when the first
    log ends with a line feed, the parsers of [draw_scaled.py] (and so
    those of [draw_scaled_merge.py]) return, on the two logs written
    one after the other, the values of the first followed by the
    values of the second. *)
Theorem joined_logs_join_values
    (fs : filesystem) (path1 path2 path : text) (log1 log2 : text) :
  fs path1 = Some (log1 ++ [LF]) ->
  fs path2 = Some log2 ->
  fs path = Some (log1 ++ LF :: log2) ->
  exists ns1 ns2 perc1 perc2,
    DrawScaled.parse_ns_per_call_time_log fs path1 = Ok ns1 /\
    DrawScaled.parse_ns_per_call_time_log fs path2 = Ok ns2 /\
    DrawScaled.parse_ns_per_call_time_log fs path = Ok (ns1 ++ ns2) /\
    DrawScaled.parse_percentage_time_log fs path1 = Ok perc1 /\
    DrawScaled.parse_percentage_time_log fs path2 = Ok perc2 /\
    DrawScaled.parse_percentage_time_log fs path = Ok (perc1 ++ perc2).
Proof.
  intros H1 H2 H.
  rewrite (TimeLogFacts.parse_ns_values _ _ _ H1),
          (TimeLogFacts.parse_ns_values _ _ _ H2),
          (TimeLogFacts.parse_ns_values _ _ _ H),
          (TimeLogFacts.parse_perc_values _ _ _ H1),
          (TimeLogFacts.parse_perc_values _ _ _ H2),
          (TimeLogFacts.parse_perc_values _ _ _ H).
  rewrite (NewlineFacts.file_lines_app log1 log2), !omap_app.
  do 4 eexists. repeat split; reflexivity.
Qed.

Lemma joined_logs_join_values_witness :
  exists ns1 ns2,
    DrawScaled.parse_ns_per_call_time_log
      (fun p => if decide (p = txt "a") then Some (txt "diff: 100, total: 60" ++ [LF])
                else if decide (p = txt "b") then Some (txt "diff: 5, total: 80")
                else Some (txt "diff: 100, total: 60" ++ LF :: txt "diff: 5, total: 80"))
      (txt "c")
    = Ok (ns1 ++ ns2) /\ length ns1 = 1%nat /\ length ns2 = 1%nat.
Proof.
  destruct (joined_logs_join_values
              (fun p => if decide (p = txt "a") then Some (txt "diff: 100, total: 60" ++ [LF])
                else if decide (p = txt "b") then Some (txt "diff: 5, total: 80")
                else Some (txt "diff: 100, total: 60" ++ LF :: txt "diff: 5, total: 80"))
              (txt "a") (txt "b") (txt "c")
              (txt "diff: 100, total: 60") (txt "diff: 5, total: 80"))
    as (ns1 & ns2 & perc1 & perc2 & Hn1 & Hn2 & Hn & _).
  - reflexivity.
  - reflexivity.
  - reflexivity.
  - exists ns1, ns2. split; [exact Hn|].
    vm_compute in Hn1. injection Hn1 as <-.
    vm_compute in Hn2. injection Hn2 as <-.
    split; reflexivity.
Defined.

(** X10.  [remove_ansi_codes] only deletes: its result is the text
    with some characters left out, in the same order, so it is never
    longer than the text; and it is the text itself exactly when the
    pattern of the escape codes matches at no position of the text. *)
Theorem remove_ansi_codes_only_deletes (s : text) :
  DrawIncrease.remove_ansi_codes s `sublist_of` s /\
  (length (DrawIncrease.remove_ansi_codes s) <= length s)%nat /\
  (DrawIncrease.remove_ansi_codes s = s <->
   forall pre suf, s = pre ++ suf ->
                   Re.match_at DrawIncrease.ansi_escape suf = None).
Proof.
  split; [apply AnsiMore.remove_sublist|].
  split; [apply sublist_length, AnsiMore.remove_sublist|].
  rewrite AnsiMore.remove_fixed.
  split; intros Hall pre suf Hs; specialize (Hall pre suf Hs).
  - rewrite AnsiFacts.match_at_ansi, Hall. reflexivity.
  - rewrite AnsiFacts.match_at_ansi in Hall.
    destruct (Ansi.after_escape suf); [discriminate|reflexivity].
Qed.

Lemma remove_ansi_codes_only_deletes_witness :
  (length (DrawIncrease.remove_ansi_codes Examples.coloured_line)
   <= length Examples.coloured_line)%nat.
Proof.
  exact (proj1 (proj2 (remove_ansi_codes_only_deletes Examples.coloured_line))).
Defined.

(** X11.  A complete escape sequence (ESC, an opening bracket, digits
    and semicolons, [m]) is removed wherever it stands, and the text
    before it and the text after it are cleaned independently of each
    other. *)
Theorem remove_splits_at_sequence (before params after : text) :
  Forall (fun c => DrawIncrease.digit_or_semi c = true) params ->
  DrawIncrease.remove_ansi_codes
    (before ++ DrawIncrease.ESC :: "["%char :: params ++ "m"%char :: after)
  = DrawIncrease.remove_ansi_codes before
    ++ DrawIncrease.remove_ansi_codes after.
Proof.
  intros Hp. rewrite AnsiMore.remove_app_esc.
  by rewrite AnsiMore.remove_sequence.
Qed.

Lemma remove_splits_at_sequence_witness :
  DrawIncrease.remove_ansi_codes
    (txt "Boot" ++ DrawIncrease.ESC :: "["%char :: txt "1;32" ++ "m"%char :: txt " time")
  = txt "Boot time".
Proof.
  rewrite (remove_splits_at_sequence (txt "Boot") (txt "1;32") (txt " time")).
  - vm_compute. reflexivity.
  - vm_compute. repeat constructor.
Defined.

(** X12.  The collections of [draw_increase.py] and of
    [draw_increase_merge.py] return on the same file systems, and
    only if in every log of the grid that exists the numbers convert:
    the text captured as the boot time is a float, and the call count
    and the offset captured have no more than 4300 digits, the most
    that [int] takes.  With text files at every path that exists the
    converse holds, and [ValueError] is all that the collections
    raise. *)
Theorem boot_collections_return_iff_convert
    (fs : filesystem) (NUM_ENV NUM_SMP : nat) :
  ((exists data, DrawIncrease.collect fs NUM_ENV NUM_SMP = Ok data) <->
   (exists t, DrawIncreaseMerge.collect fs NUM_ENV NUM_SMP = Ok t)) /\
  ((exists data, DrawIncrease.collect fs NUM_ENV NUM_SMP = Ok data) <->
   Increase.numbers_convert fs NUM_ENV NUM_SMP) /\
  ((exists t, DrawIncreaseMerge.collect fs NUM_ENV NUM_SMP = Ok t) <->
   Increase.numbers_convert fs NUM_ENV NUM_SMP) /\
  (forall e, DrawIncrease.collect fs NUM_ENV NUM_SMP = Raise e ->
             e = ValueError) /\
  (forall e, DrawIncreaseMerge.collect fs NUM_ENV NUM_SMP = Raise e ->
             e = ValueError).
Proof.
  pose proof (IncreaseMore.smp_loop_inv fs NUM_ENV (seq 1 NUM_SMP) ∅) as Hinc.
  fold (DrawIncrease.collect fs NUM_ENV NUM_SMP) in Hinc.
  pose proof (IncreaseMore.merge_env_loop_inv fs NUM_SMP (seq 1 NUM_ENV)
    {| DrawIncreaseMerge.boot_data :=
         DrawIncreaseMerge.filled (Float.of_Z 0) NUM_ENV NUM_SMP;
       DrawIncreaseMerge.called_data := DrawIncreaseMerge.filled 0 NUM_ENV NUM_SMP;
       DrawIncreaseMerge.offset_data := DrawIncreaseMerge.filled 0 NUM_ENV NUM_SMP |})
    as Hmerge.
  fold (DrawIncreaseMerge.collect fs NUM_ENV NUM_SMP) in Hmerge.
  assert (H1 : (exists data, DrawIncrease.collect fs NUM_ENV NUM_SMP = Ok data) <->
               Increase.numbers_convert fs NUM_ENV NUM_SMP).
  { split.
    - intros [data Hc]. rewrite Hc in Hinc.
      apply RegexFacts.convert_parsable.
      intros env smp raw Henv Hsmp. apply Hinc; [exact Henv|].
      apply elem_of_seq. lia.
    - intros Hnum. apply RegexFacts.convert_parsable in Hnum.
      destruct (IncreaseFacts.collect_entries _ _ _ Hnum) as (data & Hc & _).
      eauto. }
  assert (H2 : (exists t, DrawIncreaseMerge.collect fs NUM_ENV NUM_SMP = Ok t) <->
               Increase.numbers_convert fs NUM_ENV NUM_SMP).
  { split.
    - intros [t Hc]. rewrite Hc in Hmerge.
      apply RegexFacts.convert_parsable.
      intros env smp raw Henv Hsmp. apply Hmerge; [|exact Hsmp].
      apply elem_of_seq. lia.
    - intros Hnum. apply RegexFacts.convert_parsable in Hnum.
      destruct (IncreaseMergeFacts.collect_rows _ _ _ Hnum) as (t & Hc & _).
      eauto. }
  split; [by rewrite H1, H2|]. split; [exact H1|]. split; [exact H2|].
  split.
  - intros e He. rewrite He in Hinc. by destruct Hinc.
  - intros e He. rewrite He in Hmerge. by destruct Hmerge.
Qed.

Lemma boot_collections_return_iff_convert_witness :
  exists data, DrawIncrease.collect Examples.good_log_fs 1 1 = Ok data.
Proof.
  apply (proj2 (proj1 (proj2 (boot_collections_return_iff_convert
                                Examples.good_log_fs 1 1)))).
  intros env smp raw Henv Hsmp.
  assert (env = 1%nat) as -> by lia. assert (smp = 1%nat) as -> by lia.
  intros Hraw. vm_compute in Hraw. injection Hraw as <-.
  split; [|split]; intros field Hfield;
    vm_compute in Hfield; injection Hfield as <-.
  - eexists. vm_compute. reflexivity.
  - apply Nat.leb_le. vm_compute. reflexivity.
  - apply Nat.leb_le. vm_compute. reflexivity.
Defined.

(** X13.  The two boot-log scripts store the same numbers: when the
    collection of [draw_increase.py] returns, so does that of
    [draw_increase_merge.py], and for every cell of the grid the entry
    [data[smp][env]] of the first holds the boot time, the call count
    and the offset that the second stores at [boot_data[env][smp-1]],
    [called_data[env][smp-1]] and [offset_data[env][smp-1]]. *)
Theorem boot_scripts_agree
    (fs : filesystem) (NUM_ENV NUM_SMP : nat) (env smp : nat)
    (data : gmap nat (gmap nat DrawIncrease.entry)) :
  DrawIncrease.collect fs NUM_ENV NUM_SMP = Ok data ->
  (1 <= env <= NUM_ENV)%nat ->
  (1 <= smp <= NUM_SMP)%nat ->
  exists t e,
    DrawIncreaseMerge.collect fs NUM_ENV NUM_SMP = Ok t /\
    data !! smp ≫= (fun row => row !! env) = Some e /\
    DrawIncreaseMerge.boot_data t !! env ≫= (fun row => row !! (smp - 1)%nat)
      = Some (DrawIncrease.boot e) /\
    DrawIncreaseMerge.called_data t !! env ≫= (fun row => row !! (smp - 1)%nat)
      = Some (DrawIncrease.called e) /\
    DrawIncreaseMerge.offset_data t !! env ≫= (fun row => row !! (smp - 1)%nat)
      = Some (DrawIncrease.offset e).
Proof.
  intros Hcollect Henv Hsmp.
  assert (Hnum : Increase.parsable fs NUM_ENV NUM_SMP).
  { pose proof (IncreaseMore.smp_loop_inv fs NUM_ENV (seq 1 NUM_SMP) ∅) as Hinc.
    fold (DrawIncrease.collect fs NUM_ENV NUM_SMP) in Hinc.
    rewrite Hcollect in Hinc.
    intros env' smp' raw He Hs. apply Hinc; [exact He|].
    apply elem_of_seq. lia. }
  destruct (IncreaseFacts.collect_entries _ _ _ Hnum) as (data' & Hc & Hdata).
  assert (data' = data) as -> by congruence.
  destruct (IncreaseMergeFacts.collect_rows _ _ _ Hnum) as (t & Hc' & Ht).
  exists t, (Increase.entry_of fs smp env).
  split; [exact Hc'|].
  split; [rewrite Hdata, decide_True by tauto; reflexivity|].
  assert (Hcell : forall A (c : Increase.col A),
             Increase.get c t !! env ≫= (fun row => row !! (smp - 1)%nat)
             = Some (Increase.val c (Increase.entry_of fs smp env))).
  { intros A c. rewrite Ht, decide_True by exact Henv. simpl.
    unfold Increase.merge_row.
    rewrite list_lookup_fmap, lookup_seq_lt by lia.
    replace (1 + (smp - 1))%nat with smp by lia. reflexivity. }
  split; [exact (Hcell _ Increase.Boot)|].
  split; [exact (Hcell _ Increase.Called)|exact (Hcell _ Increase.Offset)].
Qed.

Lemma boot_scripts_agree_witness :
  exists data t e,
    DrawIncrease.collect Examples.good_log_fs 1 1 = Ok data /\
    DrawIncreaseMerge.collect Examples.good_log_fs 1 1 = Ok t /\
    data !! 1%nat ≫= (fun row => row !! 1%nat) = Some e /\
    DrawIncreaseMerge.boot_data t !! 1%nat ≫= (fun row => row !! 0%nat)
      = Some (DrawIncrease.boot e).
Proof.
  assert (exists data, DrawIncrease.collect Examples.good_log_fs 1 1 = Ok data)
    as [data Hd] by (eexists; vm_compute; reflexivity).
  destruct (boot_scripts_agree Examples.good_log_fs 1 1 1 1 data Hd)
    as (t & e & Ht & He & Hb & _); [lia|lia|].
  exists data, t, e. auto.
Defined.

(** X14.  The boot pattern finds the two numbers of a boot line:
    on a text that holds [Boot time:], the boot time [b] (digits and
    dots), [seconds,], [called], the call count [n] (digits) and
    [times], separated by white space, and in which no match starts
    before that line, [boot_re.search] captures [b] and [n], whatever
    follows the line.  The extraction then returns [float(b)] with
    the number that the digits of [n] denote, unless [float(b)]
    raises or [n] has more than 4300 digits, which [int] refuses with
    [ValueError]. *)
Theorem boot_line_is_found (pre w0 b w1 w2 w3 n w4 post : text) :
  Forall (fun c => isspace c = true) w0 ->
  Lines.run DrawIncrease.digit_or_dot b ->
  Lines.run isspace w1 -> Lines.run isspace w2 -> Lines.run isspace w3 ->
  Lines.run isdigit n ->
  Lines.run isspace w4 ->
  Lines.starts_nowhere DrawIncrease.boot_re pre
    (Lines.boot_line w0 b w1 w2 w3 n w4 post) = true ->
  Re.search DrawIncrease.boot_re
    (pre ++ Lines.boot_line w0 b w1 w2 w3 n w4 post) = Some [b; n] /\
  DrawIncrease.extract_boot (pre ++ Lines.boot_line w0 b w1 w2 w3 n w4 post)
  = (boot_time ← PyNum.float b;
     if (PyNum.int_max_str_digits <? length n)%nat then Raise ValueError
     else Ok (boot_time, PyNum.digits_val n)).
Proof.
  intros H0 Hb H1 H2 H3 Hn H4 Hpre.
  assert (Hs : Re.search DrawIncrease.boot_re
                 (pre ++ Lines.boot_line w0 b w1 w2 w3 n w4 post)
               = Some [b; n]).
  { rewrite (LineFacts.search_skip _ _ _ Hpre).
    apply (LineFacts.search_here _ _ post).
    by apply LineFacts.boot_line_match. }
  split; [exact Hs|].
  unfold DrawIncrease.extract_boot. rewrite Hs.
  change (Re.group [b; n] 1) with b. change (Re.group [b; n] 2) with n.
  pose proof (LineFacts.int_digits false n Hn) as Hint.
  change (PyNum.int ((if false then txt "-" else []) ++ n))
    with (PyNum.int n) in Hint.
  rewrite Hint. destruct (PyNum.float b); [|reflexivity].
  cbn [mbind result_bind]. destruct (_ <? _)%nat; reflexivity.
Qed.

Lemma boot_line_is_found_witness :
  DrawIncrease.extract_boot
    (txt "[SEMU LOG]: "
     ++ Lines.boot_line (txt " ") (txt "3.59699") (txt " ") (txt " ") (txt " ")
          (txt "239937385") (txt " ") (txt " semu_timer_clocksource"))
  = (boot_time ← PyNum.float (txt "3.59699"); Ok (boot_time, 239937385)).
Proof.
  destruct (boot_line_is_found (txt "[SEMU LOG]: ")
              (txt " ") (txt "3.59699") (txt " ") (txt " ") (txt " ")
              (txt "239937385") (txt " ") (txt " semu_timer_clocksource"))
    as [_ Hboot].
  - repeat constructor.
  - split; [discriminate|repeat constructor].
  - split; [discriminate|repeat constructor].
  - split; [discriminate|repeat constructor].
  - split; [discriminate|repeat constructor].
  - split; [discriminate|repeat constructor].
  - split; [discriminate|repeat constructor].
  - vm_compute. reflexivity.
  - rewrite Hboot. vm_compute. reflexivity.
Defined.

(** X15.  The offset pattern finds a signed offset: on a text that
    holds [offset:], white space or none, a minus sign or none, and
    the digits [n] not followed by a further digit, and in which no
    match starts earlier, [offset_re.search] captures the sign with
    the digits, and the extraction returns the integer they denote
    unless there are more than 4300 digits, which [int] refuses with
    [ValueError]. *)
Theorem offset_is_found (pre w0 : text) (neg : bool) (n post : text) :
  Forall (fun c => isspace c = true) w0 ->
  Lines.run isdigit n ->
  (forall c, head post = Some c -> isdigit c = false) ->
  Lines.starts_nowhere DrawIncrease.offset_re pre
    (Lines.offset_line w0 (if neg then txt "-" else []) n post) = true ->
  Re.search DrawIncrease.offset_re
    (pre ++ Lines.offset_line w0 (if neg then txt "-" else []) n post)
  = Some [(if neg then txt "-" else []) ++ n] /\
  DrawIncrease.extract_offset
    (pre ++ Lines.offset_line w0 (if neg then txt "-" else []) n post)
  = if (PyNum.int_max_str_digits <? length n)%nat then Raise ValueError
    else Ok (if neg then - PyNum.digits_val n else PyNum.digits_val n).
Proof.
  intros H0 Hn Hpost Hpre.
  assert (Hs : Re.search DrawIncrease.offset_re
                 (pre ++ Lines.offset_line w0 (if neg then txt "-" else []) n post)
               = Some [(if neg then txt "-" else []) ++ n]).
  { rewrite (LineFacts.search_skip _ _ _ Hpre).
    apply (LineFacts.search_here _ _ post).
    by apply LineFacts.offset_line_match. }
  split; [exact Hs|].
  unfold DrawIncrease.extract_offset. rewrite Hs.
  change (Re.group [(if neg then txt "-" else []) ++ n] 1)
    with ((if neg then txt "-" else []) ++ n).
  by apply LineFacts.int_digits.
Qed.

Lemma offset_is_found_witness :
  DrawIncrease.extract_offset
    (txt "boot_ticks: 29345773402928, "
     ++ Lines.offset_line (txt " ") (txt "-") (txt "545795809") [LF])
  = Ok (-545795809).
Proof.
  destruct (offset_is_found (txt "boot_ticks: 29345773402928, ")
              (txt " ") true (txt "545795809") [LF])
    as [_ Hoff].
  - repeat constructor.
  - split; [discriminate|repeat constructor].
  - intros c [= <-]. reflexivity.
  - vm_compute. reflexivity.
  - rewrite Hoff. vm_compute. reflexivity.
Defined.
